(** * wayvnc: capture back ends and keyboard injection

    A shallow embedding of the keyboard injector ([src/src/keyboard.c]),
    the screencopy back end (the C file that follows the shader in
    [src/shaders/dmabuf-vertex.glsl], with its header
    [src/unnamed/part_001]) and the DMA-BUF back end (the first C file of
    [src/unnamed/part_000], with its header [src/unnamed/part_002]).

    Unsigned 32-bit fields are integers in [Z], with the wrap-around
    written where the C code computes with them; a [double] is an IEEE 754
    binary64 value, and the arithmetic on it rounds as the standard says;
    C structs are records; what a handler asks of the compositor, the event loop and the operating
    system is recorded, in order, in a trace, and what these answer is an
    argument of the handler. *)

From Stdlib Require Import ZArith QArith List Lia Permutation Sorted Bool.
From Stdlib Require Import SpecFloat.
From stdpp Require Import gmap sorting.

Local Open Scope Z_scope.

(** ** Machine integers *)

Definition UINT32_MOD : Z := 2 ^ 32.
Definition UINT64_MOD : Z := 2 ^ 64.

(** Unsigned arithmetic on [uint32_t] and [uint64_t] operands. *)
Definition u32 (z : Z) : Z := z mod UINT32_MOD.
Definition u64 (z : Z) : Z := z mod UINT64_MOD.

(** Signed 32-bit parameters ([int32_t], [GLint], [GLsizei]): the value
    an unsigned argument has after its conversion. *)
Definition i32 (z : Z) : Z := (z + 2 ^ 31) mod 2 ^ 32 - 2 ^ 31.

(** ** Double precision *)

Module Double.

(** The C type [double] as IEEE 754 binary64.  Every operation rounds to
    nearest, ties to even, and is rounded on its own: the expressions of the
    program are read without excess precision and without fused
    multiply-add. *)
Definition double : Type := spec_float.

Definition prec : Z := 53.
Definition emax : Z := 1024.

Definition add (x y : double) : double := SFadd prec emax x y.
Definition sub (x y : double) : double := SFsub prec emax x y.
Definition mul (x y : double) : double := SFmul prec emax x y.
Definition div (x y : double) : double := SFdiv prec emax x y.

(** [x < y] and [x <= y]; both are false when an operand is a NaN. *)
Definition ltb (x y : double) : bool := SFltb x y.
Definition leb (x y : double) : bool := SFleb x y.

(** The conversion of an integer to [double]. *)
Definition of_Z (z : Z) : double := binary_normalize prec emax z 0 false.

Definition zero : double := S754_zero false.

(** The literals [1.0], [1.0e3] and [1.0e-6]; the last is the double
    nearest to a millionth, [0x1.0c6f7a0b5ed8dp-20]. *)
Definition one : double := of_Z 1.
Definition lit_1e3 : double := of_Z 1000.
Definition lit_1e_6 : double := S754_finite false 4722366482869645 (-72).

(** The number a finite double stands for. *)
Definition to_Q (x : double) : Q :=
  match x with
  | S754_finite s m e =>
      ((if s then -1 else 1) * inject_Z (Zpos m) * 2 ^ e)%Q
  | _ => 0%Q
  end.

End Double.

(** ** The integer set behind [key_state] *)

Module Intset.

(** Modelled from the spec: [intset.h] and [intset.c] are not among the
    source files.  The specification describes the structure as the set of
    currently pressed key codes, a presence map over key codes; it is taken
    here as a finite set of integers. *)
Definition intset : Type := gset Z.

Definition intset_init : intset := ∅.
Definition intset_is_set (self : intset) (value : Z) : bool :=
  bool_decide (value ∈ self).
Definition intset_set (self : intset) (value : Z) : intset := {[ value ]} ∪ self.
Definition intset_clear (self : intset) (value : Z) : intset := self ∖ {[ value ]}.

End Intset.

(** ** keyboard.c *)

Module Keyboard.
Import Intset.

(** [struct table_entry]: [xkb_keysym_t symbol; xkb_keycode_t code; int level]. *)
Record table_entry : Type := TableEntry {
  symbol : Z;
  code : Z;
  level : Z;
}.

#[export] Instance table_entry_eq_dec : EqDecision table_entry.
Proof. solve_decision. Defined.

(** The part of the xkbcommon keymap API the file calls.  A keymap answers,
    for a key code and a layout, the number of shift levels, and for a level
    the key symbols and the modifier masks that produce it.
    [xkb_keymap_key_for_each] visits the key codes from [min_key_code] to
    [max_key_code]. *)
Record xkb_keymap : Type := XkbKeymap {
  min_key_code : Z;
  max_key_code : Z;
  xkb_keymap_num_levels_for_key : Z -> Z -> nat;
  xkb_keymap_key_get_syms_by_level : Z -> Z -> nat -> list Z;
  xkb_keymap_key_get_mods_for_level : Z -> Z -> Z -> list Z;
}.

(** The key codes in the order [xkb_keymap_key_for_each] visits them. *)
Definition keymap_keys (map : xkb_keymap) : list Z :=
  List.map (fun i => min_key_code map + Z.of_nat i)
           (seq 0 (Z.to_nat (max_key_code map - min_key_code map + 1))).

(** Requests sent on the virtual keyboard. *)
Inductive vk_request : Type :=
| VkModifiers (depressed latched locked group : Z)
| VkKey (time key state : Z).

Definition WL_KEYBOARD_KEY_STATE_RELEASED : Z := 0.
Definition WL_KEYBOARD_KEY_STATE_PRESSED : Z := 1.

(** [struct keyboard].  [lookup_table] holds the entries
    [0 .. lookup_table_length); [lookup_table_size] is the allocated
    capacity.  [reallocs] is a ghost counter of the [realloc] calls made so
    far: it indexes the allocator's answers. *)
Record keyboard : Type := Kbd {
  keymap : xkb_keymap;
  lookup_table : list table_entry;
  lookup_table_size : Z;
  key_state : intset;
  reallocs : nat;
}.

Definition lookup_table_length (self : keyboard) : Z :=
  Z.of_nat (length (lookup_table self)).

(** The allocator: [heap n] says whether the [n]-th [realloc] succeeds. *)
Definition heap : Type := nat -> bool.

(** [append_entry].  When the table is full the capacity doubles; an entry
    whose [realloc] fails is dropped without a report.  The capacity is a
    [size_t] that stays far from its range. *)
Definition append_entry (h : heap) (self : keyboard)
    (symbol code level : Z) : keyboard :=
  let push (self : keyboard) :=
    {| keymap := keymap self;
       lookup_table := lookup_table self ++ [TableEntry symbol code level];
       lookup_table_size := lookup_table_size self;
       key_state := key_state self;
       reallocs := reallocs self |} in
  if lookup_table_size self <=? lookup_table_length self then
    let new_size := lookup_table_size self * 2 in
    let asked :=
      {| keymap := keymap self;
         lookup_table := lookup_table self;
         lookup_table_size := lookup_table_size self;
         key_state := key_state self;
         reallocs := S (reallocs self) |} in
    if h (reallocs self) then
      push {| keymap := keymap asked;
              lookup_table := lookup_table asked;
              lookup_table_size := new_size;
              key_state := key_state asked;
              reallocs := reallocs asked |}
    else asked
  else push self.

(** [key_iter]: every level of the key at layout 0, every symbol of the
    level.  The level counter is a [size_t] and is stored as an [int]. *)
Definition key_iter (h : heap) (map : xkb_keymap) (code : Z)
    (self : keyboard) : keyboard :=
  let n_levels := xkb_keymap_num_levels_for_key map code 0 in
  fold_left
    (fun self level =>
       let symbols := xkb_keymap_key_get_syms_by_level map code 0 level in
       fold_left
         (fun self sym => append_entry h self sym code (Z.of_nat level))
         symbols self)
    (seq 0 n_levels) self.

Definition compare_symbols (x y : table_entry) : Z :=
  if symbol x =? symbol y then
    if level x <? level y then -1 else Z.b2z (level x >? level y)
  else
    if symbol x <? symbol y then -1 else Z.b2z (symbol x >? symbol y).

Definition compare_symbols2 (x y : table_entry) : Z :=
  if symbol x <? symbol y then -1 else Z.b2z (symbol x >? symbol y).

(** What a call of libc's [qsort] and [bsearch] is allowed to assume. *)

(** The array is in ascending order for [compar]. *)
Definition ascending (compar : table_entry -> table_entry -> Z) :
    list table_entry -> Prop :=
  Sorted (fun x y => compar x y <= 0).

(** The array is partitioned for [key]: the elements that compare less
    than the key, then those equal to it, then those greater. *)
Definition partitioned (compar : table_entry -> table_entry -> Z)
    (key : table_entry) (base : list table_entry) : Prop :=
  forall i j x y,
    (i < j)%nat -> base !! i = Some x -> base !! j = Some y ->
    (compar key x <= 0 -> compar key y <= 0) /\
    (compar key x < 0 -> compar key y < 0).


(** The two libc routines the file calls, as an interface: [qsort] returns
    the rearranged array, [bsearch] the index of the element it points to
    ([None] for [NULL]). *)
Class Libc : Type := {
  qsort : list table_entry -> (table_entry -> table_entry -> Z) ->
          list table_entry;
  bsearch : table_entry -> list table_entry ->
            (table_entry -> table_entry -> Z) -> option nat;
}.

(** Their contract in the C standard, at the comparison functions of this
    file.  [qsort] rearranges the array into ascending order. *)
Class QsortSpec (L : Libc) : Prop := {
  qsort_permutation : forall base compar, Permutation (qsort base compar) base;
  qsort_ascending : forall base,
    ascending compare_symbols (qsort base compare_symbols);
}.

(** [bsearch], on an array partitioned for the key, returns an element
    that compares equal to the key when there is one, and [NULL]
    otherwise. *)
Class BsearchSpec (L : Libc) : Prop := {
  bsearch_found : forall key base i,
    partitioned compare_symbols2 key base ->
    bsearch key base compare_symbols2 = Some i ->
    exists e, base !! i = Some e /\ compare_symbols2 key e = 0;
  bsearch_missing : forall key base,
    partitioned compare_symbols2 key base ->
    bsearch key base compare_symbols2 = None ->
    forall e, e ∈ base -> compare_symbols2 key e <> 0;
}.

Definition set_lookup_table (self : keyboard) (table : list table_entry)
    (size : Z) : keyboard :=
  {| keymap := keymap self;
     lookup_table := table;
     lookup_table_size := size;
     key_state := key_state self;
     reallocs := reallocs self |}.

(** [create_lookup_table]; [malloc_ok] is the outcome of the [malloc].  The
    result is the return value and the structure as the call leaves it. *)
Definition create_lookup_table `{Libc} (malloc_ok : bool) (h : heap)
    (self : keyboard) : Z * keyboard :=
  let self := set_lookup_table self [] 128 in
  if negb malloc_ok then (-1, self)
  else
    let self :=
      fold_left (fun self code => key_iter h (keymap self) code self)
                (keymap_keys (keymap self)) self in
    let self :=
      set_lookup_table self (qsort (lookup_table self) compare_symbols)
                       (lookup_table_size self) in
    (0, self).

(** The loop of [keyboard_find_symbol]: step to the left while the entry
    before the current one carries the symbol. *)
Fixpoint walk_left (table : list table_entry) (sym : Z) (entry : nat) : nat :=
  match entry with
  | O => O
  | S prev =>
      match table !! prev with
      | Some e => if symbol e =? sym then walk_left table sym prev else entry
      | None => entry
      end
  end.

(** [keyboard_find_symbol]: the index of the entry returned, [None] for
    [NULL]. *)
Definition keyboard_find_symbol `{Libc} (self : keyboard) (sym : Z) :
    option nat :=
  let cmp := {| symbol := sym; code := 0; level := 0 |} in
  match bsearch cmp (lookup_table self) compare_symbols2 with
  | None => None
  | Some entry => Some (walk_left (lookup_table self) sym entry)
  end.

Definition set_key_state (self : keyboard) (ks : intset) : keyboard :=
  {| keymap := keymap self;
     lookup_table := lookup_table self;
     lookup_table_size := lookup_table_size self;
     key_state := ks;
     reallocs := reallocs self |}.

(** [xkb_keymap_key_get_mods_for_level] with room for one mask: [mods]
    keeps its initial 0 when the key has no mask for the level. *)
Definition mods_for_level (map : xkb_keymap) (code level : Z) : Z :=
  match xkb_keymap_key_get_mods_for_level map code 0 level with
  | [] => 0
  | mask :: _ => mask
  end.

(** [keyboard_feed]: the structure after the call and the requests sent on
    the virtual keyboard, in order.  Log lines are not recorded.  The entry
    is read through the index [keyboard_find_symbol] returns; an index
    outside the table, which no conforming [bsearch] yields, reads
    nothing. *)
Definition keyboard_feed `{Libc} (self : keyboard) (sym : Z)
    (is_pressed : bool) : keyboard * list vk_request :=
  match keyboard_find_symbol self sym with
  | None => (self, [])
  | Some idx =>
      match lookup_table self !! idx with
      | None => (self, [])
      | Some entry =>
          let mods := mods_for_level (keymap self) (code entry) (level entry) in
          let was_pressed := intset_is_set (key_state self) (code entry) in
          if Bool.eqb was_pressed is_pressed then (self, [])
          else
            let self :=
              set_key_state self
                (if is_pressed then intset_set (key_state self) (code entry)
                 else intset_clear (key_state self) (code entry)) in
            (self,
             [VkModifiers 0 mods 0 0;
              VkKey 0 (u32 (code entry - 8))
                    (if is_pressed then WL_KEYBOARD_KEY_STATE_PRESSED
                     else WL_KEYBOARD_KEY_STATE_RELEASED)])
      end
  end.

(** *** Reference routines

    One conforming implementation of each libc routine: a merge sort, and
    the binary search loop of the usual [bsearch] ([l], [u] and [idx] as
    there).  [fuel] bounds the iterations; the array length is enough. *)

Definition ref_qsort (base : list table_entry)
    (compar : table_entry -> table_entry -> Z) : list table_entry :=
  @merge_sort _ (fun x y => compar x y <= 0)
              (fun x y => decide (compar x y <= 0)) base.

Fixpoint bsearch_loop (fuel : nat) (key : table_entry)
    (base : list table_entry) (compar : table_entry -> table_entry -> Z)
    (l u : nat) : option nat :=
  match fuel with
  | O => None
  | S fuel =>
      if (l <? u)%nat then
        let idx := ((l + u) / 2)%nat in
        match base !! idx with
        | None => None
        | Some p =>
            let comparison := compar key p in
            if comparison <? 0 then bsearch_loop fuel key base compar l idx
            else if 0 <? comparison then
              bsearch_loop fuel key base compar (idx + 1) u
            else Some idx
        end
      else None
  end.

Definition ref_bsearch (key : table_entry) (base : list table_entry)
    (compar : table_entry -> table_entry -> Z) : option nat :=
  bsearch_loop (length base) key base compar 0 (length base).

Definition ref_libc : Libc := {| qsort := ref_qsort; bsearch := ref_bsearch |}.

(** *** Vocabulary of the statements *)

(** The [(symbol, code, level)] triples of the keymap at layout 0, one per
    symbol a level lists. *)
Definition key_triples (map : xkb_keymap) (code : Z) : list table_entry :=
  flat_map
    (fun level =>
       List.map (fun sym => TableEntry sym code (Z.of_nat level))
                (xkb_keymap_key_get_syms_by_level map code 0 level))
    (seq 0 (xkb_keymap_num_levels_for_key map code 0)).

Definition keymap_triples (map : xkb_keymap) : list table_entry :=
  flat_map (key_triples map) (keymap_keys map).

(** The triple [e] is present in the keymap at layout 0. *)
Definition triple_present (map : xkb_keymap) (e : table_entry) : Prop :=
  min_key_code map <= code e <= max_key_code map /\
  exists lv : nat,
    (lv < xkb_keymap_num_levels_for_key map (code e) 0)%nat /\
    level e = Z.of_nat lv /\
    In (symbol e) (xkb_keymap_key_get_syms_by_level map (code e) 0 lv).

(** No level of the keymap lists a symbol twice. *)
Definition levels_distinct (map : xkb_keymap) : Prop :=
  forall c lv, NoDup (xkb_keymap_key_get_syms_by_level map c 0 lv).

(** A keymap to run the definitions on.  Key 10 gives [1] and [!], key 24
    [q], [Q] and, on a third level, [a]; key 38 gives [a] and [A], key 39
    [s] and [S].  The second level is reached with Shift (mask 1), the
    third with mask 128. *)
Definition example_keymap : xkb_keymap :=
  {| min_key_code := 8;
     max_key_code := 40;
     xkb_keymap_num_levels_for_key :=
       fun c _ =>
         if c =? 24 then 3%nat
         else if (c =? 10) || (c =? 38) || (c =? 39) then 2%nat
         else 0%nat;
     xkb_keymap_key_get_syms_by_level :=
       fun c _ lv =>
         nth lv
           (if c =? 10 then [[49]; [33]]
            else if c =? 24 then [[113]; [81]; [97]]
            else if c =? 38 then [[97]; [65]]
            else if c =? 39 then [[115]; [83]]
            else []) [];
     xkb_keymap_key_get_mods_for_level :=
       fun c _ lv => if lv =? 0 then [0] else if lv =? 1 then [1] else [128] |}.

Definition example_keyboard : keyboard :=
  {| keymap := example_keymap;
     lookup_table := [];
     lookup_table_size := 0;
     key_state := intset_init;
     reallocs := 0 |}.

(** The example keyboard once [create_lookup_table] has run, with the
    reference routines and an allocator that never fails. *)
Definition example_ready : keyboard :=
  snd (@create_lookup_table ref_libc true (fun _ => true) example_keyboard).

(** The order [(symbol ASC, level ASC)]. *)
Definition entry_le (x y : table_entry) : Prop :=
  symbol x < symbol y \/ (symbol x = symbol y /\ level x <= level y).

(** The number of key events with state [state] among the requests. *)
Definition is_key_event (state : Z) (r : vk_request) : bool :=
  match r with
  | VkKey _ _ s => s =? state
  | VkModifiers _ _ _ _ => false
  end.

Definition count_key_events (state : Z) (reqs : list vk_request) : nat :=
  length (List.filter (is_key_event state) reqs).

End Keyboard.

(** ** The capture interface shared by the two back ends *)

Module FrameCapture.

(** Modelled from the spec: [frame-capture.h] is not among the source
    files.  The specification gives the status as the tagged state
    IN_PROGRESS, STOPPED, DONE, FAILED, FATAL and the handle as carrying
    [status], [damage_hint] and the per-frame [frame_info] (width, height,
    stride, fourcc); the back ends also read [overlay_cursor]. *)
Inductive frame_capture_status : Type :=
| CAPTURE_STOPPED
| CAPTURE_IN_PROGRESS
| CAPTURE_FAILED
| CAPTURE_FATAL
| CAPTURE_DONE.

#[export] Instance frame_capture_status_eq_dec : EqDecision frame_capture_status.
Proof. solve_decision. Defined.

Record rect : Type := Rect {
  rect_x : Z; rect_y : Z; rect_width : Z; rect_height : Z;
}.

Record info : Type := Info {
  fourcc_format : Z; info_width : Z; info_height : Z; info_stride : Z;
}.

Record frame_capture : Type := FrameCaptureOf {
  status : frame_capture_status;
  overlay_cursor : bool;
  frame_info : info;
  damage_hint : rect;
}.

Definition with_status (st : frame_capture_status) (fc : frame_capture) :
    frame_capture :=
  {| status := st; overlay_cursor := overlay_cursor fc;
     frame_info := frame_info fc; damage_hint := damage_hint fc |}.

Definition with_damage_hint (d : rect) (fc : frame_capture) : frame_capture :=
  {| status := status fc; overlay_cursor := overlay_cursor fc;
     frame_info := frame_info fc; damage_hint := d |}.

Definition with_frame_info (i : info) (fc : frame_capture) : frame_capture :=
  {| status := status fc; overlay_cursor := overlay_cursor fc;
     frame_info := i; damage_hint := damage_hint fc |}.

(** [RATE_LIMIT], in Hz: the literal [20.0]. *)
Definition RATE_LIMIT : Double.double := Double.of_Z 20.

(** Time stamps are [uint64_t] microseconds ([gettime_us]).
    [(now - last_time) * 1.0e-6]: the difference is taken on [uint64_t],
    converted to [double] and multiplied. *)
Definition elapsed_seconds (now last_time : Z) : Double.double :=
  Double.mul (Double.of_Z (u64 (now - last_time))) Double.lit_1e_6.

(** The one-shot timer of the event loop, as the back ends use it:
    [aml_set_duration] is handed the delay in milliseconds, a [double]
    where the back ends call it, and [duration] is the value handed over;
    [aml_start] arms the timer and fails with -1 when it is already
    started, [aml_stop] disarms it and fails with -1 when it is not
    started. *)
Record aml_timer : Type := AmlTimer {
  duration : Double.double;
  started : bool;
}.

Definition aml_set_duration (t : aml_timer) (value : Double.double) :
    aml_timer :=
  {| duration := value; started := started t |}.

Definition aml_start (t : aml_timer) : Z * aml_timer :=
  if started t then (-1, t) else (0, {| duration := duration t; started := true |}).

Definition aml_stop (t : aml_timer) : Z * aml_timer :=
  if started t then (0, {| duration := duration t; started := false |}) else (-1, t).

(** Handlers are commands over the state of a back end: they return a
    value and the state they leave. *)
Definition Cmd (S A : Type) : Type := S -> A * S.

Definition ret {S A : Type} (a : A) : Cmd S A := fun s => (a, s).
Definition bind {S A B : Type} (c : Cmd S A) (k : A -> Cmd S B) : Cmd S B :=
  fun s => let (a, s') := c s in k a s'.
Definition gets {S A : Type} (f : S -> A) : Cmd S A := fun s => (f s, s).
Definition modify {S : Type} (f : S -> S) : Cmd S unit := fun s => (tt, f s).
Definition exec {S A : Type} (c : Cmd S A) (s : S) : S := snd (c s).

End FrameCapture.

Declare Scope cmd_scope.
Delimit Scope cmd_scope with cmd.
Notation "'let*' x := c 'in' k" := (FrameCapture.bind c (fun x => k))
  (at level 10, x name, c at level 100, k at level 200) : cmd_scope.
Notation "c ;; k" := (FrameCapture.bind c (fun _ => k))
  (at level 100, k at level 200, right associativity) : cmd_scope.

(** ** dmabuf.c *)

Module Dmabuf.
Import FrameCapture.

(** [struct dmabuf_plane]. *)
Record dmabuf_plane : Type := Plane {
  fd : Z;
  offset : Z;
  size : Z;
  pitch : Z;
  modifier : Z;
}.

(** [struct dmabuf_frame]; [plane] is the array of four planes. *)
Record dmabuf_frame : Type := Frame {
  width : Z;
  height : Z;
  format : Z;
  n_planes : Z;
  plane : list dmabuf_plane;
}.

(** [struct dmabuf_capture]; [zwlr_frame] is the compositor's frame object
    ([None] for [NULL]). *)
Record dmabuf_capture : Type := Capture {
  fc : frame_capture;
  zwlr_frame : option Z;
  frame : dmabuf_frame;
  last_time : Z;
  timer : aml_timer;
}.

(** What a handler does outside the structure. *)
Inductive action : Type :=
| CaptureOutput (overlay_cursor : bool)
| FrameDestroy (frame : Z)
| Close (fd : Z) (was_open : bool)
| OnDone (st : frame_capture_status).

(** The back end in its process: the structure, the plane descriptors the
    process holds open, and the actions performed so far. *)
Record world : Type := World {
  self : dmabuf_capture;
  open_fds : gset Z;
  trace : list action;
}.

Definition ZWLR_EXPORT_DMABUF_FRAME_V1_CANCEL_REASON_TEMPORARY : Z := 0.
Definition ZWLR_EXPORT_DMABUF_FRAME_V1_CANCEL_REASON_PERMANENT : Z := 1.
Definition ZWLR_EXPORT_DMABUF_FRAME_V1_CANCEL_REASON_RESIZING : Z := 2.

Definition update (f : dmabuf_capture -> dmabuf_capture) : Cmd world unit :=
  modify (fun w => {| self := f (self w); open_fds := open_fds w;
                      trace := trace w |}).

Definition emit (a : action) : Cmd world unit :=
  modify (fun w => {| self := self w; open_fds := open_fds w;
                      trace := trace w ++ [a] |}).

Definition set_fc (f : frame_capture -> frame_capture) : Cmd world unit :=
  update (fun s => {| fc := f (fc s); zwlr_frame := zwlr_frame s;
                      frame := frame s; last_time := last_time s;
                      timer := timer s |}).

Definition set_zwlr_frame (fr : option Z) : Cmd world unit :=
  update (fun s => {| fc := fc s; zwlr_frame := fr; frame := frame s;
                      last_time := last_time s; timer := timer s |}).

Definition set_frame (f : dmabuf_frame -> dmabuf_frame) : Cmd world unit :=
  update (fun s => {| fc := fc s; zwlr_frame := zwlr_frame s;
                      frame := f (frame s); last_time := last_time s;
                      timer := timer s |}).

Definition set_last_time (t : Z) : Cmd world unit :=
  update (fun s => {| fc := fc s; zwlr_frame := zwlr_frame s;
                      frame := frame s; last_time := t; timer := timer s |}).

Definition set_timer (t : aml_timer) : Cmd world unit :=
  update (fun s => {| fc := fc s; zwlr_frame := zwlr_frame s;
                      frame := frame s; last_time := last_time s;
                      timer := t |}).

Definition timer_stop : Cmd world Z :=
  (let* t := gets (fun w => timer (self w)) in
   set_timer (snd (aml_stop t));; ret (fst (aml_stop t)))%cmd.

Definition timer_start (value : Double.double) : Cmd world Z :=
  (let* t := gets (fun w => timer (self w)) in
   set_timer (snd (aml_start (aml_set_duration t value)));;
   ret (fst (aml_start (aml_set_duration t value))))%cmd.

(** [close(fd)]: the descriptor leaves the open ones; the action records
    whether it was open. *)
Definition close (d : Z) : Cmd world unit :=
  fun w => (tt, {| self := self w; open_fds := open_fds w ∖ {[ d ]};
                   trace := trace w ++ [Close d (bool_decide (d ∈ open_fds w))] |}).

(** The continuation attached to the handle: it is handed the structure
    and may change it.  The trace records that it is called and the status
    it finds, not what it does on its own. *)
Definition callback : Type := dmabuf_capture -> dmabuf_capture.

Definition call_on_done (on_done : callback) : Cmd world unit :=
  (let* st := gets (fun w => status (fc (self w))) in
   emit (OnDone st);; update on_done)%cmd.

Definition zero_plane : dmabuf_plane :=
  {| fd := 0; offset := 0; size := 0; pitch := 0; modifier := 0 |}.

(** [plane[i]].  The array has four elements; the C code does not check
    the index, the model reads [zero_plane] and writes nothing outside
    it. *)
Definition plane_at (f : dmabuf_frame) (i : nat) : dmabuf_plane :=
  nth i (plane f) zero_plane.

Fixpoint close_planes (f : dmabuf_frame) (i : nat) (count : nat) :
    Cmd world unit :=
  match count with
  | O => ret tt
  | S count => (close (fd (plane_at f i));; close_planes f (S i) count)%cmd
  end.

Definition dmabuf_close_fds : Cmd world unit :=
  (let* f := gets (fun w => frame (self w)) in
   close_planes f 0 (Z.to_nat (n_planes f));;
   set_frame (fun f => {| width := width f; height := height f;
                          format := format f; n_planes := 0;
                          plane := plane f |}))%cmd.

Definition dmabuf_capture_stop : Cmd world unit :=
  (let* rc := timer_stop in
   (if 0 <=? rc then dmabuf_close_fds else ret tt);;
   set_fc (with_status CAPTURE_STOPPED);;
   let* fr := gets (fun w => zwlr_frame (self w)) in
   match fr with
   | Some f => emit (FrameDestroy f);; set_zwlr_frame None
   | None => ret tt
   end)%cmd.

Definition with_modifier (m : Z) (p : dmabuf_plane) : dmabuf_plane :=
  {| fd := fd p; offset := offset p; size := size p; pitch := pitch p;
     modifier := m |}.

Definition dmabuf_frame_start (width height offset_x offset_y buffer_flags
    flags format mod_high mod_low num_objects : Z) : Cmd world unit :=
  (timer_stop;;
   dmabuf_close_fds;;
   let modifier_bits := Z.lor (Z.shiftl mod_high 32) mod_low in
   set_frame (fun f => {| width := width; height := height; format := format;
                          n_planes := num_objects;
                          plane := List.map (with_modifier modifier_bits) (plane f) |});;
   set_fc (with_damage_hint (Rect 0 0 width height)))%cmd.

Definition dmabuf_frame_object (index d size offset stride plane_index : Z) :
    Cmd world unit :=
  (modify (fun w => {| self := self w; open_fds := {[ d ]} ∪ open_fds w;
                       trace := trace w |});;
   set_frame (fun f =>
     {| width := width f; height := height f; format := format f;
        n_planes := n_planes f;
        plane := <[ Z.to_nat plane_index :=
                    {| fd := d; offset := offset; size := size; pitch := stride;
                       modifier := modifier (plane_at f (Z.to_nat plane_index)) |} ]>
                 (plane f) |}))%cmd.

Definition dmabuf_timer_ready (on_done : callback) (now : Z) : Cmd world unit :=
  (let* st := gets (fun w => status (fc (self w))) in
   if decide (st = CAPTURE_IN_PROGRESS) then
     set_last_time now;;
     set_fc (with_status CAPTURE_DONE);;
     call_on_done on_done;;
     dmabuf_close_fds
   else ret tt)%cmd.

(** [dmabuf_capture_start]; [new_frame] is what the compositor's
    [capture_output] returns. *)
Definition dmabuf_capture_start (new_frame : option Z) : Cmd world Z :=
  (let* cursor := gets (fun w => overlay_cursor (fc (self w))) in
   emit (CaptureOutput cursor);;
   set_zwlr_frame new_frame;;
   match new_frame with
   | None => ret (-1)
   | Some _ => set_fc (with_status CAPTURE_IN_PROGRESS);; ret 0
   end)%cmd.

(** Modelled from the spec: [frame_capture_start] is declared in
    [frame-capture.h]; the externally exposed start simply forwards to the
    back end's [start], which [dmabuf_capture_init] sets to
    [dmabuf_capture_start]. *)
Definition frame_capture_start (new_frame : option Z) : Cmd world Z :=
  dmabuf_capture_start new_frame.

Definition dmabuf_frame_ready (on_done : callback) (now : Z)
    (new_frame : option Z) : Cmd world unit :=
  (dmabuf_capture_stop;;
   let* last := gets (fun w => last_time (self w)) in
   let dt := elapsed_seconds now last in
   let time_left :=
     Double.mul (Double.sub (Double.div Double.one RATE_LIMIT) dt)
                Double.lit_1e3 in
   if Double.leb Double.zero time_left then
     timer_start time_left;;
     frame_capture_start new_frame;;
     ret tt
   else
     set_last_time now;;
     set_fc (with_status CAPTURE_DONE);;
     call_on_done on_done;;
     dmabuf_close_fds)%cmd.

Definition dmabuf_frame_cancel (on_done : callback) (reason : Z) :
    Cmd world unit :=
  (dmabuf_capture_stop;;
   set_fc (with_status
             (if reason =? ZWLR_EXPORT_DMABUF_FRAME_V1_CANCEL_REASON_PERMANENT
              then CAPTURE_FATAL else CAPTURE_FAILED));;
   call_on_done on_done;;
   dmabuf_close_fds)%cmd.

(** The expiry of the timer in the event loop: a one-shot timer that is
    started is disarmed and its callback runs; nothing runs otherwise. *)
Definition timer_expires (on_done : callback) (now : Z) : Cmd world unit :=
  (let* t := gets (fun w => timer (self w)) in
   if started t then
     set_timer {| duration := duration t; started := false |};;
     dmabuf_timer_ready on_done now
   else ret tt)%cmd.

(** What reaches the back end: calls of its [start] and [stop], events of
    the export-dmabuf protocol, and the expiry of the timer. *)
Inductive event : Type :=
| Start (new_frame : option Z)
| Stop
| FrameEv (width height format mod_high mod_low num_objects : Z)
| ObjectEv (index d size offset stride plane_index : Z)
| ReadyEv (now : Z) (new_frame : option Z)
| CancelEv (reason : Z)
| TimerEv (now : Z).

Definition handle (on_done : callback) (ev : event) : Cmd world unit :=
  match ev with
  | Start new_frame => (dmabuf_capture_start new_frame;; ret tt)%cmd
  | Stop => dmabuf_capture_stop
  | FrameEv w h f mh ml n => dmabuf_frame_start w h 0 0 0 0 f mh ml n
  | ObjectEv i d sz off st pi => dmabuf_frame_object i d sz off st pi
  | ReadyEv now new_frame => dmabuf_frame_ready on_done now new_frame
  | CancelEv reason => dmabuf_frame_cancel on_done reason
  | TimerEv now => timer_expires on_done now
  end.

Definition run (on_done : callback) (evs : list event) (w : world) : world :=
  fold_left (fun w ev => exec (handle on_done ev) w) evs w.

(** Kinds of actions. *)
Definition is_close (a : action) : bool :=
  match a with Close _ _ => true | _ => false end.

Definition is_housekeeping (a : action) : bool :=
  match a with Close _ _ | FrameDestroy _ => true | _ => false end.

(** The structure after [dmabuf_capture_init] on zeroed memory. *)
Definition initial : world :=
  {| self := {| fc := {| status := CAPTURE_STOPPED; overlay_cursor := false;
                         frame_info := Info 0 0 0 0;
                         damage_hint := Rect 0 0 0 0 |};
                zwlr_frame := None;
                frame := {| width := 0; height := 0; format := 0; n_planes := 0;
                            plane := [zero_plane; zero_plane; zero_plane;
                                      zero_plane] |};
                last_time := 0;
                timer := {| duration := Double.zero; started := false |} |};
     open_fds := ∅;
     trace := [] |}.

(** Unfolds the primitive commands in a goal. *)
Ltac cmd_unfold :=
  cbv [bind ret gets modify update emit set_fc set_zwlr_frame set_frame
       set_last_time set_timer timer_stop timer_start call_on_done] in *;
  cbn [fst snd self trace open_fds fc zwlr_frame frame last_time timer] in *.

End Dmabuf.

(** ** screencopy.c *)

Module Screencopy.
Import FrameCapture.

Definition WL_SHM_FORMAT_ARGB8888 : Z := 0.
Definition WL_SHM_FORMAT_XRGB8888 : Z := 1.
Definition DRM_FORMAT_ARGB8888 : Z := 0x34325241.
Definition DRM_FORMAT_XRGB8888 : Z := 0x34325258.

Definition fourcc_from_wl_shm (fmt : Z) : Z :=
  if fmt =? WL_SHM_FORMAT_ARGB8888 then DRM_FORMAT_ARGB8888
  else if fmt =? WL_SHM_FORMAT_XRGB8888 then DRM_FORMAT_XRGB8888
  else fmt.

(** A [wl_buffer], known by the arguments of the
    [wl_shm_pool_create_buffer] request that created it. *)
Record wl_buffer : Type := WlBuffer {
  buf_width : Z;
  buf_height : Z;
  buf_stride : Z;
  buf_format : Z;
}.

#[export] Instance wl_buffer_eq_dec : EqDecision wl_buffer.
Proof. solve_decision. Defined.

(** [struct screencopy]; [buffer] and [frame] are [None] for [NULL]. *)
Record screencopy : Type := Screencopy {
  frame_capture : FrameCapture.frame_capture;
  buffer : option wl_buffer;
  pixels : Z;
  bufsize : Z;
  frame : option Z;
  last_time : Z;
  start_time : Z;
  timer : aml_timer;
  delay : Double.double;
}.

(** What a handler does outside the structure. *)
Inductive action : Type :=
| ShmAllocFd (size : Z)
| Mmap (size fd : Z)
| Munmap (addr size : Z)
| Close (fd : Z)
| ShmCreatePool (fd size : Z)
| PoolCreateBuffer (offset width height stride fmt : Z)
| PoolDestroy
| CaptureOutput (overlay_cursor : bool)
| FrameDestroy (frame : Z)
| CopyWithDamage (frame : option Z) (buffer : option wl_buffer)
| OnDone (st : frame_capture_status).

(** The requests that set up a pool: [shm_alloc_fd], [mmap],
    [wl_shm_create_pool], [wl_shm_pool_create_buffer]. *)
Definition is_pool_request (a : action) : bool :=
  match a with
  | ShmAllocFd _ | Mmap _ _ | ShmCreatePool _ _
  | PoolCreateBuffer _ _ _ _ _ => true
  | _ => false
  end.

Record world : Type := World {
  self : screencopy;
  trace : list action;
}.

(** [MAP_FAILED], the pointer [(void* ) -1] that [mmap] returns when it
    fails. *)
Definition MAP_FAILED : Z := -1.

(** What the operating system and the compositor answer to the requests of
    [screencopy_buffer_init]: the descriptor ([< 0] on failure), the pointer
    [mmap] returns (the mapped address, or [MAP_FAILED] on failure; 0 stands
    for [NULL], which the function tests for), whether a pool and a buffer
    come back. *)
Record shm_env : Type := ShmEnv {
  shm_alloc_fd : Z;
  mmap : Z;
  wl_shm_create_pool : bool;
  wl_shm_pool_create_buffer : bool;
}.

Definition update (f : screencopy -> screencopy) : Cmd world unit :=
  modify (fun w => {| self := f (self w); trace := trace w |}).

Definition emit (a : action) : Cmd world unit :=
  modify (fun w => {| self := self w; trace := trace w ++ [a] |}).

Definition set_fc (f : FrameCapture.frame_capture -> FrameCapture.frame_capture) :
    Cmd world unit :=
  update (fun s => {| frame_capture := f (frame_capture s); buffer := buffer s;
                      pixels := pixels s; bufsize := bufsize s;
                      frame := frame s; last_time := last_time s;
                      start_time := start_time s; timer := timer s;
                      delay := delay s |}).

Definition set_pool (b : wl_buffer) (addr size : Z) : Cmd world unit :=
  update (fun s => {| frame_capture := frame_capture s; buffer := Some b;
                      pixels := addr; bufsize := size;
                      frame := frame s; last_time := last_time s;
                      start_time := start_time s; timer := timer s;
                      delay := delay s |}).

Definition set_frame (fr : option Z) : Cmd world unit :=
  update (fun s => {| frame_capture := frame_capture s; buffer := buffer s;
                      pixels := pixels s; bufsize := bufsize s;
                      frame := fr; last_time := last_time s;
                      start_time := start_time s; timer := timer s;
                      delay := delay s |}).

Definition set_last_time (t : Z) : Cmd world unit :=
  update (fun s => {| frame_capture := frame_capture s; buffer := buffer s;
                      pixels := pixels s; bufsize := bufsize s;
                      frame := frame s; last_time := t;
                      start_time := start_time s; timer := timer s;
                      delay := delay s |}).

Definition set_start_time (t : Z) : Cmd world unit :=
  update (fun s => {| frame_capture := frame_capture s; buffer := buffer s;
                      pixels := pixels s; bufsize := bufsize s;
                      frame := frame s; last_time := last_time s;
                      start_time := t; timer := timer s;
                      delay := delay s |}).

Definition set_timer (t : aml_timer) : Cmd world unit :=
  update (fun s => {| frame_capture := frame_capture s; buffer := buffer s;
                      pixels := pixels s; bufsize := bufsize s;
                      frame := frame s; last_time := last_time s;
                      start_time := start_time s; timer := t;
                      delay := delay s |}).

Definition set_delay (d : Double.double) : Cmd world unit :=
  update (fun s => {| frame_capture := frame_capture s; buffer := buffer s;
                      pixels := pixels s; bufsize := bufsize s;
                      frame := frame s; last_time := last_time s;
                      start_time := start_time s; timer := timer s;
                      delay := d |}).

(** The continuation attached to the handle, as for the other back end. *)
Definition callback : Type := screencopy -> screencopy.

Definition call_on_done (on_done : callback) : Cmd world unit :=
  (let* st := gets (fun w => status (frame_capture (self w))) in
   emit (OnDone st);; update on_done)%cmd.

(** [screencopy_buffer_init].  [stride * height] is a product of
    [uint32_t]. *)
Definition screencopy_buffer_init (env : shm_env)
    (fmt width height stride : Z) : Cmd world Z :=
  (let* b := gets (fun w => buffer (self w)) in
   match b with
   | Some _ => ret 0
   | None =>
       let size := u32 (stride * height) in
       emit (ShmAllocFd size);;
       let d := shm_alloc_fd env in
       if d <? 0 then ret (-1)
       else
         emit (Mmap size d);;
         let addr := mmap env in
         if addr =? 0 then emit (Close d);; ret (-1)
         else
           emit (ShmCreatePool d (i32 size));;
           if negb (wl_shm_create_pool env) then
             emit (Munmap addr size);; emit (Close d);; ret (-1)
           else
             emit (PoolCreateBuffer 0 (i32 width) (i32 height) (i32 stride) fmt);;
             emit PoolDestroy;;
             if negb (wl_shm_pool_create_buffer env) then
               emit (Munmap addr size);; emit (Close d);; ret (-1)
             else
               set_pool (WlBuffer width height stride fmt) addr size;;
               emit (Close d);;
               ret 0
   end)%cmd.

Definition screencopy_stop : Cmd world unit :=
  (let* t := gets (fun w => timer (self w)) in
   set_timer (snd (aml_stop t));;
   let* fr := gets (fun w => frame (self w)) in
   match fr with
   | Some f => emit (FrameDestroy f);; set_frame None
   | None => ret tt
   end)%cmd.

Definition screencopy_buffer (on_done : callback) (env : shm_env)
    (fmt width height stride : Z) : Cmd world unit :=
  (let* rc := screencopy_buffer_init env fmt width height stride in
   (if rc <? 0 then
      set_fc (with_status CAPTURE_FATAL);;
      screencopy_stop;;
      call_on_done on_done
    else ret tt);;
   set_fc (with_frame_info
             (Info (fourcc_from_wl_shm fmt) width height stride));;
   let* fr := gets (fun w => frame (self w)) in
   let* b := gets (fun w => buffer (self w)) in
   emit (CopyWithDamage fr b))%cmd.

(** [screencopy_ready]; [now] is the clock reading and [smoothed] the
    value [smooth] returns for the measured delay. *)
Definition screencopy_ready (on_done : callback) (now : Z)
    (smoothed : Double.double) :
    Cmd world unit :=
  (screencopy_stop;;
   set_last_time now;;
   set_delay smoothed;;
   set_fc (with_status CAPTURE_DONE);;
   call_on_done on_done)%cmd.

Definition screencopy_failed (on_done : callback) : Cmd world unit :=
  (screencopy_stop;;
   set_fc (with_status CAPTURE_FAILED);;
   call_on_done on_done)%cmd.

Definition screencopy_damage (x y width height : Z) : Cmd world unit :=
  set_fc (with_damage_hint (Rect x y width height)).

(** [screencopy__start_capture]; [now] is the clock reading and
    [new_frame] what the compositor's [capture_output] returns. *)
Definition screencopy__start_capture (now : Z) (new_frame : option Z) :
    Cmd world Z :=
  (set_start_time now;;
   let* cursor := gets (fun w => overlay_cursor (frame_capture (self w))) in
   emit (CaptureOutput cursor);;
   set_frame new_frame;;
   match new_frame with
   | None => ret (-1)
   | Some _ => ret 0
   end)%cmd.

Definition screencopy__poll (now : Z) (new_frame : option Z) : Cmd world unit :=
  (screencopy__start_capture now new_frame;; ret tt)%cmd.

(** [time_left] of [screencopy_start], in milliseconds. *)
Definition time_left (now : Z) (s : screencopy) : Double.double :=
  Double.mul
    (Double.sub
       (Double.sub (Double.div Double.one RATE_LIMIT)
                   (elapsed_seconds now (last_time s)))
       (delay s))
    Double.lit_1e3.

(** [screencopy_start]; [now] is the clock reading of the function, and
    [now_capture] the one [screencopy__start_capture] takes when it is
    called at once. *)
Definition screencopy_start (now now_capture : Z) (new_frame : option Z) :
    Cmd world Z :=
  (let* st := gets (fun w => status (frame_capture (self w))) in
   if decide (st = CAPTURE_IN_PROGRESS) then ret (-1)
   else
     let* left := gets (fun w => time_left now (self w)) in
     set_fc (with_status CAPTURE_IN_PROGRESS);;
     if Double.ltb Double.zero left then
       let* t := gets (fun w => timer (self w)) in
       set_timer (snd (aml_start (aml_set_duration t left)));;
       ret (fst (aml_start (aml_set_duration t left)))
     else screencopy__start_capture now_capture new_frame)%cmd.

(** A time stamp in seconds. *)
Definition seconds (t : Z) : Q := (inject_Z t * (1 # 1000000))%Q.

(** [last_time + 1/RATE_LIMIT - delay], in seconds: the instant before
    which no capture request is to leave. *)
Definition release_bound (s : screencopy) : Q :=
  (seconds (last_time s) + 1 / 20 - Double.to_Q (delay s))%Q.

(** A [buffer] event of the screencopy protocol with the answers its
    handling gets. *)
Record buffer_event : Type := BufferEvent {
  ev_env : shm_env;
  ev_format : Z;
  ev_width : Z;
  ev_height : Z;
  ev_stride : Z;
}.

Definition handle_buffer (on_done : callback) (ev : buffer_event) :
    Cmd world unit :=
  screencopy_buffer on_done (ev_env ev) (ev_format ev) (ev_width ev)
                    (ev_height ev) (ev_stride ev).

Definition run_buffer_events (on_done : callback) (evs : list buffer_event)
    (w : world) : world :=
  fold_left (fun w ev => exec (handle_buffer on_done ev) w) evs w.

(** The tuple a buffer was created for. *)
Definition geometry (b : wl_buffer) : Z * Z * Z * Z :=
  (buf_width b, buf_height b, buf_stride b, buf_format b).

Definition ev_geometry (ev : buffer_event) : Z * Z * Z * Z :=
  (ev_width ev, ev_height ev, ev_stride ev, ev_format ev).

(** The pool is recreated whenever the advertised tuple differs from the
    one of the pooled buffer: what would hold if a buffer event with a new
    geometry, all of whose requests succeed, replaced the buffer. *)
Definition recreated_on_change (on_done : callback) : Prop :=
  forall (w : world) (b : wl_buffer) (fmt width height stride : Z),
    buffer (self w) = Some b ->
    geometry b <> (width, height, stride, fmt) ->
    buffer (self (exec (screencopy_buffer on_done
                          {| shm_alloc_fd := 7; mmap := 4096;
                             wl_shm_create_pool := true;
                             wl_shm_pool_create_buffer := true |}
                          fmt width height stride) w))
      = Some (WlBuffer width height stride fmt).

(** The structure after [screencopy_init] on zeroed memory, a capture
    under way on frame 1. *)
Definition capturing : world :=
  {| self := {| frame_capture :=
                  {| status := CAPTURE_IN_PROGRESS; overlay_cursor := false;
                     frame_info := Info 0 0 0 0;
                     damage_hint := Rect 0 0 0 0 |};
                buffer := None; pixels := 0; bufsize := 0;
                frame := Some 1; last_time := 0; start_time := 0;
                timer := {| duration := Double.zero; started := false |};
                delay := Double.zero |};
     trace := [] |}.

(** The back end between two captures: the last frame was ready at
    1 s, the smoothed delay is 6.8 ms. *)
Definition between_captures : world :=
  {| self := {| frame_capture :=
                  {| status := CAPTURE_DONE; overlay_cursor := false;
                     frame_info := Info 0 0 0 0;
                     damage_hint := Rect 0 0 0 0 |};
                buffer := None; pixels := 0; bufsize := 0;
                frame := None; last_time := 1000000; start_time := 940000;
                timer := {| duration := Double.zero; started := false |};
                delay := Double.div (Double.of_Z 68) (Double.of_Z 10000) |};
     trace := [] |}.

(** Answers of a system in which every request succeeds. *)
Definition env_ok : shm_env :=
  {| shm_alloc_fd := 7; mmap := 4096; wl_shm_create_pool := true;
     wl_shm_pool_create_buffer := true |}.

(** Unfolds the primitive commands in a goal. *)
Ltac cmd_unfold :=
  cbv [bind ret gets modify update emit set_fc set_pool set_frame
       set_last_time set_start_time set_timer set_delay call_on_done] in *;
  cbn [fst snd self trace frame_capture buffer pixels bufsize frame last_time
       start_time timer delay] in *.

End Screencopy.

(** ** keyboard.c: set-up and tear-down *)

Module KeyboardInit.
Import Intset Keyboard.

(** What one [write] call answers: the number of bytes written, or -1 with
    [errno] [EINTR], or -1 with another error. *)
Inductive write_outcome : Type :=
| WriteOk (n : Z)
| WriteEintr
| WriteError.

(** What [keyboard_init] asks of xkbcommon, the allocator, the operating
    system and the virtual keyboard, each call with its outcome. *)
Inductive action : Type :=
| XkbContextNew (ok : bool)
| XkbContextUnref
| IntsetInit (ok : bool)
| IntsetDestroy
| XkbKeymapNewFromNames (layout model variant : list Z) (ok : bool)
| XkbKeymapUnref
| LookupTableMalloc (ok : bool)
| LookupTableFree
| XkbKeymapGetAsString (ok : bool)
| StringFree
| ShmAllocFd (size fd : Z)
| Write (fd offset count : Z) (outcome : write_outcome)
| Close (fd : Z)
| VkKeymap (format fd size : Z).

Definition WL_KEYBOARD_KEYMAP_FORMAT_XKB_V1 : Z := 1.

(** The bytes of ["pc105"]. *)
Definition pc105 : list Z := [112; 99; 49; 48; 53].

(** The answers [keyboard_init] gets: whether a context and a key state
    set come back, the keymap compiled from the rule names, the outcome of
    the table's [malloc] and [realloc]s, the keymap as text (its bytes, the
    terminator left out), the descriptor ([< 0] on failure) and the
    outcomes of the successive [write] calls. *)
Record init_env : Type := InitEnv {
  xkb_context_new : bool;
  intset_init_ok : bool;
  xkb_keymap_new_from_names : option xkb_keymap;
  malloc_ok : bool;
  realloc_ok : heap;
  xkb_keymap_get_as_string : option (list Z);
  shm_alloc_fd : Z;
  writes : list write_outcome;
}.

(** The loop that writes the keymap text.  It runs while
    [written < keymap_size]; an interrupted call is repeated, an error
    leaves the loop.  [Some true] is the normal exit, [Some false] the
    jump to [write_failure]; [None] says that the loop is still running
    when the recorded outcomes are used up. *)
Fixpoint write_loop (outcomes : list write_outcome) (d size written : Z) :
    option bool * list action :=
  if written <? size then
    match outcomes with
    | [] => (None, [])
    | outcome :: outcomes =>
        let call := Write d written (size - written) outcome in
        match outcome with
        | WriteEintr =>
            let r := write_loop outcomes d size written in
            (fst r, call :: snd r)
        | WriteError => (Some false, [call])
        | WriteOk n =>
            let r := write_loop outcomes d size (u64 (written + n)) in
            (fst r, call :: snd r)
        end
    end
  else (Some true, []).

Definition set_keymap (self : keyboard) (map : xkb_keymap) : keyboard :=
  {| keymap := map;
     lookup_table := lookup_table self;
     lookup_table_size := lookup_table_size self;
     key_state := key_state self;
     reallocs := reallocs self |}.

(** [keyboard_init]: the return value ([None] while the write loop has not
    finished), the structure, and the calls made, in order. *)
Definition keyboard_init `{Libc} (env : init_env) (self : keyboard)
    (layout variant : list Z) : option Z * keyboard * list action :=
  if negb (xkb_context_new env) then
    (Some (-1), self, [XkbContextNew false])
  else if negb (intset_init_ok env) then
    (Some (-1), self,
     [XkbContextNew true; IntsetInit false; XkbContextUnref])
  else
    let self := set_key_state self intset_init in
    match xkb_keymap_new_from_names env with
    | None =>
        (Some (-1), self,
         [XkbContextNew true; IntsetInit true;
          XkbKeymapNewFromNames layout pc105 variant false;
          IntsetDestroy; XkbContextUnref])
    | Some map =>
        let self := set_keymap self map in
        let table := create_lookup_table (malloc_ok env) (realloc_ok env) self in
        let self := snd table in
        let begun :=
          [XkbContextNew true; IntsetInit true;
           XkbKeymapNewFromNames layout pc105 variant true;
           LookupTableMalloc (malloc_ok env)] in
        if fst table <? 0 then
          (Some (-1), self,
           begun ++ [XkbKeymapUnref; IntsetDestroy; XkbContextUnref])
        else
          match xkb_keymap_get_as_string env with
          | None =>
              (Some (-1), self,
               begun ++ [XkbKeymapGetAsString false; LookupTableFree;
                         XkbKeymapUnref; IntsetDestroy; XkbContextUnref])
          | Some text =>
              let keymap_size := u64 (Z.of_nat (length text) + 1) in
              let d := shm_alloc_fd env in
              let begun :=
                begun ++ [XkbKeymapGetAsString true; ShmAllocFd keymap_size d] in
              if d <? 0 then
                (Some (-1), self,
                 begun ++ [StringFree; LookupTableFree; XkbKeymapUnref;
                           IntsetDestroy; XkbContextUnref])
              else
                let written := write_loop (writes env) d keymap_size 0 in
                match fst written with
                | None => (None, self, begun ++ snd written)
                | Some false =>
                    (Some (-1), self,
                     begun ++ snd written ++
                     [Close d; StringFree; LookupTableFree; XkbKeymapUnref;
                      IntsetDestroy; XkbContextUnref])
                | Some true =>
                    (Some 0, self,
                     begun ++ snd written ++
                     [StringFree;
                      VkKeymap WL_KEYBOARD_KEYMAP_FORMAT_XKB_V1 d keymap_size;
                      Close d])
                end
          end
    end.

(** [keyboard_destroy]. *)
Definition keyboard_destroy : list action :=
  [LookupTableFree; XkbKeymapUnref; IntsetDestroy; XkbContextUnref].

(** What the calls acquire and release. *)
Inductive resource : Type :=
| Context
| KeyState
| Keymap
| LookupTable
| KeymapString
| Descriptor (fd : Z).

#[export] Instance resource_eq_dec : EqDecision resource.
Proof. solve_decision. Defined.

(** [held] without its first [r]; [None] when [r] is not held. *)
Fixpoint take_out (r : resource) (held : list resource) :
    option (list resource) :=
  match held with
  | [] => None
  | x :: held =>
      if decide (x = r) then Some held
      else match take_out r held with
           | Some rest => Some (x :: rest)
           | None => None
           end
  end.

(** The resources held after the calls [tr], starting from [held], the
    latest first; [None] when a call releases what is not held. *)
Fixpoint account (tr : list action) (held : list resource) :
    option (list resource) :=
  match tr with
  | [] => Some held
  | a :: tr =>
      let acquire r := account tr (r :: held) in
      let release r :=
        match take_out r held with
        | Some held => account tr held
        | None => None
        end in
      match a with
      | XkbContextNew true => acquire Context
      | IntsetInit true => acquire KeyState
      | XkbKeymapNewFromNames _ _ _ true => acquire Keymap
      | LookupTableMalloc true => acquire LookupTable
      | XkbKeymapGetAsString true => acquire KeymapString
      | ShmAllocFd _ d => if d <? 0 then account tr held else acquire (Descriptor d)
      | XkbContextUnref => release Context
      | IntsetDestroy => release KeyState
      | XkbKeymapUnref => release Keymap
      | LookupTableFree => release LookupTable
      | StringFree => release KeymapString
      | Close d => release (Descriptor d)
      | _ => account tr held
      end
  end.

(** The [write] calls behave: a successful call writes between 0 and
    [count] bytes. *)
Definition write_contract (a : action) : Prop :=
  match a with
  | Write _ _ count (WriteOk n) => 0 <= n <= count
  | _ => True
  end.

(** The bytes the [write] calls of a trace have written. *)
Fixpoint bytes_written (tr : list action) : Z :=
  match tr with
  | [] => 0
  | Write _ _ _ (WriteOk n) :: tr => n + bytes_written tr
  | _ :: tr => bytes_written tr
  end.

(** Every [write] call of the trace starts at the number of bytes written
    before it and asks for all that is left of [size]. *)
Fixpoint writes_contiguous (size written : Z) (tr : list action) : Prop :=
  match tr with
  | [] => True
  | Write _ offset count outcome :: tr =>
      offset = written /\ count = size - written /\
      writes_contiguous size
        (match outcome with WriteOk n => written + n | _ => written end) tr
  | _ :: tr => writes_contiguous size written tr
  end.

Definition is_vk_keymap (a : action) : bool :=
  match a with VkKeymap _ _ _ => true | _ => false end.

(** Answers with which every step succeeds; the text has 11 bytes and is
    written in three calls, one of them interrupted. *)
Definition env_ok : init_env :=
  {| xkb_context_new := true;
     intset_init_ok := true;
     xkb_keymap_new_from_names := Some example_keymap;
     malloc_ok := true;
     realloc_ok := fun _ => true;
     xkb_keymap_get_as_string :=
       Some [120; 107; 98; 95; 107; 101; 121; 109; 97; 112; 10];
     shm_alloc_fd := 9;
     writes := [WriteOk 8; WriteEintr; WriteOk 4] |}.

(** A keymap of 193 keys, codes 8 to 200, each with one level that gives
    one symbol, its own code: more entries than the first allocation of
    the table holds. *)
Definition wide_keymap : xkb_keymap :=
  {| min_key_code := 8;
     max_key_code := 200;
     xkb_keymap_num_levels_for_key := fun _ _ => 1%nat;
     xkb_keymap_key_get_syms_by_level := fun c _ _ => [c];
     xkb_keymap_key_get_mods_for_level := fun _ _ _ => [0] |}.

End KeyboardInit.

(** ** screencopy.c: the back end in the event loop *)

Module ScreencopyRun.
Import FrameCapture Screencopy.

(** What reaches the back end: calls of its [start] and [stop], the events
    of the screencopy protocol on its frame object, and the expiry of its
    timer.  Each carries the answers its handling gets. *)
Inductive event : Type :=
| Start (now now_capture : Z) (new_frame : option Z)
| Stop
| BufferEv (ev : buffer_event)
| DamageEv (x y width height : Z)
| ReadyEv (now : Z) (smoothed : Double.double)
| FailedEv
| TimerEv (now : Z) (new_frame : option Z).

(** The expiry of the timer in the event loop: a one-shot timer that is
    started is disarmed and its callback runs; nothing runs otherwise. *)
Definition timer_expires (now : Z) (new_frame : option Z) : Cmd world unit :=
  (let* t := gets (fun w => timer (self w)) in
   if started t then
     set_timer {| duration := duration t; started := false |};;
     screencopy__poll now new_frame
   else ret tt)%cmd.

Definition handle (on_done : callback) (ev : event) : Cmd world unit :=
  match ev with
  | Start now now_capture new_frame =>
      (screencopy_start now now_capture new_frame;; ret tt)%cmd
  | Stop => screencopy_stop
  | BufferEv ev => handle_buffer on_done ev
  | DamageEv x y width height => screencopy_damage x y width height
  | ReadyEv now smoothed => screencopy_ready on_done now smoothed
  | FailedEv => screencopy_failed on_done
  | TimerEv now new_frame => timer_expires now new_frame
  end.

Definition run (on_done : callback) (evs : list event) (w : world) : world :=
  fold_left (fun w ev => exec (handle on_done ev) w) evs w.

(** The structure after [screencopy_init] on zeroed memory. *)
Definition initial : world :=
  {| self := {| frame_capture :=
                  {| status := CAPTURE_STOPPED; overlay_cursor := false;
                     frame_info := Info 0 0 0 0;
                     damage_hint := Rect 0 0 0 0 |};
                buffer := None; pixels := 0; bufsize := 0;
                frame := None; last_time := 0; start_time := 0;
                timer := {| duration := Double.zero; started := false |};
                delay := Double.zero |};
     trace := [] |}.

(** The actions a handler adds to the trace of [w]. *)
Definition added (w w' : world) : list action :=
  drop (length (trace w)) (trace w').

(** Kinds of actions, and how many of a kind a list holds. *)
Definition is_close (a : action) : bool :=
  match a with Close _ => true | _ => false end.

Definition is_munmap (a : action) : bool :=
  match a with Munmap _ _ => true | _ => false end.

Definition is_capture_output (a : action) : bool :=
  match a with CaptureOutput _ => true | _ => false end.

Definition is_on_done (a : action) : bool :=
  match a with OnDone _ => true | _ => false end.

Definition count (p : action -> bool) (l : list action) : nat :=
  length (List.filter p l).

(** The continuation leaves the timer and the frame object alone. *)
Definition keeps_capture (on_done : callback) : Prop :=
  forall s, timer (on_done s) = timer s /\ frame (on_done s) = frame s.

(** The invariant of the back end: a pending timer and a live frame object
    exclude each other and occur only during a capture. *)
Definition single_flight (w : world) : Prop :=
  (started (timer (self w)) = true ->
   status (frame_capture (self w)) = CAPTURE_IN_PROGRESS /\
   frame (self w) = None) /\
  (frame (self w) <> None ->
   status (frame_capture (self w)) = CAPTURE_IN_PROGRESS).

(** The continuation leaves the status and what the rate limit is
    computed from alone. *)
Definition keeps_clock (on_done : callback) : Prop :=
  forall s, status (frame_capture (on_done s)) = status (frame_capture s) /\
            last_time (on_done s) = last_time s /\
            delay (on_done s) = delay s.

(** Calls of the interface and expiries of the timer, as opposed to events
    of the protocol. *)
Definition is_call (ev : event) : bool :=
  match ev with
  | Start _ _ _ | Stop | TimerEv _ _ => true
  | _ => false
  end.

(** Answers of a system in which the pool cannot be created. *)
Definition env_no_pool : shm_env :=
  {| shm_alloc_fd := 7; mmap := 4096; wl_shm_create_pool := false;
     wl_shm_pool_create_buffer := false |}.

End ScreencopyRun.

(** ** dmabuf.c: the descriptors over a run *)

Module DmabufRun.
Import FrameCapture Dmabuf.

(** The actions a handler adds to the trace of [w]. *)
Definition added (w w' : world) : list action :=
  drop (length (trace w)) (trace w').

(** The descriptors the frame counts as held: those of the first
    [n_planes] planes. *)
Definition held (f : dmabuf_frame) : list Z :=
  List.map fd (take (Z.to_nat (n_planes f)) (plane f)).

(** Closing the descriptors [ds] one after the other in a process that
    holds [open]: each close records whether its descriptor was open. *)
Fixpoint closes_of (open : gset Z) (ds : list Z) : list action :=
  match ds with
  | [] => []
  | d :: ds => Close d (bool_decide (d ∈ open)) :: closes_of (open ∖ {[ d ]}) ds
  end.

Definition is_on_done (a : action) : bool :=
  match a with OnDone _ => true | _ => false end.

Definition is_capture_output (a : action) : bool :=
  match a with CaptureOutput _ => true | _ => false end.

(** The continuation leaves the frame description alone. *)
Definition keeps_frame (on_done : callback) : Prop :=
  forall s, frame (on_done s) = frame s.

(** The object events of one frame: descriptor [i] of [ds] arrives for
    plane [i]. *)
Fixpoint object_events (i : nat) (ds : list Z) (size offset stride : Z) :
    list event :=
  match ds with
  | [] => []
  | d :: ds =>
      ObjectEv (Z.of_nat i) d size offset stride (Z.of_nat i)
      :: object_events (S i) ds size offset stride
  end.

(** [time_left] of [dmabuf_frame_ready], in milliseconds. *)
Definition time_left (now : Z) (s : dmabuf_capture) : Double.double :=
  Double.mul
    (Double.sub (Double.div Double.one RATE_LIMIT)
                (elapsed_seconds now (last_time s)))
    Double.lit_1e3.

End DmabufRun.

(** ** render.c *)

Module Render.

(** The names of the EGL attributes the renderer passes; [n] is the number
    of the plane in [EGL_DMA_BUF_PLANEn_..._EXT]. *)
Inductive egl_name : Type :=
| EGL_WIDTH
| EGL_HEIGHT
| EGL_LINUX_DRM_FOURCC_EXT
| EGL_DMA_BUF_PLANE_FD_EXT (n : nat)
| EGL_DMA_BUF_PLANE_OFFSET_EXT (n : nat)
| EGL_DMA_BUF_PLANE_PITCH_EXT (n : nat)
| EGL_DMA_BUF_PLANE_MODIFIER_LO_EXT (n : nat)
| EGL_DMA_BUF_PLANE_MODIFIER_HI_EXT (n : nat)
| EGL_NONE.

(** An element of an [EGLint] array: the name of an attribute or a
    value. *)
Inductive egl_int : Type :=
| Name (a : egl_name)
| Value (v : Z).

(** The conversion of an integer to [EGLint], a 32-bit signed integer. *)
Definition EGLint (v : Z) : Z := (v + 2 ^ 31) mod 2 ^ 32 - 2 ^ 31.

(** [dst[i] = v]; [None] when [i] is outside the array. *)
Definition store (dst : list egl_int) (i : nat) (v : egl_int) :
    option (list egl_int) :=
  if decide (i < length dst)%nat then Some (<[ i := v ]> dst) else None.

(** [append_attr]: the array and the index it advances. *)
Definition append_attr (st : list egl_int * nat) (name : egl_name) (value : Z) :
    option (list egl_int * nat) :=
  dst ← store (fst st) (snd st) (Name name);
  dst ← store dst (snd st + 1) (Value (EGLint value));
  Some (dst, (snd st + 2)%nat).

(** The macro [APPEND_PLANE_ATTR(n)]; [rest] is what follows it in
    [dmabuf_attr_append_planes], skipped by its [return]. *)
Definition APPEND_PLANE_ATTR (n : nat) (frame : Dmabuf.dmabuf_frame)
    (rest : list egl_int * nat -> option (list egl_int * nat))
    (st : list egl_int * nat) : option (list egl_int * nat) :=
  if Dmabuf.n_planes frame <=? Z.of_nat n then Some st
  else
    let p := Dmabuf.plane_at frame n in
    st ← append_attr st (EGL_DMA_BUF_PLANE_FD_EXT n) (Dmabuf.fd p);
    st ← append_attr st (EGL_DMA_BUF_PLANE_OFFSET_EXT n) (Dmabuf.offset p);
    st ← append_attr st (EGL_DMA_BUF_PLANE_PITCH_EXT n) (Dmabuf.pitch p);
    st ← append_attr st (EGL_DMA_BUF_PLANE_MODIFIER_LO_EXT n) (Dmabuf.modifier p);
    st ← append_attr st (EGL_DMA_BUF_PLANE_MODIFIER_HI_EXT n)
           (Z.shiftr (Dmabuf.modifier p) 32);
    rest st.

Definition dmabuf_attr_append_planes (frame : Dmabuf.dmabuf_frame) :
    list egl_int * nat -> option (list egl_int * nat) :=
  APPEND_PLANE_ATTR 0 frame
    (APPEND_PLANE_ATTR 1 frame
       (APPEND_PLANE_ATTR 2 frame
          (APPEND_PLANE_ATTR 3 frame Some))).

(** The length of [attr] in [render_dmabuf_frame]. *)
Definition ATTR_LENGTH : nat := 6 + 10 * 4 + 1.

(** The attribute array [render_dmabuf_frame] fills before it creates the
    image, from the uninitialised array [attr0], and the index after the
    terminator. *)
Definition dmabuf_frame_attr (attr0 : list egl_int)
    (frame : Dmabuf.dmabuf_frame) : option (list egl_int * nat) :=
  st ← append_attr (attr0, 0%nat) EGL_WIDTH (Dmabuf.width frame);
  st ← append_attr st EGL_HEIGHT (Dmabuf.height frame);
  st ← append_attr st EGL_LINUX_DRM_FOURCC_EXT (Dmabuf.format frame);
  st ← dmabuf_attr_append_planes frame st;
  dst ← store (fst st) (snd st) (Name EGL_NONE);
  Some (dst, S (snd st)).

Inductive texture_target : Type := GL_TEXTURE_2D | GL_TEXTURE_EXTERNAL_OES.

Inductive shader_type : Type := GL_VERTEX_SHADER | GL_FRAGMENT_SHADER.

Inductive shader_source : Type :=
| dmabuf_vertex_src | dmabuf_fragment_src
| texture_vertex_src | texture_fragment_src.

(** A [pixman_region16] as the boxes united into it; a box holds the points
    [x1 <= x < x2], [y1 <= y < y2]. *)
Inductive pixman_box : Type := Box (x1 y1 x2 y2 : Z).

Definition pixman_region16 : Type := list pixman_box.

Definition pixman_region_union_rect (source : pixman_region16)
    (x y width height : Z) : pixman_region16 :=
  source ++ [Box x y (x + width) (y + height)].

Definition box_contains_point (b : pixman_box) (x y : Z) : bool :=
  match b with
  | Box x1 y1 x2 y2 => (x1 <=? x) && (x <? x2) && (y1 <=? y) && (y <? y2)
  end.

Definition pixman_region_contains_point (region : pixman_region16) (x y : Z) :
    bool :=
  existsb (fun b => box_contains_point b x y) region.

(** The fields of [struct renderer] the functions below use. *)
Record renderer : Type := Renderer {
  width : Z;
  height : Z;
  read_format : Z;
  read_type : Z;
  dmabuf_shader_program : Z;
  texture_shader_program : Z;
  damage_shader_program : Z;
  last_texture : Z;
  current_damage : pixman_region16;
}.

(** The calls into GL and EGL. *)
Inductive gl_call : Type :=
| EglCreateImageKHR (attr : list egl_int)
| EglDestroyImageKHR (image : Z)
| GlGenTextures (tex : Z)
| GlDeleteTextures (tex : Z)
| GlActiveTexture (unit : Z)
| GlBindTexture (target : texture_target) (tex : Z)
| GlEGLImageTargetTexture2DOES (target : texture_target) (image : Z)
| GlUseProgram (program : Z)
| GlViewport (x y width height : Z)
| GlClear
| GlDrawArrays
| GlPixelStoreiUnpackRowLength (value : Z)
| GlTexImage2D (internal_format width height : Z) (addr : Z)
| GlGenerateMipmap
| GlReadPixels (x y width height : Z)
| GlCreateShader (type : shader_type) (shader : Z)
| GlShaderSource (shader : Z) (source : shader_source)
| GlCompileShader (shader : Z)
| GlDeleteShader (shader : Z)
| GlCreateProgram (program : Z)
| GlAttachShader (program shader : Z)
| GlBindAttribLocation (program index : Z)
| GlLinkProgram (program : Z)
| GlDeleteProgram (program : Z)
| EglDestroySurface
| EglDestroyContext
| EglTerminate.

(** The renderer in its GL context: the structure, the texture names that
    are generated and not deleted, and the calls made so far. *)
Record world : Type := World {
  self : renderer;
  textures : gset Z;
  trace : list gl_call;
}.

Definition emit (c : gl_call) (w : world) : world :=
  {| self := self w; textures := textures w; trace := trace w ++ [c] |}.

(** [glGenTextures(1, &tex)], the driver answering [tex]. *)
Definition glGenTextures (tex : Z) (w : world) : world :=
  {| self := self w; textures := {[ tex ]} ∪ textures w;
     trace := trace w ++ [GlGenTextures tex] |}.

Definition glDeleteTextures (tex : Z) (w : world) : world :=
  {| self := self w; textures := textures w ∖ {[ tex ]};
     trace := trace w ++ [GlDeleteTextures tex] |}.

Definition set_last_texture (tex : Z) (w : world) : world :=
  {| self := {| width := width (self w); height := height (self w);
                read_format := read_format (self w);
                read_type := read_type (self w);
                dmabuf_shader_program := dmabuf_shader_program (self w);
                texture_shader_program := texture_shader_program (self w);
                damage_shader_program := damage_shader_program (self w);
                last_texture := tex;
                current_damage := current_damage (self w) |};
     textures := textures w; trace := trace w |}.

Definition set_current_damage (damage : pixman_region16) (w : world) : world :=
  {| self := {| width := width (self w); height := height (self w);
                read_format := read_format (self w);
                read_type := read_type (self w);
                dmabuf_shader_program := dmabuf_shader_program (self w);
                texture_shader_program := texture_shader_program (self w);
                damage_shader_program := damage_shader_program (self w);
                last_texture := last_texture (self w);
                current_damage := damage |};
     textures := textures w; trace := trace w |}.

Definition GL_BGRA_EXT : Z := 32993.

(** [gl_format_from_wl_shm]: the return value and [*result]. *)
Definition gl_format_from_wl_shm (format : Z) : Z * Z := (0, GL_BGRA_EXT).

Definition gl_clear (w : world) : world := emit GlClear w.

(** [gl_render]: the clear and the draw; the set-up of the two constant
    vertex arrays around the draw is left out. *)
Definition gl_render (w : world) : world := emit GlDrawArrays (gl_clear w).

(** The part [render_dmabuf_frame] and [render_framebuffer] share: the texture
    of the previous frame is deleted and the new one kept. *)
Definition keep_texture (tex : Z) (w : world) : world :=
  let w := if last_texture (self w) =? 0 then w
           else glDeleteTextures (last_texture (self w)) w in
  set_last_texture tex w.

(** [render_dmabuf_frame]; [attr0] is the uninitialised array, [image] what
    [eglCreateImageKHR] returns (0 for no image) and [tex] the name
    [glGenTextures] answers.  [None] stands for a write outside [attr]. *)
Definition render_dmabuf_frame (attr0 : list egl_int) (image tex : Z)
    (frame : Dmabuf.dmabuf_frame) (w : world) : option (Z * world) :=
  if Dmabuf.n_planes frame =? 0 then Some (-1, w)
  else
    st ← dmabuf_frame_attr attr0 frame;
    let w := emit (EglCreateImageKHR (take (snd st) (fst st))) w in
    if image =? 0 then Some (-1, w)
    else
      let w := glGenTextures tex w in
      let w := emit (GlActiveTexture 0) w in
      let w := emit (GlBindTexture GL_TEXTURE_EXTERNAL_OES tex) w in
      let w := emit (GlEGLImageTargetTexture2DOES GL_TEXTURE_EXTERNAL_OES image) w in
      let w := emit (GlUseProgram (dmabuf_shader_program (self w))) w in
      let w := emit (GlViewport 0 0 (i32 (width (self w)))
                                (i32 (height (self w)))) w in
      let w := gl_render w in
      let w := keep_texture tex w in
      let w := emit (GlBindTexture GL_TEXTURE_2D 0) w in
      let w := emit (EglDestroyImageKHR image) w in
      Some (0, w).

(** One cell of the loop of [render_check_damage]. *)
Definition damage_cell (buffer : list Z) (width y x : nat)
    (damage : pixman_region16) : pixman_region16 :=
  if nth (y * width + x) buffer 0 =? 0 then damage
  else pixman_region_union_rect damage (Z.of_nat x * 32) (Z.of_nat y * 32) 32 32.

Definition damage_row (buffer : list Z) (width y : nat)
    (damage : pixman_region16) : pixman_region16 :=
  fold_left (fun d x => damage_cell buffer width y x d) (seq 0 width) damage.

Definition damage_rows (buffer : list Z) (width height : nat)
    (damage : pixman_region16) : pixman_region16 :=
  fold_left (fun d y => damage_row buffer width y d) (seq 0 height) damage.

(** [render_check_damage]; [malloc_ok] tells whether [malloc] returns a
    buffer and [pixels] is what [glReadPixels] stores in it, one word per
    pixel. *)
Definition render_check_damage (malloc_ok : bool) (pixels : list Z)
    (target : texture_target) (tex : Z) (w : world) : world :=
  let w := emit (GlActiveTexture 0) w in
  let w := emit (GlBindTexture target tex) w in
  let w := emit (GlActiveTexture 1) w in
  let w := emit (GlBindTexture target (last_texture (self w))) w in
  let w := emit (GlUseProgram (damage_shader_program (self w))) w in
  let width' := width (self w) / 32 in
  let height' := height (self w) / 32 in
  if negb malloc_ok then w
  else
    let w := emit (GlViewport 0 0 width' height') w in
    let w := gl_render w in
    let w := emit (GlReadPixels 0 0 width' height') w in
    set_current_damage
      (damage_rows pixels (Z.to_nat width') (Z.to_nat height') []) w.

(** [render_framebuffer], with the answers of [render_check_damage]. *)
Definition render_framebuffer (tex : Z) (malloc_ok : bool) (pixels : list Z)
    (addr format width' height' stride : Z) (w : world) : Z * world :=
  let w := glGenTextures tex w in
  let w := emit (GlActiveTexture 0) w in
  let w := emit (GlBindTexture GL_TEXTURE_2D tex) w in
  if fst (gl_format_from_wl_shm format) <? 0 then (-1, w)
  else
    let w := emit (GlPixelStoreiUnpackRowLength (stride / 4)) w in
    let w := emit (GlTexImage2D (read_format (self w)) (i32 width')
                                (i32 height') addr) w in
    let w := emit GlGenerateMipmap w in
    let w := emit (GlPixelStoreiUnpackRowLength 0) w in
    let w := render_check_damage malloc_ok pixels GL_TEXTURE_2D tex w in
    let w := emit (GlUseProgram (texture_shader_program (self w))) w in
    let w := emit (GlViewport 0 0 (i32 (width (self w)))
                              (i32 (height (self w)))) w in
    let w := gl_render w in
    let w := keep_texture tex w in
    let w := emit (GlBindTexture GL_TEXTURE_2D 0) w in
    (0, w).

(** [render_copy_pixels].  [ndebug] tells whether the file is compiled
    with [NDEBUG], which removes the assertion; [y + height] is a sum of
    [uint32_t], and [None] stands for the failed assertion.  [glReadPixels]
    takes [y] as [GLint] and the width and the height as [GLsizei]. *)
Definition render_copy_pixels (ndebug : bool) (y height' : Z) (w : world) :
    option world :=
  if ndebug || (u32 (y + height') <=? height (self w)) then
    Some (emit (GlReadPixels 0 (i32 y) (i32 (width (self w))) (i32 height')) w)
  else None.

(** [renderer_destroy]. *)
Definition renderer_destroy (w : world) : world :=
  let w := if last_texture (self w) =? 0 then w
           else glDeleteTextures (last_texture (self w)) w in
  let w := emit (GlDeleteProgram (dmabuf_shader_program (self w))) w in
  let w := emit (GlDeleteProgram (texture_shader_program (self w))) w in
  let w := emit EglDestroySurface w in
  let w := emit EglDestroyContext w in
  let w := emit EglTerminate w in
  set_current_damage [] w.

(** [gl_load_shader]; [shader] is the name [glCreateShader] answers and
    [error] whether [glGetError] reports one.  The result is the value
    returned, the shader stored through [dst] if any, and the calls. *)
Definition gl_load_shader (shader : Z) (error : bool) (source : shader_source)
    (type : shader_type) : Z * option Z * list gl_call :=
  let calls := [GlCreateShader type shader; GlShaderSource shader source;
                GlCompileShader shader] in
  if error then (-1, None, calls ++ [GlDeleteShader shader])
  else (0, Some shader, calls).

(** [gl_compile_shader_program]; [vertex], [fragment] and [program] are the
    names the driver answers, and the three flags the errors [glGetError]
    reports after the two compilations and the link. *)
Definition gl_compile_shader_program (vertex fragment program : Z)
    (vertex_error fragment_error link_error : bool)
    (vertex_src fragment_src : shader_source) : Z * option Z * list gl_call :=
  let '(rc1, _, calls1) :=
    gl_load_shader vertex vertex_error vertex_src GL_VERTEX_SHADER in
  if rc1 <? 0 then (-1, None, calls1)
  else
    let '(rc2, _, calls2) :=
      gl_load_shader fragment fragment_error fragment_src GL_FRAGMENT_SHADER in
    if rc2 <? 0 then (-1, None, calls1 ++ calls2 ++ [GlDeleteShader vertex])
    else
      let link := [GlCreateProgram program; GlAttachShader program vertex;
                   GlAttachShader program fragment;
                   GlBindAttribLocation program 0;
                   GlBindAttribLocation program 1; GlLinkProgram program;
                   GlDeleteShader vertex; GlDeleteShader fragment] in
      let cleanup := [GlDeleteShader fragment; GlDeleteShader vertex] in
      if link_error then
        (-1, None, calls1 ++ calls2 ++ link ++ [GlDeleteProgram program] ++ cleanup)
      else (0, Some program, calls1 ++ calls2 ++ link ++ cleanup).

(** What the renderer is asked to draw, with the answers it gets. *)
Inductive event : Type :=
| DmabufFrame (attr0 : list egl_int) (image tex : Z)
              (frame : Dmabuf.dmabuf_frame)
| Framebuffer (tex : Z) (malloc_ok : bool) (pixels : list Z)
              (addr format width' height' stride : Z).

Definition handle (ev : event) (w : world) : option world :=
  match ev with
  | DmabufFrame attr0 image tex frame =>
      snd <$> render_dmabuf_frame attr0 image tex frame w
  | Framebuffer tex malloc_ok pixels addr format width' height' stride =>
      Some (snd (render_framebuffer tex malloc_ok pixels addr format width'
                   height' stride w))
  end.

Fixpoint run (evs : list event) (w : world) : option world :=
  match evs with
  | [] => Some w
  | ev :: evs => w ← handle ev w; run evs w
  end.

(** The answers an event carries are those of a conforming system: the
    attribute array has the declared length, the frame its four planes, and
    the texture name is a new one. *)
Definition well_answered (ev : event) (w : world) : Prop :=
  match ev with
  | DmabufFrame attr0 image tex frame =>
      length attr0 = ATTR_LENGTH /\
      length (Dmabuf.plane frame) = 4%nat /\
      0 <= Dmabuf.n_planes frame /\
      tex <> 0 /\ tex ∉ textures w
  | Framebuffer tex _ _ _ _ _ _ _ => tex <> 0 /\ tex ∉ textures w
  end.

Fixpoint all_well_answered (evs : list event) (w : world) : Prop :=
  match evs with
  | [] => True
  | ev :: evs =>
      well_answered ev w /\
      match handle ev w with
      | Some w' => all_well_answered evs w'
      | None => True
      end
  end.

(** The textures that exist are the one the renderer remembers. *)
Definition one_texture (w : world) : Prop :=
  textures w = if last_texture (self w) =? 0 then ∅
               else {[ last_texture (self w) ]}.

(** A renderer of 64 by 64 pixels that has drawn nothing yet, and a frame
    of two planes. *)
Definition example_renderer : world :=
  {| self := {| width := 64; height := 64; read_format := 6408;
                read_type := 5121; dmabuf_shader_program := 1;
                texture_shader_program := 2; damage_shader_program := 0;
                last_texture := 0; current_damage := [] |};
     textures := ∅;
     trace := [] |}.

Definition example_frame : Dmabuf.dmabuf_frame :=
  {| Dmabuf.width := 640; Dmabuf.height := 480; Dmabuf.format := 875713112;
     Dmabuf.n_planes := 2;
     Dmabuf.plane := [Dmabuf.Plane 5 0 100 2560 72057594037927937;
                      Dmabuf.Plane 6 1024 100 2560 72057594037927937;
                      Dmabuf.zero_plane; Dmabuf.zero_plane] |}.

(** The attributes of plane [n]. *)
Definition plane_attr (n : nat) (p : Dmabuf.dmabuf_plane) : list egl_int :=
  [Name (EGL_DMA_BUF_PLANE_FD_EXT n); Value (EGLint (Dmabuf.fd p));
   Name (EGL_DMA_BUF_PLANE_OFFSET_EXT n); Value (EGLint (Dmabuf.offset p));
   Name (EGL_DMA_BUF_PLANE_PITCH_EXT n); Value (EGLint (Dmabuf.pitch p));
   Name (EGL_DMA_BUF_PLANE_MODIFIER_LO_EXT n);
   Value (EGLint (Dmabuf.modifier p));
   Name (EGL_DMA_BUF_PLANE_MODIFIER_HI_EXT n);
   Value (EGLint (Z.shiftr (Dmabuf.modifier p) 32))].

Fixpoint planes_attr (n : nat) (planes : list Dmabuf.dmabuf_plane) :
    list egl_int :=
  match planes with
  | [] => []
  | p :: planes => plane_attr n p ++ planes_attr (S n) planes
  end.

(** The attribute list of a frame, as EGL reads it. *)
Definition frame_attr (frame : Dmabuf.dmabuf_frame) : list egl_int :=
  [Name EGL_WIDTH; Value (EGLint (Dmabuf.width frame));
   Name EGL_HEIGHT; Value (EGLint (Dmabuf.height frame));
   Name EGL_LINUX_DRM_FOURCC_EXT; Value (EGLint (Dmabuf.format frame))] ++
  planes_attr 0 (take (Z.to_nat (Dmabuf.n_planes frame)) (Dmabuf.plane frame)) ++
  [Name EGL_NONE].

(** The array [fst st] is [attr0] with the elements before the index
    [snd st] written, and these are [written]. *)
Definition filled (attr0 written : list egl_int) (st : list egl_int * nat) :
    Prop :=
  length (fst st) = length attr0 /\
  snd st = length written /\
  take (snd st) (fst st) = written /\
  drop (snd st) (fst st) = drop (snd st) attr0.

Definition count_calls (p : gl_call -> bool) (l : list gl_call) : nat :=
  length (List.filter p l).

Definition deletes_shader (shader : Z) (c : gl_call) : bool :=
  match c with GlDeleteShader s => s =? shader | _ => false end.

Definition deletes_program (program : Z) (c : gl_call) : bool :=
  match c with GlDeleteProgram s => s =? program | _ => false end.

End Render.

(** * Properties *)

Module KeyboardProofs.
Import Intset Keyboard.

(** ** The comparison functions *)

Lemma compare_symbols_le x y : compare_symbols x y <= 0 <-> entry_le x y.
Proof.
  unfold compare_symbols, entry_le.
  destruct (Z.eqb_spec (symbol x) (symbol y)) as [E|E].
  - destruct (Z.ltb_spec (level x) (level y)); [lia|].
    destruct (Z.gtb_spec (level x) (level y)); simpl; lia.
  - destruct (Z.ltb_spec (symbol x) (symbol y)); [lia|].
    destruct (Z.gtb_spec (symbol x) (symbol y)); simpl; lia.
Qed.

Lemma compare_symbols2_zero x y : compare_symbols2 x y = 0 <-> symbol x = symbol y.
Proof.
  unfold compare_symbols2.
  destruct (Z.ltb_spec (symbol x) (symbol y)); [lia|].
  destruct (Z.gtb_spec (symbol x) (symbol y)); simpl; lia.
Qed.

Lemma compare_symbols2_neg x y : compare_symbols2 x y < 0 <-> symbol x < symbol y.
Proof.
  unfold compare_symbols2.
  destruct (Z.ltb_spec (symbol x) (symbol y)); [lia|].
  destruct (Z.gtb_spec (symbol x) (symbol y)); simpl; lia.
Qed.

Lemma compare_symbols2_pos x y : 0 < compare_symbols2 x y <-> symbol y < symbol x.
Proof.
  unfold compare_symbols2.
  destruct (Z.ltb_spec (symbol x) (symbol y)); [lia|].
  destruct (Z.gtb_spec (symbol x) (symbol y)); simpl; lia.
Qed.

#[local] Instance entry_le_trans : Transitive entry_le.
Proof. intros x y z; unfold entry_le; lia. Qed.

#[local] Instance entry_le_total : Total entry_le.
Proof. intros x y; unfold entry_le; lia. Qed.

Lemma ascending_entry_le table :
  ascending compare_symbols table -> StronglySorted entry_le table.
Proof.
  intros Hs. apply Sorted_StronglySorted; [apply _|].
  unfold ascending in Hs.
  induction Hs as [|x l Hl IH Hhd]; constructor; auto.
  destruct Hhd; constructor. by apply compare_symbols_le.
Qed.

(** ** Sorted tables *)

Lemma StronglySorted_lookup (table : list table_entry) i j x y :
  StronglySorted entry_le table -> (i < j)%nat ->
  table !! i = Some x -> table !! j = Some y -> entry_le x y.
Proof.
  intros Hs. revert i j.
  induction Hs as [|a l Hl IH Ha]; intros i j Hij Hi Hj; [done|].
  destruct j as [|j]; [lia|]. simpl in Hj.
  destruct i as [|i]; simpl in Hi.
  - injection Hi as <-. rewrite Forall_forall in Ha.
    apply Ha. by eapply list_elem_of_lookup_2.
  - apply (IH i j); [lia|done..].
Qed.

Lemma sorted_partitioned (table : list table_entry) key :
  StronglySorted entry_le table -> partitioned compare_symbols2 key table.
Proof.
  intros Hs i j x y Hij Hi Hj.
  pose proof (StronglySorted_lookup table i j x y Hs Hij Hi Hj) as Hle.
  assert (symbol x <= symbol y) by (unfold entry_le in Hle; lia).
  pose proof (compare_symbols2_neg key x). pose proof (compare_symbols2_neg key y).
  pose proof (compare_symbols2_pos key x). pose proof (compare_symbols2_pos key y).
  lia.
Qed.

(** ** The reference routines meet the contract *)

Lemma bsearch_loop_found fuel key base compar l u i :
  bsearch_loop fuel key base compar l u = Some i ->
  exists e, base !! i = Some e /\ compar key e = 0.
Proof.
  revert l u. induction fuel as [|fuel IH]; intros l u; cbn [bsearch_loop]; [done|].
  destruct (l <? u)%nat; [|done].
  destruct (base !! ((l + u) / 2)%nat) as [p|] eqn:Hp; [|done].
  destruct (Z.ltb_spec (compar key p) 0); [apply IH|].
  destruct (Z.ltb_spec 0 (compar key p)); [apply IH|].
  intros [= <-]. exists p. split; [done|lia].
Qed.

Lemma bsearch_loop_missing fuel key base compar l u :
  partitioned compar key base ->
  (u - l <= fuel)%nat -> (u <= length base)%nat ->
  (forall i e, (i < l)%nat -> base !! i = Some e -> 0 < compar key e) ->
  (forall i e, (u <= i)%nat -> base !! i = Some e -> compar key e < 0) ->
  bsearch_loop fuel key base compar l u = None ->
  forall e, e ∈ base -> compar key e <> 0.
Proof.
  intros Hpart. revert l u.
  induction fuel as [|fuel IH]; intros l u Hfuel Hu Hlow Hhigh; cbn [bsearch_loop].
  - intros _ e [i Hi]%list_elem_of_lookup_1.
    destruct (Nat.lt_ge_cases i l) as [Hil|Hil].
    + specialize (Hlow i e Hil Hi). lia.
    + assert (u <= i)%nat as Hui by lia. specialize (Hhigh i e Hui Hi). lia.
  - destruct (Nat.ltb_spec l u) as [Hlu|Hlu].
    + assert ((l + u) / 2 < u)%nat as Hidx by (apply Nat.Div0.div_lt_upper_bound; lia).
      assert (l <= (l + u) / 2)%nat as Hidx' by (apply Nat.div_le_lower_bound; lia).
      destruct (base !! ((l + u) / 2)%nat) as [p|] eqn:Hp.
      2:{ apply lookup_ge_None in Hp. lia. }
      destruct (Z.ltb_spec (compar key p) 0) as [Hc|Hc].
      * apply IH; [lia|lia|done|].
        intros i e Hi He.
        destruct (decide (i = ((l + u) / 2)%nat)) as [->|Hne].
        -- rewrite Hp in He. by injection He as <-.
        -- assert ((l + u) / 2 < i)%nat as Hlt by lia.
           destruct (Hpart _ _ _ _ Hlt Hp He) as [_ H2]. by apply H2.
      * destruct (Z.ltb_spec 0 (compar key p)) as [Hc'|Hc']; [|done].
        apply IH; [lia|lia| |done].
        intros i e Hi He.
        destruct (decide (i = ((l + u) / 2)%nat)) as [->|Hne].
        -- rewrite Hp in He. by injection He as <-.
        -- assert (i < (l + u) / 2)%nat as Hlt by lia.
           destruct (Hpart _ _ _ _ Hlt He Hp) as [H1 _]. lia.
    + intros _ e [i Hi]%list_elem_of_lookup_1.
      destruct (Nat.lt_ge_cases i l) as [Hil|Hil].
      * specialize (Hlow i e Hil Hi). lia.
      * assert (u <= i)%nat as Hui by lia. specialize (Hhigh i e Hui Hi). lia.
Qed.

Lemma ref_qsort_spec : QsortSpec ref_libc.
Proof.
  split; simpl.
  - intros base compar. apply merge_sort_Permutation.
  - intros base. unfold ascending, ref_qsort.
    assert (Total (fun x y => compare_symbols x y <= 0)) as Htot.
    { intros x y. rewrite !compare_symbols_le. apply entry_le_total. }
    apply (Sorted_merge_sort (fun x y => compare_symbols x y <= 0)).
Qed.

Lemma ref_bsearch_spec : BsearchSpec ref_libc.
Proof.
  split; simpl.
  - intros key base i _. apply bsearch_loop_found.
  - intros key base Hpart. unfold ref_bsearch.
    apply bsearch_loop_missing; [done|lia|lia|intros; lia|].
    intros i e Hi He. apply lookup_lt_Some in He. lia.
Qed.

(** ** Building the table *)

Section Build.
Context (h : heap) (Hheap : forall n, h n = true).

Lemma append_entry_table self sym c lv :
  lookup_table (append_entry h self sym c lv)
    = lookup_table self ++ [TableEntry sym c lv]
  /\ keymap (append_entry h self sym c lv) = keymap self
  /\ key_state (append_entry h self sym c lv) = key_state self.
Proof.
  unfold append_entry.
  destruct (lookup_table_size self <=? lookup_table_length self);
    [rewrite Hheap|]; done.
Qed.

(** Without that assumption: a full table whose [realloc] fails keeps its
    entries and drops the new one. *)
Lemma append_entry_realloc_failure (h' : heap) self sym c lv :
  lookup_table_size self <= lookup_table_length self ->
  h' (reallocs self) = false ->
  lookup_table (append_entry h' self sym c lv) = lookup_table self /\
  lookup_table_size (append_entry h' self sym c lv) = lookup_table_size self.
Proof.
  intros Hfull Hfail. unfold append_entry.
  destruct (Z.leb_spec (lookup_table_size self) (lookup_table_length self));
    [|lia].
  by rewrite Hfail.
Qed.

Lemma append_symbols_table c lv syms self :
  let self' := fold_left (fun self sym => append_entry h self sym c lv) syms self in
  lookup_table self'
    = lookup_table self ++ List.map (fun sym => TableEntry sym c lv) syms
  /\ keymap self' = keymap self /\ key_state self' = key_state self.
Proof.
  revert self. induction syms as [|sym syms IH]; intros self; simpl.
  - by rewrite app_nil_r.
  - destruct (IH (append_entry h self sym c lv)) as (-> & -> & ->).
    destruct (append_entry_table self sym c lv) as (-> & -> & ->).
    by rewrite <- app_assoc.
Qed.

Lemma key_iter_levels map c levels self :
  let self' :=
    fold_left
      (fun self level =>
         fold_left (fun self sym => append_entry h self sym c (Z.of_nat level))
           (xkb_keymap_key_get_syms_by_level map c 0 level) self)
      levels self in
  lookup_table self'
    = lookup_table self ++
      flat_map (fun level =>
                  List.map (fun sym => TableEntry sym c (Z.of_nat level))
                    (xkb_keymap_key_get_syms_by_level map c 0 level)) levels
  /\ keymap self' = keymap self /\ key_state self' = key_state self.
Proof.
  revert self. induction levels as [|lv levels IH]; intros self; simpl.
  - by rewrite app_nil_r.
  - match goal with |- context [fold_left _ levels ?s] => destruct (IH s) as (-> & -> & ->) end.
    destruct (append_symbols_table c (Z.of_nat lv)
                (xkb_keymap_key_get_syms_by_level map c 0 lv) self) as (-> & -> & ->).
    by rewrite <- app_assoc.
Qed.

Lemma key_iter_table map c self :
  lookup_table (key_iter h map c self) = lookup_table self ++ key_triples map c
  /\ keymap (key_iter h map c self) = keymap self
  /\ key_state (key_iter h map c self) = key_state self.
Proof. apply key_iter_levels. Qed.

Lemma key_for_each_table keys self :
  let self' := fold_left (fun self c => key_iter h (keymap self) c self) keys self in
  lookup_table self'
    = lookup_table self ++ flat_map (key_triples (keymap self)) keys
  /\ keymap self' = keymap self /\ key_state self' = key_state self.
Proof.
  revert self. induction keys as [|c keys IH]; intros self; simpl.
  - by rewrite app_nil_r.
  - destruct (IH (key_iter h (keymap self) c self)) as (-> & -> & ->).
    destruct (key_iter_table (keymap self) c self) as (-> & -> & ->).
    by rewrite <- app_assoc.
Qed.

Lemma create_lookup_table_result `{Libc} self :
  create_lookup_table true h self
    = (0, set_lookup_table
            (fold_left (fun self c => key_iter h (keymap self) c self)
               (keymap_keys (keymap self)) (set_lookup_table self [] 128))
            (qsort (keymap_triples (keymap self)) compare_symbols)
            (lookup_table_size
               (fold_left (fun self c => key_iter h (keymap self) c self)
                  (keymap_keys (keymap self)) (set_lookup_table self [] 128)))).
Proof.
  unfold create_lookup_table. simpl.
  destruct (key_for_each_table (keymap_keys (keymap self))
              (set_lookup_table self [] 128)) as (Ht & _ & _).
  simpl in Ht. by rewrite Ht.
Qed.

End Build.

(** ** The triples of a keymap *)

Lemma keymap_keys_spec map c :
  In c (keymap_keys map) <-> min_key_code map <= c <= max_key_code map.
Proof.
  unfold keymap_keys. rewrite in_map_iff. split.
  - intros (i & <- & Hi%in_seq). lia.
  - intros Hc. exists (Z.to_nat (c - min_key_code map)). split; [lia|].
    apply in_seq. lia.
Qed.

Lemma keymap_keys_NoDup map : NoDup (keymap_keys map).
Proof.
  unfold keymap_keys. apply NoDup_fmap_2; [|apply NoDup_seq].
  intros i j. lia.
Qed.

Lemma key_triples_spec map c e :
  In e (key_triples map c) <->
  code e = c /\
  exists lv : nat,
    (lv < xkb_keymap_num_levels_for_key map c 0)%nat /\
    level e = Z.of_nat lv /\
    In (symbol e) (xkb_keymap_key_get_syms_by_level map c 0 lv).
Proof.
  unfold key_triples. rewrite in_flat_map. split.
  - intros (lv & Hlv%in_seq & (sym & <- & Hsym)%in_map_iff). simpl.
    split; [done|]. exists lv. split; [lia|done].
  - intros (<- & lv & Hlv & Hlevel & Hsym). exists lv. split; [apply in_seq; lia|].
    apply in_map_iff. exists (symbol e). split; [|done].
    destruct e as [s c l]; simpl in *. by rewrite Hlevel.
Qed.

Lemma keymap_triples_spec map e :
  In e (keymap_triples map) <-> triple_present map e.
Proof.
  unfold keymap_triples, triple_present. rewrite in_flat_map. split.
  - intros (c & Hc%keymap_keys_spec & (<- & Hlv)%key_triples_spec). done.
  - intros (Hc & Hlv). exists (code e). split; [by apply keymap_keys_spec|].
    apply key_triples_spec. done.
Qed.

Lemma NoDup_flat_map_disjoint {A B} (f : A -> list B) (l : list A) :
  NoDup l ->
  (forall x, In x l -> NoDup (f x)) ->
  (forall x y b, In x l -> In y l -> In b (f x) -> In b (f y) -> x = y) ->
  NoDup (flat_map f l).
Proof.
  induction 1 as [|a l Ha Hl IH]; intros Hf Hdisj; simpl; [constructor|].
  apply NoDup_app. split; [apply Hf; by left|]. split.
  - intros b Hb%list_elem_of_In Hb'%list_elem_of_In.
    apply in_flat_map in Hb' as (y & Hy & Hby).
    assert (a = y) as -> by (apply (Hdisj a y b); simpl; auto).
    apply Ha. by apply list_elem_of_In.
  - apply IH; [intros; apply Hf; by right|].
    intros x y b Hx Hy. apply Hdisj; by right.
Qed.

Lemma keymap_triples_NoDup map :
  levels_distinct map -> NoDup (keymap_triples map).
Proof.
  intros Hd. apply NoDup_flat_map_disjoint; [apply keymap_keys_NoDup| |].
  - intros c _. unfold key_triples. apply NoDup_flat_map_disjoint.
    + apply NoDup_seq.
    + intros lv _. apply NoDup_fmap_2; [|apply Hd].
      intros s1 s2 [=]. done.
    + intros lv1 lv2 e _ _ (s1 & <- & _)%in_map_iff (s2 & [=] & _)%in_map_iff. lia.
  - intros c1 c2 e _ _ (<- & _)%key_triples_spec (<- & _)%key_triples_spec. done.
Qed.

(** ** C4 *)

(** What the function builds when no allocation fails.  With every
    [malloc] and [realloc] succeeding and [qsort] obeying its contract,
    [create_lookup_table] returns 0 and the table is sorted by (symbol
    ascending, level ascending); the entries of one symbol are contiguous,
    the lower level first; and the table holds the (symbol, code, level)
    triples the keymap lists at layout 0, each as often as the keymap lists
    it, hence once when no level lists a symbol twice. *)
Theorem create_lookup_table_sorted_complete
    (L : Libc) (LS : QsortSpec L) (h : heap) (self : keyboard)
    (Hheap : forall n, h n = true) :
  exists self',
    create_lookup_table true h self = (0, self') /\
    StronglySorted entry_le (lookup_table self') /\
    (forall i k j x y z, (i < k < j)%nat ->
       lookup_table self' !! i = Some x ->
       lookup_table self' !! k = Some y ->
       lookup_table self' !! j = Some z ->
       symbol x = symbol z -> symbol y = symbol x) /\
    (forall i j x y, (i < j)%nat ->
       lookup_table self' !! i = Some x ->
       lookup_table self' !! j = Some y ->
       symbol x = symbol y -> level x <= level y) /\
    (forall e, In e (lookup_table self') <-> triple_present (keymap self) e) /\
    (forall e, count_occ table_entry_eq_dec (lookup_table self') e
               = count_occ table_entry_eq_dec (keymap_triples (keymap self)) e) /\
    (levels_distinct (keymap self) -> NoDup (lookup_table self')).
Proof.
  eexists. split; [by apply create_lookup_table_result|]. simpl.
  set (table := qsort (keymap_triples (keymap self)) compare_symbols).
  assert (Permutation table (keymap_triples (keymap self))) as Hperm
    by apply qsort_permutation.
  assert (StronglySorted entry_le table) as Hsorted
    by apply ascending_entry_le, qsort_ascending.
  split; [done|]. split; [|split; [|split; [|split]]].
  - intros i k j x y z [Hik Hkj] Hi Hk Hj Hxz.
    pose proof (StronglySorted_lookup _ _ _ _ _ Hsorted Hik Hi Hk) as H1.
    pose proof (StronglySorted_lookup _ _ _ _ _ Hsorted Hkj Hk Hj) as H2.
    unfold entry_le in *. lia.
  - intros i j x y Hij Hi Hj Hxy.
    pose proof (StronglySorted_lookup _ _ _ _ _ Hsorted Hij Hi Hj) as H1.
    unfold entry_le in *. lia.
  - intros e. rewrite <- keymap_triples_spec.
    split; apply Permutation_in; [done|by symmetry].
  - intros e. by apply Permutation_count_occ.
  - intros Hd. rewrite Hperm. by apply keymap_triples_NoDup.
Qed.

Lemma create_lookup_table_sorted_complete_witness :
  QsortSpec ref_libc /\
  (forall n : nat, (fun _ => true) n = true) /\
  exists self',
    @create_lookup_table ref_libc true (fun _ => true) example_keyboard
      = (0, self') /\
    StronglySorted entry_le (lookup_table self') /\
    (forall i k j x y z, (i < k < j)%nat ->
       lookup_table self' !! i = Some x ->
       lookup_table self' !! k = Some y ->
       lookup_table self' !! j = Some z ->
       symbol x = symbol z -> symbol y = symbol x) /\
    (forall i j x y, (i < j)%nat ->
       lookup_table self' !! i = Some x ->
       lookup_table self' !! j = Some y ->
       symbol x = symbol y -> level x <= level y) /\
    (forall e, In e (lookup_table self') <-> triple_present example_keymap e) /\
    (forall e, count_occ table_entry_eq_dec (lookup_table self') e
               = count_occ table_entry_eq_dec (keymap_triples example_keymap) e) /\
    (levels_distinct example_keymap -> NoDup (lookup_table self')).
Proof.
  split; [exact ref_qsort_spec|]. split; [reflexivity|].
  exact (create_lookup_table_sorted_complete ref_libc ref_qsort_spec
           (fun _ => true) example_keyboard (fun _ => eq_refl)).
Defined.

(** C4.  A keymap with more triples than the first allocation of the table
    holds, and a [realloc] that fails.  The keymap has the 193 keys 8 to
    200, each with one level that gives one symbol.  [append_entry] returns
    without storing when the table cannot grow, [create_lookup_table] does
    not notice and returns 0: the table it leaves has the 128 entries of
    the keys 8 to 135, and the triple of key 200, which the keymap lists, is
    not in it. *)
Lemma create_lookup_table_drops_entries :
  let kbd := KeyboardInit.set_keymap example_keyboard KeyboardInit.wide_keymap in
  let r := @create_lookup_table ref_libc true (fun _ => false) kbd in
  fst r = 0 /\
  length (keymap_triples (keymap kbd)) = 193%nat /\
  length (lookup_table (snd r)) = 128%nat /\
  lookup_table_size (snd r) = 128 /\
  triple_present (keymap kbd) (TableEntry 200 200 0) /\
  ~ In (TableEntry 200 200 0) (lookup_table (snd r)).
Proof.
  intros kbd r.
  split; [by vm_compute|]. split; [by vm_compute|]. split; [by vm_compute|].
  split; [by vm_compute|]. split.
  - split; [cbn; lia|]. exists 0%nat. cbn. split; [lia|]. split; [done|].
    by left.
  - intros Hin%list_elem_of_In. revert Hin.
    apply (bool_decide_unpack (TableEntry 200 200 0 ∉ lookup_table (snd r))).
    vm_compute. reflexivity.
Qed.

(** The table built from the example keymap, by evaluation. *)
Example create_lookup_table_example :
  lookup_table (snd (@create_lookup_table ref_libc true (fun _ => true)
                       example_keyboard))
  = [TableEntry 33 10 1; TableEntry 49 10 0; TableEntry 65 38 1;
     TableEntry 81 24 1; TableEntry 83 39 1; TableEntry 97 38 0;
     TableEntry 97 24 2; TableEntry 113 24 0; TableEntry 115 39 0].
Proof. vm_compute. reflexivity. Qed.

(** ** C5 *)

Lemma walk_left_spec (table : list table_entry) sym entry e0 :
  table !! entry = Some e0 -> symbol e0 = sym ->
  (walk_left table sym entry <= entry)%nat /\
  exists e,
    table !! walk_left table sym entry = Some e /\ symbol e = sym /\
    forall prev p, walk_left table sym entry = S prev ->
                   table !! prev = Some p -> symbol p <> sym.
Proof.
  revert e0. induction entry as [|prev IH]; intros e0 He0 Hsym; simpl.
  - split; [lia|]. exists e0. repeat split; [done..|]. intros ? ? [=].
  - destruct (table !! prev) as [p|] eqn:Hp.
    + destruct (Z.eqb_spec (symbol p) sym) as [Heq|Hne].
      * destruct (IH p eq_refl Heq) as (Hle & e & He & Hes & Hstop).
        split; [lia|]. exists e. done.
      * split; [lia|]. exists e0. repeat split; [done..|].
        intros prev' p' [= <-] Hp'. rewrite Hp in Hp'. by injection Hp' as <-.
    + apply lookup_ge_None in Hp. apply lookup_lt_Some in He0. lia.
Qed.

(** C5.  On a table in (symbol, level) order, [keyboard_find_symbol]
    returns the first (lowest-index) entry whose symbol matches, which has
    the lowest level among the entries of that symbol; it returns none
    ([NULL]) when no entry of the table carries the symbol. *)
Theorem keyboard_find_symbol_first
    (L : Libc) (LS : BsearchSpec L) (self : keyboard) (sym : Z)
    (Hsorted : StronglySorted entry_le (lookup_table self)) :
  match keyboard_find_symbol self sym with
  | Some idx =>
      exists e,
        lookup_table self !! idx = Some e /\ symbol e = sym /\
        forall j e', lookup_table self !! j = Some e' -> symbol e' = sym ->
                     (idx <= j)%nat /\ level e <= level e'
  | None => forall e, In e (lookup_table self) -> symbol e <> sym
  end.
Proof.
  unfold keyboard_find_symbol.
  set (cmp := {| symbol := sym; code := 0; level := 0 |}).
  pose proof (sorted_partitioned (lookup_table self) cmp Hsorted) as Hpart.
  destruct (bsearch cmp (lookup_table self) compare_symbols2) as [entry|] eqn:Hb.
  - destruct (bsearch_found _ _ _ Hpart Hb) as (e0 & He0 & Hc%compare_symbols2_zero).
    simpl in Hc.
    destruct (walk_left_spec (lookup_table self) sym entry e0 He0 (eq_sym Hc))
      as (_ & e & He & Hes & Hstop).
    exists e. split; [done|]. split; [done|]. intros j e' Hj He'.
    set (first := walk_left (lookup_table self) sym entry) in *.
    assert (first <= j)%nat as Hle.
    { destruct (Nat.le_gt_cases first j) as [|Hlt]; [done|exfalso].
      destruct first as [|prev] eqn:Hw; [lia|].
      assert (is_Some (lookup_table self !! prev)) as [p Hp].
      { apply lookup_lt_is_Some. apply lookup_lt_Some in He. lia. }
      apply (Hstop prev p eq_refl Hp).
      pose proof (StronglySorted_lookup _ prev (S prev) p e Hsorted
                    (Nat.lt_succ_diag_r prev) Hp He) as H1.
      destruct (decide (j = prev)) as [->|Hne]; [congruence|].
      assert (j < prev)%nat as Hjp by lia.
      pose proof (StronglySorted_lookup _ j prev e' p Hsorted Hjp Hj Hp) as H2.
      unfold entry_le in *. lia. }
    split; [done|].
    destruct (decide (first = j)) as [Heq|Hne].
    + rewrite Heq in He. assert (e = e') as -> by congruence. lia.
    + assert (first < j)%nat as Hlt by lia.
      pose proof (StronglySorted_lookup _ first j e e' Hsorted Hlt He Hj) as H1.
      unfold entry_le in H1. lia.
  - intros e He%list_elem_of_In Hes.
    apply (bsearch_missing _ _ Hpart Hb e He).
    apply compare_symbols2_zero. simpl. done.
Qed.

Lemma example_ready_table :
  lookup_table example_ready
  = [TableEntry 33 10 1; TableEntry 49 10 0; TableEntry 65 38 1;
     TableEntry 81 24 1; TableEntry 83 39 1; TableEntry 97 38 0;
     TableEntry 97 24 2; TableEntry 113 24 0; TableEntry 115 39 0].
Proof. vm_compute. reflexivity. Qed.

Lemma example_ready_sorted : StronglySorted entry_le (lookup_table example_ready).
Proof.
  rewrite example_ready_table.
  repeat (constructor; [|repeat constructor; unfold entry_le; simpl; lia]).
  constructor.
Qed.

(** The search for [a] (97) probes index 4, then 7, then finds the second
    [a] at index 6 and steps left to the first, at index 5. *)
Example keyboard_find_symbol_example :
  @keyboard_find_symbol ref_libc example_ready 97 = Some 5%nat /\
  @bsearch ref_libc (TableEntry 97 0 0) (lookup_table example_ready)
     compare_symbols2 = Some 6%nat /\
  @keyboard_find_symbol ref_libc example_ready 98 = None.
Proof. vm_compute. done. Qed.

Lemma keyboard_find_symbol_first_witness :
  BsearchSpec ref_libc /\
  StronglySorted entry_le (lookup_table example_ready) /\
  match @keyboard_find_symbol ref_libc example_ready 97 with
  | Some idx =>
      exists e,
        lookup_table example_ready !! idx = Some e /\ symbol e = 97 /\
        forall j e', lookup_table example_ready !! j = Some e' ->
                     symbol e' = 97 -> (idx <= j)%nat /\ level e <= level e'
  | None => forall e, In e (lookup_table example_ready) -> symbol e <> 97
  end.
Proof.
  split; [exact ref_bsearch_spec|]. split; [exact example_ready_sorted|].
  exact (keyboard_find_symbol_first ref_libc ref_bsearch_spec example_ready 97
           example_ready_sorted).
Defined.

(** Whatever the allocator answers, the table [create_lookup_table] leaves
    is in (symbol, level) order, so the search above applies to it. *)
Lemma create_lookup_table_sorted
    (L : Libc) (LS : QsortSpec L) (h : heap) (self : keyboard) :
  StronglySorted entry_le (lookup_table (snd (create_lookup_table true h self))).
Proof.
  unfold create_lookup_table. simpl.
  apply ascending_entry_le, qsort_ascending.
Qed.

(** ** C6 and C7 *)

Lemma keyboard_feed_table `{Libc} self sym is_pressed :
  lookup_table (fst (keyboard_feed self sym is_pressed)) = lookup_table self
  /\ keymap (fst (keyboard_feed self sym is_pressed)) = keymap self.
Proof.
  unfold keyboard_feed.
  destruct (keyboard_find_symbol self sym) as [idx|]; [|done].
  destruct (lookup_table self !! idx) as [entry|]; [|done].
  destruct (Bool.eqb _ _); done.
Qed.

Lemma keyboard_find_symbol_table `{Libc} self self' sym :
  lookup_table self' = lookup_table self ->
  keyboard_find_symbol self' sym = keyboard_find_symbol self sym.
Proof. unfold keyboard_find_symbol. by intros ->. Qed.

(** C6.  [keyboard_feed] is idempotent: when the symbol resolves to an
    entry and the requested state equals the membership of the entry's
    code in the key state set, no request is sent and the structure, the
    key state set included, is unchanged.  In particular, from a state in
    which the key is up, [feed(symbol, true)] twice sends exactly one
    key-press event: the second call sends nothing. *)
Theorem keyboard_feed_idempotent
    (L : Libc) (self : keyboard) (sym : Z) (idx : nat) (entry : table_entry)
    (Hfind : keyboard_find_symbol self sym = Some idx)
    (Hentry : lookup_table self !! idx = Some entry) :
  (forall is_pressed,
     is_pressed = intset_is_set (key_state self) (code entry) ->
     keyboard_feed self sym is_pressed = (self, [])) /\
  (intset_is_set (key_state self) (code entry) = false ->
   let first := keyboard_feed self sym true in
   let second := keyboard_feed (fst first) sym true in
   count_key_events WL_KEYBOARD_KEY_STATE_PRESSED (snd first ++ snd second)
     = 1%nat /\
   count_key_events WL_KEYBOARD_KEY_STATE_PRESSED (snd first) = 1%nat /\
   snd second = [] /\
   key_state (fst second) = key_state (fst first)).
Proof.
  split.
  - intros is_pressed ->. unfold keyboard_feed. rewrite Hfind, Hentry.
    by rewrite Bool.eqb_reflx.
  - intros Hup first second.
    assert (first = (set_key_state self (intset_set (key_state self) (code entry)),
                     [VkModifiers 0 (mods_for_level (keymap self) (code entry)
                                       (level entry)) 0 0;
                      VkKey 0 (u32 (code entry - 8)) WL_KEYBOARD_KEY_STATE_PRESSED]))
      as Hfirst.
    { unfold first, keyboard_feed. rewrite Hfind, Hentry, Hup. done. }
    assert (second = (fst first, [])) as Hsecond.
    { unfold second, keyboard_feed.
      rewrite (keyboard_find_symbol_table self (fst first) sym)
        by (rewrite Hfirst; done).
      rewrite Hfind. rewrite Hfirst. simpl. rewrite Hentry.
      unfold intset_is_set, intset_set.
      rewrite bool_decide_eq_true_2 by set_solver. done. }
    rewrite Hsecond, Hfirst. simpl. done.
Qed.

Lemma keyboard_feed_idempotent_witness :
  @keyboard_find_symbol ref_libc example_ready 97 = Some 5%nat /\
  lookup_table example_ready !! 5%nat = Some (TableEntry 97 38 0) /\
  (forall is_pressed,
     is_pressed = intset_is_set (key_state example_ready) 38 ->
     @keyboard_feed ref_libc example_ready 97 is_pressed = (example_ready, [])) /\
  (intset_is_set (key_state example_ready) 38 = false ->
   let first := @keyboard_feed ref_libc example_ready 97 true in
   let second := @keyboard_feed ref_libc (fst first) 97 true in
   count_key_events WL_KEYBOARD_KEY_STATE_PRESSED (snd first ++ snd second)
     = 1%nat /\
   count_key_events WL_KEYBOARD_KEY_STATE_PRESSED (snd first) = 1%nat /\
   snd second = [] /\
   key_state (fst second) = key_state (fst first)).
Proof.
  assert (@keyboard_find_symbol ref_libc example_ready 97 = Some 5%nat) as Hfind
    by (vm_compute; reflexivity).
  assert (lookup_table example_ready !! 5%nat = Some (TableEntry 97 38 0)) as Hentry
    by (vm_compute; reflexivity).
  split; [exact Hfind|]. split; [exact Hentry|].
  exact (keyboard_feed_idempotent ref_libc example_ready 97 5%nat
           (TableEntry 97 38 0) Hfind Hentry).
Defined.

(** The scenario of the specification, by evaluation: releasing [a] while
    it is up sends nothing; pressing it twice sends one modifiers request
    and one key press. *)
Example keyboard_feed_example :
  snd (@keyboard_feed ref_libc example_ready 97 false) = [] /\
  (let first := @keyboard_feed ref_libc example_ready 97 true in
   snd first ++ snd (@keyboard_feed ref_libc (fst first) 97 true))
  = [VkModifiers 0 0 0 0; VkKey 0 30 1].
Proof. vm_compute. done. Qed.

(** C7.  A [keyboard_feed] call that resolves its symbol and changes the
    press state sends exactly two requests, in this order: a modifiers
    request with [depressed = locked = group = 0] and, as [latched], the
    modifier mask the keymap gives for the entry's key code and level at
    layout 0, that is the first mask [xkb_keymap_key_get_mods_for_level]
    lists there, or 0 when it lists none; then a key request carrying
    [code - 8] (computed on [uint32_t]: it is the integer difference for
    the key codes from 8 up) and the requested state. *)
Theorem keyboard_feed_events
    (L : Libc) (self : keyboard) (sym : Z) (is_pressed : bool)
    (idx : nat) (entry : table_entry)
    (Hfind : keyboard_find_symbol self sym = Some idx)
    (Hentry : lookup_table self !! idx = Some entry)
    (Hchange : intset_is_set (key_state self) (code entry) <> is_pressed) :
  let masks :=
    xkb_keymap_key_get_mods_for_level (keymap self) (code entry) 0
                                      (level entry) in
  let state := if is_pressed then WL_KEYBOARD_KEY_STATE_PRESSED
               else WL_KEYBOARD_KEY_STATE_RELEASED in
  (forall mask rest, masks = mask :: rest ->
     snd (keyboard_feed self sym is_pressed)
     = [VkModifiers 0 mask 0 0; VkKey 0 (u32 (code entry - 8)) state]) /\
  (masks = [] ->
     snd (keyboard_feed self sym is_pressed)
     = [VkModifiers 0 0 0 0; VkKey 0 (u32 (code entry - 8)) state]) /\
  (8 <= code entry < UINT32_MOD -> u32 (code entry - 8) = code entry - 8) /\
  intset_is_set (key_state (fst (keyboard_feed self sym is_pressed)))
                (code entry) = is_pressed.
Proof.
  intros masks state. unfold masks, state, keyboard_feed, mods_for_level.
  rewrite Hfind, Hentry.
  destruct (Bool.eqb _ _) eqn:Heq.
  { apply Bool.eqb_prop in Heq. done. }
  cbn [fst snd]. split; [|split; [|split]].
  - intros mask rest ->. done.
  - intros ->. done.
  - intros Hc. unfold u32. apply Z.mod_small. unfold UINT32_MOD in *. lia.
  - unfold intset_is_set, intset_set, intset_clear. destruct is_pressed.
    + apply bool_decide_eq_true_2. apply elem_of_union. left.
      by apply elem_of_singleton.
    + apply bool_decide_eq_false_2.
      intros [_ Hn]%elem_of_difference. apply Hn. by apply elem_of_singleton.
Qed.

Lemma keyboard_feed_events_witness :
  @keyboard_find_symbol ref_libc example_ready 65 = Some 2%nat /\
  lookup_table example_ready !! 2%nat = Some (TableEntry 65 38 1) /\
  intset_is_set (key_state example_ready) 38 <> true /\
  xkb_keymap_key_get_mods_for_level example_keymap 38 0 1 = [1] /\
  snd (@keyboard_feed ref_libc example_ready 65 true)
    = [VkModifiers 0 1 0 0; VkKey 0 30 1] /\
  intset_is_set (key_state (fst (@keyboard_feed ref_libc example_ready 65 true)))
                38 = true.
Proof.
  assert (@keyboard_find_symbol ref_libc example_ready 65 = Some 2%nat) as Hfind
    by (vm_compute; reflexivity).
  assert (lookup_table example_ready !! 2%nat = Some (TableEntry 65 38 1)) as Hentry
    by (vm_compute; reflexivity).
  assert (intset_is_set (key_state example_ready) 38 <> true) as Hchange.
  { vm_compute. discriminate. }
  split; [exact Hfind|]. split; [exact Hentry|]. split; [exact Hchange|].
  split; [reflexivity|].
  destruct (keyboard_feed_events ref_libc example_ready 65 true 2%nat
              (TableEntry 65 38 1) Hfind Hentry Hchange)
    as (Hmask & _ & _ & Hstate).
  split; [exact (Hmask 1 [] eq_refl)|exact Hstate].
Defined.

(** Scenario 4 of the specification on the example keymap: [A] is level 1
    of key 38; Shift (mask 1) is latched before the press of key 30. *)
Example keyboard_feed_shift_example :
  snd (@keyboard_feed ref_libc example_ready 65 true)
  = [VkModifiers 0 1 0 0; VkKey 0 30 1].
Proof. vm_compute. reflexivity. Qed.

End KeyboardProofs.

Module CmdProofs.
Import FrameCapture.

Lemma exec_bind {S A B : Type} (c : Cmd S A) (k : A -> Cmd S B) (s : S) :
  exec (bind c k) s = exec (k (fst (c s))) (snd (c s)).
Proof. unfold exec, bind. destruct (c s). reflexivity. Qed.

Lemma run_bind {S A B : Type} (c : Cmd S A) (k : A -> Cmd S B) (s : S) :
  bind c k s = k (fst (c s)) (snd (c s)).
Proof. unfold bind. destruct (c s). reflexivity. Qed.

End CmdProofs.

Module DmabufProofs.
Import FrameCapture Dmabuf CmdProofs.

Lemma close_planes_spec f i count w :
  self (exec (close_planes f i count) w) = self w /\
  exists closes,
    trace (exec (close_planes f i count) w) = trace w ++ closes /\
    Forall (fun a => is_close a = true) closes.
Proof.
  revert i w. induction count as [|count IH]; intros i w; simpl.
  - split; [done|]. exists []. by rewrite app_nil_r.
  - rewrite exec_bind.
    destruct (IH (S i) (snd (close (fd (plane_at f i)) w))) as (Hs & cl & Ht & Hcl).
    rewrite Hs, Ht. simpl. split; [done|].
    eexists (_ :: cl). rewrite <- app_assoc. split; [done|].
    constructor; done.
Qed.

Lemma dmabuf_close_fds_spec w :
  fc (self (exec dmabuf_close_fds w)) = fc (self w) /\
  timer (self (exec dmabuf_close_fds w)) = timer (self w) /\
  zwlr_frame (self (exec dmabuf_close_fds w)) = zwlr_frame (self w) /\
  last_time (self (exec dmabuf_close_fds w)) = last_time (self w) /\
  n_planes (frame (self (exec dmabuf_close_fds w))) = 0 /\
  exists closes,
    trace (exec dmabuf_close_fds w) = trace w ++ closes /\
    Forall (fun a => is_close a = true) closes.
Proof.
  unfold dmabuf_close_fds. rewrite !exec_bind. simpl.
  destruct (close_planes_spec (frame (self w)) 0
              (Z.to_nat (n_planes (frame (self w)))) w) as (Hs & cl & Ht & Hcl).
  unfold exec in *. simpl. rewrite Hs, Ht. repeat split; eauto.
Qed.

Lemma is_close_housekeeping (l : list action) :
  Forall (fun a => is_close a = true) l ->
  Forall (fun a => is_housekeeping a = true) l.
Proof.
  intros Hl. eapply Forall_impl; [exact Hl|]. intros [] ?; done.
Qed.

Lemma dmabuf_capture_stop_spec w :
  fc (self (exec dmabuf_capture_stop w)) = with_status CAPTURE_STOPPED (fc (self w)) /\
  started (timer (self (exec dmabuf_capture_stop w))) = false /\
  zwlr_frame (self (exec dmabuf_capture_stop w)) = None /\
  last_time (self (exec dmabuf_capture_stop w)) = last_time (self w) /\
  exists actions,
    trace (exec dmabuf_capture_stop w) = trace w ++ actions /\
    Forall (fun a => is_housekeeping a = true) actions.
Proof.
  unfold dmabuf_capture_stop, exec. cmd_unfold.
  unfold aml_stop. destruct (started (timer (self w))) eqn:Hstarted; cmd_unfold;
    [change (0 <=? 0) with true | change (0 <=? -1) with false]; cbv beta iota.
  - match goal with |- context [dmabuf_close_fds ?w0] =>
      destruct (dmabuf_close_fds_spec w0) as (Hfc & Ht & Hz & Hl & _ & cl & Htr & Hcl);
      unfold exec in *;
      destruct (dmabuf_close_fds w0) as [[] w1]
    end.
    cmd_unfold.
    destruct (zwlr_frame (self w1)) eqn:Hzf; cmd_unfold;
      rewrite ?Hfc, ?Ht, ?Hl, ?Htr; repeat split; try done.
    + eexists (cl ++ [_]). rewrite app_assoc. split; [done|].
      apply Forall_app. split; [by apply is_close_housekeeping|].
      repeat constructor.
    + exists cl. split; [done|]. by apply is_close_housekeeping.
  - destruct (zwlr_frame (self w)) eqn:Hzf; cmd_unfold; rewrite ?Hstarted;
      repeat split; try done.
    + eexists [_]. split; [done|]. repeat constructor.
    + exists []. by rewrite app_nil_r.
Qed.

(** ** Cancel *)

Lemma dmabuf_frame_cancel_steps (on_done : callback) (reason : Z) (w : world) :
  exists handed,
    status (fc handed)
      = (if reason =? ZWLR_EXPORT_DMABUF_FRAME_V1_CANCEL_REASON_PERMANENT
         then CAPTURE_FATAL else CAPTURE_FAILED) /\
    fc (self (exec (dmabuf_frame_cancel on_done reason) w)) = fc (on_done handed).
Proof.
  unfold dmabuf_frame_cancel, exec. cmd_unfold.
  destruct (dmabuf_capture_stop w) as [[] w1]. cmd_unfold.
  match goal with |- context [dmabuf_close_fds ?w0] =>
    destruct (dmabuf_close_fds_spec w0) as (Hfc2 & _);
    unfold exec in *;
    destruct (dmabuf_close_fds w0) as [[] w2]
  end.
  cmd_unfold. rewrite Hfc2. eexists. split; [|reflexivity]. done.
Qed.

(** ** C8 *)

(** C8.  On a cancel event the status is set to FATAL if and only if the
    reason is PERMANENT and to FAILED for every other reason, and
    [on_done] is invoked after that: the handler invokes it exactly once,
    on a structure that carries the new status, after the actions of
    [stop] and before the plane descriptors are closed. *)
Theorem dmabuf_frame_cancel_status (on_done : callback) (reason : Z) (w : world) :
  let st :=
    if reason =? ZWLR_EXPORT_DMABUF_FRAME_V1_CANCEL_REASON_PERMANENT
    then CAPTURE_FATAL else CAPTURE_FAILED in
  let w' := exec (dmabuf_frame_cancel on_done reason) w in
  (st = CAPTURE_FATAL <->
   reason = ZWLR_EXPORT_DMABUF_FRAME_V1_CANCEL_REASON_PERMANENT) /\
  (st = CAPTURE_FAILED <->
   reason <> ZWLR_EXPORT_DMABUF_FRAME_V1_CANCEL_REASON_PERMANENT) /\
  exists before after handed,
    trace w' = trace w ++ before ++ OnDone st :: after /\
    Forall (fun a => is_housekeeping a = true) before /\
    Forall (fun a => is_close a = true) after /\
    status (fc handed) = st /\
    fc (self w') = fc (on_done handed).
Proof.
  intros st w'. split; [|split].
  - unfold st.
    destruct (Z.eqb_spec reason ZWLR_EXPORT_DMABUF_FRAME_V1_CANCEL_REASON_PERMANENT);
      split; congruence.
  - unfold st.
    destruct (Z.eqb_spec reason ZWLR_EXPORT_DMABUF_FRAME_V1_CANCEL_REASON_PERMANENT);
      split; congruence.
  - unfold w', dmabuf_frame_cancel, exec. cmd_unfold.
    destruct (dmabuf_capture_stop_spec w) as (Hfc & _ & _ & _ & hk & Htr & Hhk).
    unfold exec in *. destruct (dmabuf_capture_stop w) as [[] w1]. cmd_unfold.
    match goal with |- context [dmabuf_close_fds ?w0] =>
      destruct (dmabuf_close_fds_spec w0) as (Hfc2 & _ & _ & _ & _ & cl & Htr2 & Hcl);
      unfold exec in *;
      destruct (dmabuf_close_fds w0) as [[] w2]
    end.
    cmd_unfold. rewrite Htr2, Htr, Hfc2.
    eexists hk, cl, _. split; [by rewrite <- !app_assoc|].
    split; [done|]. split; [done|]. split; [|reflexivity]. done.
Qed.

(** The third scenario of the specification: a permanent cancel during a
    capture. *)
Example dmabuf_frame_cancel_example :
  let w := run (fun s => s) [Start (Some 1); CancelEv 1] initial in
  status (fc (self w)) = CAPTURE_FATAL /\
  trace w = [CaptureOutput false; FrameDestroy 1; OnDone CAPTURE_FATAL].
Proof. vm_compute. done. Qed.

(** ** C10 *)

Lemma dmabuf_timer_ready_idle on_done now w :
  status (fc (self w)) <> CAPTURE_IN_PROGRESS ->
  exec (dmabuf_timer_ready on_done now) w = w.
Proof.
  intros Hst. unfold dmabuf_timer_ready, exec. cmd_unfold.
  destruct (decide (status (fc (self w)) = CAPTURE_IN_PROGRESS)); done.
Qed.

(** C10.  The callback of the deadline timer invokes [on_done], with
    status DONE, only when the status is IN_PROGRESS at the moment it
    runs.  With any other status it is a no-op: no status change, no action,
    no [on_done].  So it is after [stop] (status STOPPED, and the timer is
    disarmed as well) and after a cancel whose continuation leaves the
    status alone. *)
Theorem dmabuf_timer_ready_guard (on_done : callback) (now : Z) (w : world) :
  (status (fc (self w)) <> CAPTURE_IN_PROGRESS ->
   exec (dmabuf_timer_ready on_done now) w = w) /\
  (status (fc (self w)) = CAPTURE_IN_PROGRESS ->
   exists closes,
     trace (exec (dmabuf_timer_ready on_done now) w)
       = trace w ++ OnDone CAPTURE_DONE :: closes /\
     Forall (fun a => is_close a = true) closes) /\
  exec (dmabuf_timer_ready on_done now) (exec dmabuf_capture_stop w)
    = exec dmabuf_capture_stop w /\
  exec (timer_expires on_done now) (exec dmabuf_capture_stop w)
    = exec dmabuf_capture_stop w /\
  (forall reason,
     (forall s, status (fc (on_done s)) = status (fc s)) ->
     exec (dmabuf_timer_ready on_done now)
          (exec (dmabuf_frame_cancel on_done reason) w)
       = exec (dmabuf_frame_cancel on_done reason) w).
Proof.
  split; [apply dmabuf_timer_ready_idle|]. split; [|split; [|split]].
  - intros Hst. unfold dmabuf_timer_ready, exec. cmd_unfold.
    destruct (decide (status (fc (self w)) = CAPTURE_IN_PROGRESS)); [|done].
    match goal with |- context [dmabuf_close_fds ?w0] =>
      destruct (dmabuf_close_fds_spec w0) as (_ & _ & _ & _ & _ & cl & Htr & Hcl);
      unfold exec in *;
      destruct (dmabuf_close_fds w0) as [[] w2]
    end.
    cmd_unfold. exists cl. rewrite Htr, <- app_assoc. done.
  - apply dmabuf_timer_ready_idle.
    destruct (dmabuf_capture_stop_spec w) as (-> & _). done.
  - destruct (dmabuf_capture_stop_spec w) as (_ & Hstarted & _).
    unfold timer_expires. unfold exec at 1. cmd_unfold. by rewrite Hstarted.
  - intros reason Hkeep. apply dmabuf_timer_ready_idle.
    destruct (dmabuf_frame_cancel_steps on_done reason w) as (handed & Hst & ->).
    rewrite Hkeep, Hst. by destruct (_ =? _).
Qed.

(** A timer armed by a ready event, then [stop]: the expiry does nothing.
    Without the [stop], it delivers the frame. *)
Example dmabuf_timer_example :
  let armed :=
    run (fun s => s)
      [Start (Some 1); FrameEv 640 480 875713112 0 0 1;
       ObjectEv 0 5 100 0 2560 0; ReadyEv 1000 (Some 2)] initial in
  started (timer (self armed)) = true /\
  run (fun s => s) [Stop; TimerEv 50000] armed = run (fun s => s) [Stop] armed /\
  exec (dmabuf_timer_ready (fun s => s) 50000) (run (fun s => s) [Stop] armed)
    = run (fun s => s) [Stop] armed /\
  trace (run (fun s => s) [TimerEv 50000] armed)
    = trace armed ++ [OnDone CAPTURE_DONE; Close 5 true].
Proof. vm_compute. done. Qed.

(** ** C2 and C9 on this back end *)

(** Whatever the status, [dmabuf_capture_start] sends the capture request;
    when the compositor answers with a frame it returns 0. *)
Lemma dmabuf_capture_start_any_status (f : Z) (w : world) :
  fst (dmabuf_capture_start (Some f) w) = 0 /\
  trace (exec (dmabuf_capture_start (Some f)) w)
    = trace w ++ [CaptureOutput (overlay_cursor (fc (self w)))] /\
  zwlr_frame (self (exec (dmabuf_capture_start (Some f)) w)) = Some f /\
  status (fc (self (exec (dmabuf_capture_start (Some f)) w)))
    = CAPTURE_IN_PROGRESS.
Proof. unfold dmabuf_capture_start, exec. cmd_unfold. done. Qed.

(** With no timer started, [dmabuf_capture_stop] closes nothing: the
    planes and the open descriptors are as before. *)
Lemma dmabuf_capture_stop_timer_idle (w : world) :
  started (timer (self w)) = false ->
  open_fds (exec dmabuf_capture_stop w) = open_fds w /\
  frame (self (exec dmabuf_capture_stop w)) = frame (self w) /\
  Forall (fun a => is_close a = false)
         (drop (length (trace w)) (trace (exec dmabuf_capture_stop w))).
Proof.
  intros Hidle. unfold dmabuf_capture_stop, exec. cmd_unfold.
  unfold aml_stop. rewrite Hidle. cmd_unfold.
  change (0 <=? -1) with false. cbv beta iota. cmd_unfold.
  destruct (zwlr_frame (self w)); cmd_unfold;
    rewrite ?drop_app_length, ?drop_all; repeat split; repeat constructor.
Qed.

(** C2, the DMA-BUF back end.  [dmabuf_capture_start] does not look at the
    status: called during a capture it asks the compositor for another
    frame and returns 0, and the first frame object is still alive. *)
Lemma dmabuf_capture_start_while_in_progress :
  let w1 := exec (dmabuf_capture_start (Some 1)) initial in
  status (fc (self w1)) = CAPTURE_IN_PROGRESS /\
  fst (dmabuf_capture_start (Some 2) w1) = 0 /\
  trace (exec (dmabuf_capture_start (Some 2)) w1)
    = [CaptureOutput false; CaptureOutput false] /\
  zwlr_frame (self (exec (dmabuf_capture_start (Some 2)) w1)) = Some 2.
Proof. vm_compute. done. Qed.

(** C9.  Two runs of the back end.  In the first, [stop] arrives after an
    object event and before the ready event: no timer is started, [aml_stop]
    fails, and descriptor 5 is still open when [stop] returns.  In the
    second, a frame is held back by the timer, the next capture's frame
    event closes its descriptor, and a cancel that arrives before any new
    object event closes the same descriptor number again. *)
Lemma dmabuf_fds_leak_and_double_close :
  let leak :=
    run (fun s => s)
      [Start (Some 1); FrameEv 640 480 875713112 0 0 1;
       ObjectEv 0 5 100 0 2560 0; Stop] initial in
  let twice :=
    run (fun s => s)
      [Start (Some 1); FrameEv 640 480 875713112 0 0 1;
       ObjectEv 0 5 100 0 2560 0; ReadyEv 1000 (Some 2);
       FrameEv 640 480 875713112 0 0 1; CancelEv 0] initial in
  (status (fc (self leak)) = CAPTURE_STOPPED /\
   elements (open_fds leak) = [5] /\
   trace leak = [CaptureOutput false; FrameDestroy 1]) /\
  trace twice
    = [CaptureOutput false; FrameDestroy 1; CaptureOutput false;
       Close 5 true; FrameDestroy 2; OnDone CAPTURE_FAILED; Close 5 false].
Proof. vm_compute. done. Qed.

End DmabufProofs.

Module ScreencopyProofs.
Import FrameCapture Screencopy CmdProofs.

(** ** The pooled buffer *)

Lemma screencopy_buffer_init_pooled env fmt width height stride w b :
  buffer (self w) = Some b ->
  screencopy_buffer_init env fmt width height stride w = (0, w).
Proof.
  intros Hb. unfold screencopy_buffer_init. cmd_unfold. by rewrite Hb.
Qed.

Lemma screencopy_buffer_pooled on_done env fmt width height stride w b :
  buffer (self w) = Some b ->
  let w' := exec (screencopy_buffer on_done env fmt width height stride) w in
  buffer (self w') = Some b /\
  pixels (self w') = pixels (self w) /\
  bufsize (self w') = bufsize (self w) /\
  frame_info (frame_capture (self w'))
    = Info (fourcc_from_wl_shm fmt) width height stride /\
  trace w' = trace w ++ [CopyWithDamage (frame (self w)) (Some b)].
Proof.
  intros Hb w'. unfold w', screencopy_buffer, exec.
  rewrite run_bind.
  rewrite (screencopy_buffer_init_pooled env fmt width height stride w b Hb).
  cmd_unfold. change (0 <? 0) with false. cbv beta iota. cmd_unfold.
  rewrite Hb. done.
Qed.

Lemma screencopy_buffer_init_created env fmt width height stride w :
  buffer (self w) = None ->
  0 <= shm_alloc_fd env -> mmap env <> 0 ->
  wl_shm_create_pool env = true -> wl_shm_pool_create_buffer env = true ->
  let r := screencopy_buffer_init env fmt width height stride w in
  fst r = 0 /\
  buffer (self (snd r)) = Some (WlBuffer width height stride fmt) /\
  pixels (self (snd r)) = mmap env /\
  bufsize (self (snd r)) = u32 (stride * height) /\
  trace (snd r)
    = trace w ++
      [ShmAllocFd (u32 (stride * height));
       Mmap (u32 (stride * height)) (shm_alloc_fd env);
       ShmCreatePool (shm_alloc_fd env) (i32 (u32 (stride * height)));
       PoolCreateBuffer 0 (i32 width) (i32 height) (i32 stride) fmt;
       PoolDestroy;
       Close (shm_alloc_fd env)].
Proof.
  intros Hb Hfd Haddr Hpool Hbuf r. unfold r, screencopy_buffer_init.
  cmd_unfold. rewrite Hb.
  destruct (Z.ltb_spec (shm_alloc_fd env) 0); [lia|].
  destruct (Z.eqb_spec (mmap env) 0); [done|].
  rewrite Hpool, Hbuf. cbn -[i32]. rewrite <- !app_assoc. done.
Qed.

(** ** C1 *)

(** C1, as the code has it.  A buffer event that finds no pooled buffer,
    and whose requests succeed, creates the pool (buffer, pixels, size) for
    the advertised (width, height, stride, format).  Once a pooled buffer
    exists, every later buffer event reuses it, whatever tuple it
    advertises: buffer, pixels and size stay as they are, and no request
    that sets up a pool is made. *)
Theorem screencopy_pool_created_once
    (on_done : callback) (evs : list buffer_event) (w : world) (b : wl_buffer)
    (Hpooled : buffer (self w) = Some b) :
  let w' := run_buffer_events on_done evs w in
  (buffer (self w') = Some b /\
   pixels (self w') = pixels (self w) /\
   bufsize (self w') = bufsize (self w) /\
   exists actions,
     trace w' = trace w ++ actions /\
     Forall (fun a => is_pool_request a = false) actions) /\
  (forall w0 env fmt width height stride,
     buffer (self w0) = None ->
     0 <= shm_alloc_fd env -> mmap env <> 0 ->
     wl_shm_create_pool env = true -> wl_shm_pool_create_buffer env = true ->
     let w1 := exec (screencopy_buffer on_done env fmt width height stride) w0 in
     buffer (self w1) = Some (WlBuffer width height stride fmt) /\
     pixels (self w1) = mmap env /\
     bufsize (self w1) = u32 (stride * height)).
Proof.
  intros w'. split.
  - unfold w'. clear w'. revert w Hpooled.
    induction evs as [|ev evs IH]; intros w Hpooled; simpl.
    + split; [done|]. split; [done|]. split; [done|].
      exists []. by rewrite app_nil_r.
    + destruct (screencopy_buffer_pooled on_done (ev_env ev) (ev_format ev)
                  (ev_width ev) (ev_height ev) (ev_stride ev) w b Hpooled)
        as (Hb1 & Hp1 & Hs1 & _ & Ht1).
      unfold handle_buffer.
      destruct (IH _ Hb1) as (Hb2 & Hp2 & Hs2 & acts & Ht2 & Hacts).
      rewrite Hb2, Hp2, Hs2, Ht2, Hp1, Hs1, Ht1.
      split; [done|]. split; [done|]. split; [done|]. eexists (_ :: acts).
      rewrite <- app_assoc. split; [done|]. constructor; done.
  - intros w0 env fmt width height stride Hnone Hfd Haddr Hpool Hbuf w1.
    destruct (screencopy_buffer_init_created env fmt width height stride w0
                Hnone Hfd Haddr Hpool Hbuf) as (Hrc & Hb & Hp & Hs & _).
    unfold w1, screencopy_buffer, exec. rewrite run_bind.
    destruct (screencopy_buffer_init env fmt width height stride w0) as [rc w2].
    simpl in Hrc, Hb, Hp, Hs. subst rc.
    cmd_unfold. change (0 <? 0) with false. cbv beta iota. cmd_unfold. done.
Qed.

Lemma screencopy_pool_created_once_witness :
  let w := run_buffer_events (fun s => s) [BufferEvent env_ok 1 2 2 8] capturing in
  buffer (self w) = Some (WlBuffer 2 2 8 1) /\
  let w' := run_buffer_events (fun s => s) [BufferEvent env_ok 1 4 4 16] w in
  (buffer (self w') = Some (WlBuffer 2 2 8 1) /\
   pixels (self w') = pixels (self w) /\
   bufsize (self w') = bufsize (self w) /\
   exists actions,
     trace w' = trace w ++ actions /\
     Forall (fun a => is_pool_request a = false) actions) /\
  (forall w0 env fmt width height stride,
     buffer (self w0) = None ->
     0 <= shm_alloc_fd env -> mmap env <> 0 ->
     wl_shm_create_pool env = true -> wl_shm_pool_create_buffer env = true ->
     let w1 := exec (screencopy_buffer (fun s => s) env fmt width height stride) w0 in
     buffer (self w1) = Some (WlBuffer width height stride fmt) /\
     pixels (self w1) = mmap env /\
     bufsize (self w1) = u32 (stride * height)).
Proof.
  split; [vm_compute; reflexivity|].
  exact (screencopy_pool_created_once (fun s => s) [BufferEvent env_ok 1 4 4 16]
           (run_buffer_events (fun s => s) [BufferEvent env_ok 1 2 2 8] capturing)
           (WlBuffer 2 2 8 1) eq_refl).
Defined.

(** C1 as the specification states it fails: after a buffer event for
    2x2 pixels with stride 8, an event for 4x4 pixels with stride 16 leaves
    the 16-byte pool of the first in place and asks the compositor to copy
    into it. *)
Lemma screencopy_pool_not_recreated :
  let w1 := run_buffer_events (fun s => s) [BufferEvent env_ok 1 2 2 8] capturing in
  let w2 := run_buffer_events (fun s => s) [BufferEvent env_ok 1 4 4 16] w1 in
  (buffer (self w1) = Some (WlBuffer 2 2 8 1) /\
   bufsize (self w1) = 16 /\
   geometry (WlBuffer 2 2 8 1) <> ev_geometry (BufferEvent env_ok 1 4 4 16) /\
   buffer (self w2) = Some (WlBuffer 2 2 8 1) /\
   bufsize (self w2) = 16 /\
   trace w2 = trace w1 ++ [CopyWithDamage (Some 1) (Some (WlBuffer 2 2 8 1))]) /\
  ~ recreated_on_change (fun s => s).
Proof.
  split; [vm_compute; repeat split; congruence|].
  intros Hclaim.
  specialize (Hclaim
    (run_buffer_events (fun s => s) [BufferEvent env_ok 1 2 2 8] capturing)
    (WlBuffer 2 2 8 1) 1 4 4 16 eq_refl).
  vm_compute in Hclaim. assert ((2, 2, 8, 1) <> (4, 4, 16, 1)) as Hne by congruence.
  specialize (Hclaim Hne). congruence.
Qed.

(** ** C2 on this back end *)

(** [screencopy_start] during a capture fails at once: it returns -1,
    leaves the structure alone and sends nothing. *)
Lemma screencopy_start_in_progress now now_capture new_frame w :
  status (frame_capture (self w)) = CAPTURE_IN_PROGRESS ->
  screencopy_start now now_capture new_frame w = (-1, w).
Proof.
  intros Hst. unfold screencopy_start. cmd_unfold. rewrite Hst.
  destruct (decide (CAPTURE_IN_PROGRESS = CAPTURE_IN_PROGRESS)); done.
Qed.

(** ** C3 *)

(** The computation of [time_left], by evaluation, in a back end that has
    delivered no frame yet ([last_time] and [delay] are 0).  After 20 ms
    the result is 30.000000000000004 ms.  After exactly 50 ms the three
    roundings leave [0x1.f4p-48], about 6.9e-15 ms, and not 0; one
    microsecond later the result is negative. *)
Example time_left_example :
  time_left 20000 (self ScreencopyRun.initial)
  = S754_finite false 8444249301319681 (-48) /\
  time_left 50000 (self ScreencopyRun.initial)
  = S754_finite false 8796093022208000 (-100) /\
  time_left 50001 (self ScreencopyRun.initial)
  = S754_finite true 4611686018400000 (-62).
Proof. vm_compute. done. Qed.

(** C3, as the code has it.  Called with a status other than IN_PROGRESS
    and the timer idle, [screencopy_start] computes in double precision,
    each operation rounded, [time_left = (1.0 / 20.0 - dt - delay) * 1.0e3]
    with [dt = (now - last_time) * 1.0e-6], and sets the status to
    IN_PROGRESS.  When the computed [time_left] is greater than 0 the
    function arms the one-shot timer with it, returns what [aml_start]
    returns and sends nothing; the timer's callback [screencopy__poll] then
    sends the capture request, at the clock reading it finds.  Otherwise
    the request is sent at once and the timer stays idle. *)
Theorem screencopy_start_rate_limit
    (now now_capture : Z) (new_frame : option Z) (w : world)
    (Hidle : status (frame_capture (self w)) <> CAPTURE_IN_PROGRESS)
    (Htimer : started (timer (self w)) = false) :
  let dt :=
    Double.mul (Double.of_Z (u64 (now - last_time (self w))))
               (S754_finite false 4722366482869645 (-72)) in
  let left :=
    Double.mul
      (Double.sub
         (Double.sub (Double.div (Double.of_Z 1) (Double.of_Z 20)) dt)
         (delay (self w)))
      (Double.of_Z 1000) in
  let r := screencopy_start now now_capture new_frame w in
  let request := CaptureOutput (overlay_cursor (frame_capture (self w))) in
  status (frame_capture (self (snd r))) = CAPTURE_IN_PROGRESS /\
  if SFltb (S754_zero false) left then
    fst r = 0 /\
    trace (snd r) = trace w /\
    frame (self (snd r)) = frame (self w) /\
    timer (self (snd r)) = {| duration := left; started := true |} /\
    forall fire nf,
      let w2 := exec (screencopy__poll fire nf) (snd r) in
      trace w2 = trace w ++ [request] /\
      start_time (self w2) = fire /\
      frame (self w2) = nf
  else
    fst r = match new_frame with Some _ => 0 | None => -1 end /\
    trace (snd r) = trace w ++ [request] /\
    start_time (self (snd r)) = now_capture /\
    frame (self (snd r)) = new_frame /\
    timer (self (snd r)) = timer (self w).
Proof.
  intros dt left r request.
  unfold r, screencopy_start. cmd_unfold.
  destruct (decide (status (frame_capture (self w)) = CAPTURE_IN_PROGRESS));
    [done|].
  change (time_left now (self w)) with left.
  change (Double.ltb Double.zero left) with (SFltb (S754_zero false) left).
  destruct (SFltb (S754_zero false) left).
  - unfold aml_start, aml_set_duration. cmd_unfold. rewrite Htimer. cmd_unfold.
    repeat (split; [done|]).
    intros fire nf. unfold screencopy__poll, screencopy__start_capture, exec.
    cmd_unfold. destruct nf; cmd_unfold; done.
  - unfold screencopy__start_capture. cmd_unfold.
    destruct new_frame; cmd_unfold; done.
Qed.

Lemma screencopy_start_rate_limit_witness :
  status (frame_capture (self between_captures)) <> CAPTURE_IN_PROGRESS /\
  started (timer (self between_captures)) = false /\
  let r := screencopy_start 1010000 1010002 (Some 2) between_captures in
  status (frame_capture (self (snd r))) = CAPTURE_IN_PROGRESS /\
  fst r = 0 /\
  trace (snd r) = [] /\
  frame (self (snd r)) = None /\
  timer (self (snd r))
  = {| duration := S754_finite false 4672484613396890 (-47); started := true |} /\
  forall fire nf,
    let w2 := exec (screencopy__poll fire nf) (snd r) in
    trace w2 = [CaptureOutput false] /\
    start_time (self w2) = fire /\
    frame (self w2) = nf.
Proof.
  assert (status (frame_capture (self between_captures)) <> CAPTURE_IN_PROGRESS)
    as Hidle by discriminate.
  split; [exact Hidle|]. split; [reflexivity|].
  exact (screencopy_start_rate_limit 1010000 1010002 (Some 2) between_captures
           Hidle eq_refl).
Defined.

(** The claim read with exact numbers fails in both directions.  In a back
    end that has delivered no frame ([last_time] and [delay] 0), at exactly
    50 ms [1/RATE_LIMIT - (now - last_time) - delay] is 0, not positive, and
    yet no request is sent: the timer is armed, with the 6.9e-15 ms the
    doubles leave.  And after a frame that was ready at 1 s with a delay of
    0.046 s, a start 4 ms later computes 0 and sends the request at once,
    while [last_time + 1/RATE_LIMIT - delay], with the number the double
    0.046 stands for, lies later than that instant. *)
Lemma screencopy_start_not_exact :
  (let w := ScreencopyRun.initial in
   let r := screencopy_start 50000 50000 (Some 1) w in
   (1 / 20 - (seconds 50000 - seconds (last_time (self w)))
    - Double.to_Q (delay (self w)) == 0)%Q /\
   trace (snd r) = [] /\
   started (timer (self (snd r))) = true) /\
  (let w := ScreencopyRun.run (fun s => s)
              [ScreencopyRun.Start 900000 900000 (Some 1);
               ScreencopyRun.ReadyEv 1000000
                 (Double.div (Double.of_Z 46) (Double.of_Z 1000))]
              ScreencopyRun.initial in
   let r := screencopy_start 1004000 1004000 (Some 2) w in
   last_time (self w) = 1000000 /\
   trace (snd r) = trace w ++ [CaptureOutput false] /\
   start_time (self (snd r)) = 1004000 /\
   (seconds (start_time (self (snd r))) < release_bound (self w))%Q).
Proof. vm_compute. repeat split; reflexivity. Qed.

(** The scenarios of the specification, by evaluation.  10 ms after the
    last frame, with a delay of 6.8 ms, the timer is armed with 33.2 ms and
    nothing is sent; 80 ms after it the request leaves at once and the timer
    stays idle. *)
Example screencopy_start_example :
  let early := screencopy_start 1010000 1010002 (Some 2) between_captures in
  let late := screencopy_start 1080000 1080002 (Some 2) between_captures in
  (fst early = 0 /\ trace (snd early) = [] /\
   started (timer (self (snd early))) = true /\
   duration (timer (self (snd early)))
   = S754_finite false 4672484613396890 (-47) /\
   (Double.to_Q (duration (timer (self (snd early)))) - (166 # 5)
    == 1 # 351843720888320)%Q) /\
  (fst late = 0 /\ trace (snd late) = [CaptureOutput false] /\
   started (timer (self (snd late))) = false /\
   start_time (self (snd late)) = 1080002).
Proof. vm_compute. done. Qed.

End ScreencopyProofs.

(** * Further properties of the keyboard injector *)

Module KeyboardMore.
Import Intset Keyboard KeyboardProofs.

(** ** The table under an allocator that may fail *)

Section AnyHeap.
Context (h : heap).

Lemma append_entry_any self sym c lv :
  exists kept,
    lookup_table (append_entry h self sym c lv) = lookup_table self ++ kept /\
    kept `sublist_of` [TableEntry sym c lv] /\
    keymap (append_entry h self sym c lv) = keymap self /\
    key_state (append_entry h self sym c lv) = key_state self.
Proof.
  unfold append_entry.
  destruct (lookup_table_size self <=? lookup_table_length self);
    [destruct (h (reallocs self))|]; simpl.
  - exists [TableEntry sym c lv]. done.
  - exists []. rewrite app_nil_r. split; [done|]. split; [apply sublist_nil_l|done].
  - exists [TableEntry sym c lv]. done.
Qed.

Lemma append_entry_capacity self sym c lv :
  0 < lookup_table_size self ->
  lookup_table_length self <= lookup_table_size self ->
  0 < lookup_table_size (append_entry h self sym c lv) /\
  lookup_table_length (append_entry h self sym c lv)
    <= lookup_table_size (append_entry h self sym c lv).
Proof.
  intros Hpos Hle. unfold append_entry, lookup_table_length in *.
  destruct (Z.leb_spec (lookup_table_size self)
              (Z.of_nat (length (lookup_table self))));
    [destruct (h (reallocs self))|]; simpl; rewrite ?length_app; simpl; lia.
Qed.

(** A loop of [append_entry] calls over the elements of a list. *)
Lemma append_loop_any {A : Type} (entry_of : A -> table_entry) (xs : list A) self :
  let self' :=
    fold_left (fun self x => append_entry h self (symbol (entry_of x))
                               (code (entry_of x)) (level (entry_of x))) xs self in
  (exists kept,
     lookup_table self' = lookup_table self ++ kept /\
     kept `sublist_of` List.map entry_of xs) /\
  keymap self' = keymap self /\ key_state self' = key_state self /\
  (0 < lookup_table_size self ->
   lookup_table_length self <= lookup_table_size self ->
   0 < lookup_table_size self' /\
   lookup_table_length self' <= lookup_table_size self').
Proof.
  revert self. induction xs as [|x xs IH]; intros self; simpl.
  - split; [|done]. exists []. rewrite app_nil_r. done.
  - destruct (IH (append_entry h self (symbol (entry_of x)) (code (entry_of x))
                    (level (entry_of x)))) as ((kept & -> & Hkept) & -> & -> & Hcap).
    destruct (append_entry_any self (symbol (entry_of x)) (code (entry_of x))
                (level (entry_of x))) as (k1 & -> & Hk1 & -> & ->).
    split; [|split; [done|split; [done|]]].
    + exists (k1 ++ kept). rewrite <- app_assoc. split; [done|].
      change (entry_of x :: List.map entry_of xs)
        with ([entry_of x] ++ List.map entry_of xs).
      apply sublist_app; [|done]. by destruct (entry_of x).
    + intros Hpos Hle. apply Hcap; by apply append_entry_capacity.
Qed.

Lemma key_iter_any map c self :
  (exists kept,
     lookup_table (key_iter h map c self) = lookup_table self ++ kept /\
     kept `sublist_of` key_triples map c) /\
  keymap (key_iter h map c self) = keymap self /\
  key_state (key_iter h map c self) = key_state self /\
  (0 < lookup_table_size self ->
   lookup_table_length self <= lookup_table_size self ->
   0 < lookup_table_size (key_iter h map c self) /\
   lookup_table_length (key_iter h map c self)
     <= lookup_table_size (key_iter h map c self)).
Proof.
  unfold key_iter, key_triples.
  generalize (seq 0 (xkb_keymap_num_levels_for_key map c 0)). intros levels.
  revert self. induction levels as [|lv levels IH]; intros self; simpl.
  - split; [|done]. exists []. rewrite app_nil_r. done.
  - pose proof (append_loop_any (fun sym => TableEntry sym c (Z.of_nat lv))
                  (xkb_keymap_key_get_syms_by_level map c 0 lv) self) as Hinner.
    simpl in Hinner. destruct Hinner as ((k1 & Hk1 & Hs1) & Hm1 & Hst1 & Hcap1).
    match goal with |- context [fold_left _ levels ?s] =>
      destruct (IH s) as ((kept & -> & Hkept) & -> & -> & Hcap)
    end.
    rewrite Hk1, Hm1, Hst1.
    split; [|split; [done|split; [done|]]].
    + exists (k1 ++ kept). rewrite <- app_assoc. split; [done|].
      by apply sublist_app.
    + intros Hpos Hle. apply Hcap; by apply Hcap1.
Qed.

Lemma key_for_each_any keys self :
  let self' := fold_left (fun self c => key_iter h (keymap self) c self) keys self in
  (exists kept,
     lookup_table self' = lookup_table self ++ kept /\
     kept `sublist_of` flat_map (key_triples (keymap self)) keys) /\
  keymap self' = keymap self /\ key_state self' = key_state self /\
  (0 < lookup_table_size self ->
   lookup_table_length self <= lookup_table_size self ->
   0 < lookup_table_size self' /\
   lookup_table_length self' <= lookup_table_size self').
Proof.
  revert self. induction keys as [|c keys IH]; intros self; simpl.
  - split; [|done]. exists []. rewrite app_nil_r. done.
  - destruct (key_iter_any (keymap self) c self)
      as ((k1 & Hk1 & Hs1) & Hm1 & Hst1 & Hcap1).
    destruct (IH (key_iter h (keymap self) c self))
      as ((kept & -> & Hkept) & -> & -> & Hcap).
    rewrite Hk1, Hm1, Hst1. rewrite Hm1 in Hkept.
    split; [|split; [done|split; [done|]]].
    + exists (k1 ++ kept). rewrite <- app_assoc. split; [done|].
      by apply sublist_app.
    + intros Hpos Hle. apply Hcap; by apply Hcap1.
Qed.

End AnyHeap.

(** X1.  Whatever the allocator answers to the [realloc] calls,
    [create_lookup_table] returns 0 once its [malloc] succeeded, leaves the
    keymap and the key state alone, and the table it leaves is in (symbol,
    level) order and holds only triples of the keymap, none more often than
    the keymap lists it: a failed [realloc] loses entries, it never invents
    or repeats one.  When the [malloc] fails the function returns -1 with
    an empty table. *)
Theorem create_lookup_table_any_allocator
    (L : Libc) (LS : QsortSpec L) (h : heap) (self : keyboard) :
  let r := create_lookup_table true h self in
  fst r = 0 /\
  StronglySorted entry_le (lookup_table (snd r)) /\
  lookup_table (snd r) ⊆+ keymap_triples (keymap self) /\
  (forall e, In e (lookup_table (snd r)) -> triple_present (keymap self) e) /\
  keymap (snd r) = keymap self /\
  key_state (snd r) = key_state self /\
  fst (create_lookup_table false h self) = -1 /\
  lookup_table (snd (create_lookup_table false h self)) = [].
Proof.
  intros r. unfold r, create_lookup_table. simpl.
  destruct (key_for_each_any h (keymap_keys (keymap self))
              (set_lookup_table self [] 128))
    as ((kept & Hkept & Hsub) & Hmap & Hstate & _).
  simpl in Hkept, Hsub, Hmap, Hstate. rewrite Hkept, Hmap, Hstate.
  assert (qsort kept compare_symbols ⊆+ keymap_triples (keymap self)) as Hin.
  { rewrite qsort_permutation. by apply sublist_submseteq. }
  split; [done|]. split; [apply ascending_entry_le, qsort_ascending|].
  split; [exact Hin|]. split; [|done].
  intros e He. apply keymap_triples_spec, list_elem_of_In.
  eapply elem_of_submseteq; [|exact Hin]. by apply list_elem_of_In.
Qed.

Lemma create_lookup_table_any_allocator_witness :
  QsortSpec ref_libc /\
  let r := @create_lookup_table ref_libc true (fun n => Nat.even n)
             example_keyboard in
  fst r = 0 /\
  StronglySorted entry_le (lookup_table (snd r)) /\
  lookup_table (snd r) ⊆+ keymap_triples (keymap example_keyboard) /\
  (forall e, In e (lookup_table (snd r)) ->
             triple_present (keymap example_keyboard) e) /\
  keymap (snd r) = keymap example_keyboard /\
  key_state (snd r) = key_state example_keyboard /\
  fst (@create_lookup_table ref_libc false (fun n => Nat.even n)
         example_keyboard) = -1 /\
  lookup_table (snd (@create_lookup_table ref_libc false (fun n => Nat.even n)
                       example_keyboard)) = [].
Proof.
  split; [exact ref_qsort_spec|].
  exact (create_lookup_table_any_allocator ref_libc ref_qsort_spec
           (fun n => Nat.even n) example_keyboard).
Defined.

(** X2.  The table never outgrows its allocation: after
    [create_lookup_table], whatever the allocator answered, the number of
    entries is at most the capacity [lookup_table_size], which is
    positive.  Every [append_entry] keeps this, so each entry is stored
    inside the allocated array. *)
Theorem create_lookup_table_capacity
    (L : Libc) (LS : QsortSpec L) (h : heap) (self : keyboard) :
  let self' := snd (create_lookup_table true h self) in
  0 < lookup_table_size self' /\
  lookup_table_length self' <= lookup_table_size self' /\
  forall s sym c lv,
    0 < lookup_table_size s ->
    lookup_table_length s <= lookup_table_size s ->
    0 < lookup_table_size (append_entry h s sym c lv) /\
    lookup_table_length (append_entry h s sym c lv)
      <= lookup_table_size (append_entry h s sym c lv).
Proof.
  intros self'. unfold self', create_lookup_table. simpl.
  destruct (key_for_each_any h (keymap_keys (keymap self))
              (set_lookup_table self [] 128)) as (_ & _ & _ & Hcap).
  destruct Hcap as [Hpos Hle]; [simpl; lia|unfold lookup_table_length; simpl; lia|].
  split; [exact Hpos|]. split.
  - unfold lookup_table_length in *. simpl.
    rewrite (Permutation_length (qsort_permutation _ _)). exact Hle.
  - intros s sym c lv. apply append_entry_capacity.
Qed.

Lemma create_lookup_table_capacity_witness :
  QsortSpec ref_libc /\
  let self' := snd (@create_lookup_table ref_libc true (fun _ => true)
                      example_keyboard) in
  0 < lookup_table_size self' /\
  lookup_table_length self' <= lookup_table_size self' /\
  forall s sym c lv,
    0 < lookup_table_size s ->
    lookup_table_length s <= lookup_table_size s ->
    0 < lookup_table_size (append_entry (fun _ => true) s sym c lv) /\
    lookup_table_length (append_entry (fun _ => true) s sym c lv)
      <= lookup_table_size (append_entry (fun _ => true) s sym c lv).
Proof.
  split; [exact ref_qsort_spec|].
  exact (create_lookup_table_capacity ref_libc ref_qsort_spec (fun _ => true)
           example_keyboard).
Defined.

(** ** The comparison functions together *)

(** X3.  [qsort] is called with [compare_symbols] and [bsearch] with
    [compare_symbols2]: an array in ascending order for the first is
    partitioned, as [bsearch] requires, for the second and every key.
    [compare_symbols] itself is a three-way comparison: swapping the
    arguments negates it, it is 0 exactly on entries with the same symbol
    and level, and "not greater" is transitive. *)
Theorem compare_symbols_consistent (table : list table_entry) (key : table_entry) :
  (ascending compare_symbols table -> partitioned compare_symbols2 key table) /\
  (forall x y, compare_symbols x y = - compare_symbols y x) /\
  (forall x y, compare_symbols x y = 0 <->
               symbol x = symbol y /\ level x = level y) /\
  (forall x y z, compare_symbols x y <= 0 -> compare_symbols y z <= 0 ->
                 compare_symbols x z <= 0) /\
  (forall x y, compare_symbols2 x y = - compare_symbols2 y x).
Proof.
  split; [intros Hasc; by apply sorted_partitioned, ascending_entry_le|].
  split; [|split; [|split]].
  - intros x y. unfold compare_symbols.
    destruct (Z.eqb_spec (symbol x) (symbol y)), (Z.eqb_spec (symbol y) (symbol x));
      try lia.
    + destruct (Z.ltb_spec (level x) (level y)), (Z.ltb_spec (level y) (level x)),
        (Z.gtb_spec (level x) (level y)), (Z.gtb_spec (level y) (level x));
        simpl; lia.
    + destruct (Z.ltb_spec (symbol x) (symbol y)), (Z.ltb_spec (symbol y) (symbol x)),
        (Z.gtb_spec (symbol x) (symbol y)), (Z.gtb_spec (symbol y) (symbol x));
        simpl; lia.
  - intros x y. unfold compare_symbols.
    destruct (Z.eqb_spec (symbol x) (symbol y)).
    + destruct (Z.ltb_spec (level x) (level y)), (Z.gtb_spec (level x) (level y));
        simpl; lia.
    + destruct (Z.ltb_spec (symbol x) (symbol y)), (Z.gtb_spec (symbol x) (symbol y));
        simpl; lia.
  - intros x y z. rewrite !compare_symbols_le. apply entry_le_trans.
  - intros x y. unfold compare_symbols2.
    destruct (Z.ltb_spec (symbol x) (symbol y)), (Z.ltb_spec (symbol y) (symbol x)),
      (Z.gtb_spec (symbol x) (symbol y)), (Z.gtb_spec (symbol y) (symbol x));
      simpl; lia.
Qed.

(** ** Looking symbols up *)

Lemma walk_left_least (table : list table_entry) sym entry e0 :
  StronglySorted entry_le table ->
  table !! entry = Some e0 -> symbol e0 = sym ->
  forall j e', table !! j = Some e' -> symbol e' = sym ->
               (walk_left table sym entry <= j)%nat.
Proof.
  intros Hsorted He0 Hsym j e' Hj He'.
  destruct (walk_left_spec table sym entry e0 He0 Hsym) as (_ & e & He & Hes & Hstop).
  destruct (Nat.le_gt_cases (walk_left table sym entry) j) as [|Hlt]; [done|exfalso].
  destruct (walk_left table sym entry) as [|prev] eqn:Hw; [lia|].
  assert (is_Some (table !! prev)) as [p Hp].
  { apply lookup_lt_is_Some. apply lookup_lt_Some in He. lia. }
  apply (Hstop prev p eq_refl Hp).
  pose proof (StronglySorted_lookup _ prev (S prev) p e Hsorted
                (Nat.lt_succ_diag_r prev) Hp He) as H1.
  destruct (decide (j = prev)) as [->|Hne]; [congruence|].
  assert (j < prev)%nat as Hjp by lia.
  pose proof (StronglySorted_lookup _ j prev e' p Hsorted Hjp Hj Hp) as H2.
  unfold entry_le in *. lia.
Qed.

Lemma find_symbol_present (L : Libc) (LS : BsearchSpec L) self e :
  StronglySorted entry_le (lookup_table self) ->
  In e (lookup_table self) ->
  exists idx e',
    keyboard_find_symbol self (symbol e) = Some idx /\
    lookup_table self !! idx = Some e' /\
    symbol e' = symbol e /\ level e' <= level e.
Proof.
  intros Hsorted He. unfold keyboard_find_symbol.
  set (cmp := {| symbol := symbol e; code := 0; level := 0 |}).
  pose proof (sorted_partitioned (lookup_table self) cmp Hsorted) as Hpart.
  destruct (bsearch cmp (lookup_table self) compare_symbols2) as [entry|] eqn:Hb.
  - destruct (bsearch_found _ _ _ Hpart Hb) as (e0 & He0 & Hc%compare_symbols2_zero).
    simpl in Hc.
    destruct (walk_left_spec (lookup_table self) (symbol e) entry e0 He0 (eq_sym Hc))
      as (_ & e' & He' & Hes & _).
    exists (walk_left (lookup_table self) (symbol e) entry), e'.
    split; [done|]. split; [done|]. split; [done|].
    apply list_elem_of_In, list_elem_of_lookup_1 in He as [j Hj].
    pose proof (walk_left_least _ _ _ _ Hsorted He0 (eq_sym Hc) j e Hj eq_refl) as Hle.
    destruct (decide (walk_left (lookup_table self) (symbol e) entry = j)) as [Heq|Hne].
    + rewrite Heq in He'. assert (e' = e) as -> by congruence. lia.
    + assert (walk_left (lookup_table self) (symbol e) entry < j)%nat as Hlt by lia.
      pose proof (StronglySorted_lookup _ _ _ e' e Hsorted Hlt He' Hj) as H1.
      unfold entry_le in H1. lia.
  - exfalso. apply list_elem_of_In in He.
    apply (bsearch_missing _ _ Hpart Hb e He).
    apply compare_symbols2_zero. done.
Qed.

(** X4.  Build, then look up.  With the allocations succeeding, every
    symbol the keymap lists at layout 0 resolves in the table
    [create_lookup_table] builds: [keyboard_find_symbol] returns an entry
    with that symbol whose (code, level) is one the keymap gives for the
    symbol, at a level no higher than any other way to type it. *)
Theorem keyboard_find_symbol_resolves
    (L : Libc) (LQ : QsortSpec L) (LB : BsearchSpec L) (h : heap)
    (self : keyboard) (e : table_entry)
    (Hheap : forall n, h n = true)
    (Hpresent : triple_present (keymap self) e) :
  let self' := snd (create_lookup_table true h self) in
  exists idx e',
    keyboard_find_symbol self' (symbol e) = Some idx /\
    lookup_table self' !! idx = Some e' /\
    symbol e' = symbol e /\
    triple_present (keymap self) e' /\
    level e' <= level e.
Proof.
  intros self'.
  assert (lookup_table self' = qsort (keymap_triples (keymap self)) compare_symbols)
    as Htable.
  { unfold self'. by rewrite (create_lookup_table_result h Hheap). }
  assert (StronglySorted entry_le (lookup_table self')) as Hsorted.
  { rewrite Htable. apply ascending_entry_le, qsort_ascending. }
  assert (forall x, In x (lookup_table self') <-> triple_present (keymap self) x)
    as Hin.
  { intros x. rewrite Htable, <- keymap_triples_spec.
    split; apply Permutation_in;
      [apply qsort_permutation|symmetry; apply qsort_permutation]. }
  destruct (find_symbol_present L LB self' e Hsorted (proj2 (Hin e) Hpresent))
    as (idx & e' & Hfind & He' & Hsym & Hlevel).
  exists idx, e'. split; [done|]. split; [done|]. split; [done|].
  split; [|done].
  apply Hin, list_elem_of_In. by eapply list_elem_of_lookup_2.
Qed.

Lemma example_present : triple_present (keymap example_keyboard) (TableEntry 97 24 2).
Proof.
  split; [simpl; lia|]. exists 2%nat. simpl. split; [lia|]. split; [done|]. by left.
Qed.

Lemma keyboard_find_symbol_resolves_witness :
  QsortSpec ref_libc /\ BsearchSpec ref_libc /\
  (forall n : nat, (fun _ => true) n = true) /\
  triple_present (keymap example_keyboard) (TableEntry 97 24 2) /\
  let self' := snd (@create_lookup_table ref_libc true (fun _ => true)
                      example_keyboard) in
  exists idx e',
    @keyboard_find_symbol ref_libc self' 97 = Some idx /\
    lookup_table self' !! idx = Some e' /\
    symbol e' = 97 /\
    triple_present (keymap example_keyboard) e' /\
    level e' <= 2.
Proof.
  split; [exact ref_qsort_spec|]. split; [exact ref_bsearch_spec|].
  split; [reflexivity|]. split; [exact example_present|].
  exact (keyboard_find_symbol_resolves ref_libc ref_qsort_spec ref_bsearch_spec
           (fun _ => true) example_keyboard (TableEntry 97 24 2)
           (fun _ => eq_refl) example_present).
Defined.

(** ** Feeding keys *)

Lemma set_insert_member (c : Z) (ks : gset Z) : c ∈ ks -> ks = {[ c ]} ∪ ks.
Proof.
  intros Hc. apply set_eq. intros x. rewrite elem_of_union, elem_of_singleton.
  intuition (subst; auto).
Qed.

Lemma set_insert_remove (c : Z) (ks : gset Z) :
  ({[ c ]} ∪ ks) ∖ {[ c ]} = ks ∖ {[ c ]}.
Proof.
  apply set_eq. intros x.
  rewrite !elem_of_difference, elem_of_union, elem_of_singleton.
  intuition (subst; auto; congruence).
Qed.

(** X5.  A symbol that no entry of the table carries is dropped:
    [keyboard_feed] sends nothing and leaves the structure as it was,
    whether the key is reported pressed or released. *)
Theorem keyboard_feed_unknown_symbol
    (L : Libc) (LB : BsearchSpec L) (self : keyboard) (sym : Z) (is_pressed : bool)
    (Hsorted : StronglySorted entry_le (lookup_table self))
    (Habsent : forall e, In e (lookup_table self) -> symbol e <> sym) :
  keyboard_find_symbol self sym = None /\
  keyboard_feed self sym is_pressed = (self, []).
Proof.
  assert (keyboard_find_symbol self sym = None) as Hfind.
  { unfold keyboard_find_symbol.
    set (cmp := {| symbol := sym; code := 0; level := 0 |}).
    pose proof (sorted_partitioned (lookup_table self) cmp Hsorted) as Hpart.
    destruct (bsearch cmp (lookup_table self) compare_symbols2) as [entry|] eqn:Hb;
      [exfalso|done].
    destruct (bsearch_found _ _ _ Hpart Hb) as (e0 & He0 & Hc%compare_symbols2_zero).
    apply (Habsent e0); [|by rewrite <- Hc].
    by apply list_elem_of_In, list_elem_of_lookup_2 with entry. }
  split; [exact Hfind|]. unfold keyboard_feed. by rewrite Hfind.
Qed.

Lemma example_no_euro : forall e, In e (lookup_table example_ready) -> symbol e <> 8364.
Proof.
  rewrite example_ready_table. intros e He. simpl in He.
  repeat (destruct He as [<-|He]; [simpl; lia|]). destruct He.
Qed.

Lemma keyboard_feed_unknown_symbol_witness :
  BsearchSpec ref_libc /\
  StronglySorted entry_le (lookup_table example_ready) /\
  (forall e, In e (lookup_table example_ready) -> symbol e <> 8364) /\
  @keyboard_find_symbol ref_libc example_ready 8364 = None /\
  @keyboard_feed ref_libc example_ready 8364 true = (example_ready, []).
Proof.
  split; [exact ref_bsearch_spec|]. split; [exact example_ready_sorted|].
  split; [exact example_no_euro|].
  exact (keyboard_feed_unknown_symbol ref_libc ref_bsearch_spec example_ready
           8364 true example_ready_sorted example_no_euro).
Defined.

(** X6.  Press, then release.  For a symbol that resolves to an entry,
    [feed(symbol, true)] followed by [feed(symbol, false)] leaves the
    entry's code out of the key state set, whatever the set held before:
    the set is the initial one without that code.  From a key that is up
    the two calls send a modifiers request and the key press, then a
    modifiers request and the key release, with the same mask and the same
    wire code. *)
Theorem keyboard_feed_press_release
    (L : Libc) (self : keyboard) (sym : Z) (idx : nat) (entry : table_entry)
    (Hfind : keyboard_find_symbol self sym = Some idx)
    (Hentry : lookup_table self !! idx = Some entry) :
  let pressed := keyboard_feed self sym true in
  let released := keyboard_feed (fst pressed) sym false in
  intset_is_set (key_state (fst pressed)) (code entry) = true /\
  intset_is_set (key_state (fst released)) (code entry) = false /\
  key_state (fst released) = key_state self ∖ {[ code entry ]} /\
  (intset_is_set (key_state self) (code entry) = false ->
   snd pressed ++ snd released
   = [VkModifiers 0 (mods_for_level (keymap self) (code entry) (level entry)) 0 0;
      VkKey 0 (u32 (code entry - 8)) WL_KEYBOARD_KEY_STATE_PRESSED;
      VkModifiers 0 (mods_for_level (keymap self) (code entry) (level entry)) 0 0;
      VkKey 0 (u32 (code entry - 8)) WL_KEYBOARD_KEY_STATE_RELEASED]).
Proof.
  intros pressed released.
  assert (lookup_table (fst pressed) = lookup_table self
          /\ keymap (fst pressed) = keymap self) as [Htable Hmap]
    by apply keyboard_feed_table.
  assert (key_state (fst pressed) = {[ code entry ]} ∪ key_state self) as Hks.
  { unfold pressed, keyboard_feed. rewrite Hfind, Hentry.
    unfold intset_is_set, intset_set.
    destruct (bool_decide (code entry ∈ key_state self)) eqn:Hin; simpl; [|done].
    apply bool_decide_eq_true in Hin. by apply set_insert_member. }
  assert (intset_is_set (key_state (fst pressed)) (code entry) = true) as Hdown.
  { unfold intset_is_set. rewrite Hks. apply bool_decide_eq_true_2.
    apply elem_of_union_l. by apply elem_of_singleton. }
  assert (released
          = (set_key_state (fst pressed)
               (intset_clear (key_state (fst pressed)) (code entry)),
             [VkModifiers 0 (mods_for_level (keymap self) (code entry)
                               (level entry)) 0 0;
              VkKey 0 (u32 (code entry - 8)) WL_KEYBOARD_KEY_STATE_RELEASED]))
    as Hreleased.
  { unfold released, keyboard_feed.
    rewrite (keyboard_find_symbol_table self (fst pressed) sym Htable).
    rewrite Hfind, Htable, Hentry, Hdown, Hmap. done. }
  split; [exact Hdown|]. rewrite Hreleased. simpl. split; [|split].
  - unfold intset_is_set, intset_clear. apply bool_decide_eq_false_2.
    intros [_ Hn]%elem_of_difference. apply Hn. by apply elem_of_singleton.
  - unfold intset_clear. rewrite Hks. apply set_insert_remove.
  - intros Hup. unfold pressed, keyboard_feed. rewrite Hfind, Hentry, Hup. done.
Qed.

Lemma keyboard_feed_press_release_witness :
  @keyboard_find_symbol ref_libc example_ready 65 = Some 2%nat /\
  lookup_table example_ready !! 2%nat = Some (TableEntry 65 38 1) /\
  let pressed := @keyboard_feed ref_libc example_ready 65 true in
  let released := @keyboard_feed ref_libc (fst pressed) 65 false in
  intset_is_set (key_state (fst pressed)) 38 = true /\
  intset_is_set (key_state (fst released)) 38 = false /\
  key_state (fst released) = key_state example_ready ∖ {[ 38 ]} /\
  (intset_is_set (key_state example_ready) 38 = false ->
   snd pressed ++ snd released
   = [VkModifiers 0 (mods_for_level (keymap example_ready) 38 1) 0 0;
      VkKey 0 (u32 (38 - 8)) WL_KEYBOARD_KEY_STATE_PRESSED;
      VkModifiers 0 (mods_for_level (keymap example_ready) 38 1) 0 0;
      VkKey 0 (u32 (38 - 8)) WL_KEYBOARD_KEY_STATE_RELEASED]).
Proof.
  assert (@keyboard_find_symbol ref_libc example_ready 65 = Some 2%nat) as Hfind
    by (vm_compute; reflexivity).
  assert (lookup_table example_ready !! 2%nat = Some (TableEntry 65 38 1)) as Hentry
    by (vm_compute; reflexivity).
  split; [exact Hfind|]. split; [exact Hentry|].
  exact (keyboard_feed_press_release ref_libc example_ready 65 2%nat
           (TableEntry 65 38 1) Hfind Hentry).
Defined.

(** X7.  What [keyboard_feed] leaves alone.  No call changes the lookup
    table or the keymap; a call sends either nothing or exactly two
    requests; and the only key whose pressed state can change is the one
    the symbol resolves to: every other code is in the key state set after
    the call exactly when it was before.  Two symbols on the same key
    therefore share one pressed state. *)
Theorem keyboard_feed_frame
    (L : Libc) (self : keyboard) (sym : Z) (is_pressed : bool) :
  let r := keyboard_feed self sym is_pressed in
  lookup_table (fst r) = lookup_table self /\
  keymap (fst r) = keymap self /\
  (snd r = [] \/ length (snd r) = 2%nat) /\
  (snd r = [] -> fst r = self) /\
  forall c,
    (forall idx entry,
       keyboard_find_symbol self sym = Some idx ->
       lookup_table self !! idx = Some entry -> code entry <> c) ->
    intset_is_set (key_state (fst r)) c = intset_is_set (key_state self) c.
Proof.
  intros r. unfold r, keyboard_feed.
  destruct (keyboard_find_symbol self sym) as [idx|]; [|by auto 10].
  destruct (lookup_table self !! idx) as [entry|] eqn:Hentry; [|by auto 10].
  destruct (Bool.eqb _ _); [by auto 10|]. simpl.
  split; [done|]. split; [done|]. split; [by right|]. split; [done|].
  intros c Hother. specialize (Hother idx entry eq_refl Hentry).
  unfold intset_is_set, intset_set, intset_clear.
  apply bool_decide_ext. destruct is_pressed.
  - rewrite elem_of_union, elem_of_singleton. intuition congruence.
  - rewrite elem_of_difference, elem_of_singleton. intuition congruence.
Qed.

End KeyboardMore.

(** * Set-up and tear-down of the keyboard *)

Module KeyboardInitProofs.
Import Intset Keyboard KeyboardInit.

Lemma write_loop_account outcomes d size written rest held :
  account (snd (write_loop outcomes d size written) ++ rest) held
  = account rest held.
Proof.
  revert written. induction outcomes as [|o outcomes IH]; intros written; simpl.
  - by destruct (written <? size).
  - destruct (written <? size); [|done]. destruct o; simpl; auto.
Qed.

Lemma write_loop_exact outcomes d size written :
  0 <= written <= size -> size < UINT64_MOD ->
  Forall write_contract (snd (write_loop outcomes d size written)) ->
  fst (write_loop outcomes d size written) = Some true ->
  written + bytes_written (snd (write_loop outcomes d size written)) = size /\
  writes_contiguous size written (snd (write_loop outcomes d size written)).
Proof.
  revert written. induction outcomes as [|o outcomes IH];
    intros written Hw Hsize Hc Hdone; simpl in *.
  - destruct (Z.ltb_spec written size); simpl in *; [done|]. split; [lia|done].
  - destruct (Z.ltb_spec written size); simpl in *; [|split; [lia|done]].
    destruct o as [n| |]; simpl in *; [| |done].
    + apply Forall_cons in Hc as [Hn Hc]. simpl in Hn.
      assert (u64 (written + n) = written + n) as Hu
        by (unfold u64; apply Z.mod_small; lia).
      rewrite Hu in *.
      destruct (IH (written + n)) as [Hsum Hcont]; [lia|done|done|done|].
      split; [lia|]. done.
    + apply Forall_cons in Hc as [_ Hc].
      destruct (IH written) as [Hsum Hcont]; [lia|done|done|done|]. done.
Qed.

(** X8.  [keyboard_init] holds on to nothing when it fails.  Whatever the
    answers of xkbcommon, the allocator and the operating system, the
    function returns 0 or -1 once its write loop is over; every failure
    path releases exactly what was acquired before the failure, each
    resource once and none that is not held, the descriptor included; on
    success the descriptor and the keymap text are released and the
    context, the key state set, the keymap and the table stay, which are
    the four [keyboard_destroy] releases. *)
Theorem keyboard_init_balanced
    (L : Libc) (env : init_env) (self : keyboard) (layout variant : list Z) :
  let r := keyboard_init env self layout variant in
  match fst (fst r) with
  | Some rc =>
      (rc = 0 \/ rc = -1) /\
      account (snd r) []
        = Some (if rc =? 0 then [LookupTable; Keymap; KeyState; Context] else []) /\
      (rc = 0 -> account (snd r ++ keyboard_destroy) [] = Some [])
  | None =>
      account (snd r) []
        = Some [Descriptor (shm_alloc_fd env); KeymapString; LookupTable; Keymap;
                KeyState; Context]
  end.
Proof.
  intros r. unfold r, keyboard_init.
  destruct (xkb_context_new env); simpl;
    [|split; [by right|split; [done|intros; lia]]].
  destruct (intset_init_ok env); simpl;
    [|split; [by right|split; [done|intros; lia]]].
  destruct (xkb_keymap_new_from_names env) as [map|]; simpl;
    [|split; [by right|split; [done|intros; lia]]].
  unfold create_lookup_table.
  destruct (malloc_ok env); simpl;
    [|split; [by right|split; [done|intros; lia]]].
  destruct (xkb_keymap_get_as_string env) as [text|]; simpl;
    [|split; [by right|split; [done|intros; lia]]].
  destruct (Z.ltb_spec (shm_alloc_fd env) 0) as [Hfd|Hfd]; simpl.
  { destruct (Z.ltb_spec (shm_alloc_fd env) 0); [|lia]. simpl.
    split; [by right|split; [done|intros; lia]]. }
  set (size := u64 (Z.of_nat (length text) + 1)).
  destruct (fst (write_loop (writes env) (shm_alloc_fd env) size 0))
    as [[|]|] eqn:Hloop; simpl.
  all: destruct (Z.ltb_spec (shm_alloc_fd env) 0); [lia|].
  - split; [by left|].
    rewrite <- !app_assoc, !write_loop_account. simpl.
    destruct (decide (Descriptor (shm_alloc_fd env) = Descriptor (shm_alloc_fd env)));
      [|done].
    split; [done|]. intros _. simpl. done.
  - split; [by right|].
    rewrite write_loop_account. simpl.
    destruct (decide (Descriptor (shm_alloc_fd env) = Descriptor (shm_alloc_fd env)));
      [|done].
    split; [done|]. intros; lia.
  - rewrite <- (app_nil_r (snd (write_loop _ _ _ _))), write_loop_account. done.
Qed.

Lemma write_loop_no_request outcomes d size written :
  Forall (fun a => is_vk_keymap a = false)
         (snd (write_loop outcomes d size written)).
Proof.
  revert written. induction outcomes as [|o outcomes IH]; intros written; simpl.
  - destruct (written <? size); constructor.
  - destruct (written <? size); [|constructor].
    destruct o; simpl; repeat constructor; auto.
Qed.

(** X9.  The keymap reaches the virtual keyboard exactly when
    [keyboard_init] returns 0, and then once: the call list ends with the
    release of the text, the keymap request for the descriptor with size
    [strlen + 1], and the [close] of that descriptor.  By then the key
    state set is empty, the structure holds the compiled keymap, and, the
    [write] calls returning at most what they were asked for, exactly
    [strlen + 1] bytes have been written, each call starting where the one
    before ended.  On every other outcome no keymap request is sent. *)
Theorem keyboard_init_keymap_request
    (L : Libc) (env : init_env) (self : keyboard) (layout variant : list Z) :
  let r := keyboard_init env self layout variant in
  if decide (fst (fst r) = Some 0) then
    exists map text before,
      xkb_keymap_new_from_names env = Some map /\
      xkb_keymap_get_as_string env = Some text /\
      snd r = before ++
              [StringFree;
               VkKeymap WL_KEYBOARD_KEYMAP_FORMAT_XKB_V1 (shm_alloc_fd env)
                        (u64 (Z.of_nat (length text) + 1));
               Close (shm_alloc_fd env)] /\
      Forall (fun a => is_vk_keymap a = false) before /\
      keymap (snd (fst r)) = map /\
      key_state (snd (fst r)) = ∅ /\
      (Z.of_nat (length text) + 1 < UINT64_MOD ->
       Forall write_contract before ->
       bytes_written before = Z.of_nat (length text) + 1 /\
       writes_contiguous (Z.of_nat (length text) + 1) 0 before)
  else Forall (fun a => is_vk_keymap a = false) (snd r).
Proof.
  intros r. unfold r, keyboard_init.
  destruct (xkb_context_new env); simpl;
    [|try case_decide; try done; repeat constructor].
  destruct (intset_init_ok env); simpl;
    [|try case_decide; try done; repeat constructor].
  destruct (xkb_keymap_new_from_names env) as [map|]; simpl;
    [|try case_decide; try done; repeat constructor].
  destruct (KeyboardMore.key_for_each_any (realloc_ok env) (keymap_keys map)
              (set_lookup_table (set_keymap (set_key_state self intset_init) map)
                 [] 128)) as (_ & Hmap & Hstate & _).
  unfold create_lookup_table.
  destruct (malloc_ok env); simpl;
    [|try case_decide; try done; repeat constructor].
  destruct (xkb_keymap_get_as_string env) as [text|]; simpl;
    [|try case_decide; try done; repeat constructor].
  destruct (Z.ltb_spec (shm_alloc_fd env) 0) as [Hfd|Hfd]; simpl.
  { try case_decide; try done; repeat constructor. }
  set (d := shm_alloc_fd env) in *.
  destruct (fst (write_loop (writes env) d (u64 (Z.of_nat (length text) + 1)) 0))
    as [[|]|] eqn:Hloop; simpl.
  - try case_decide; try done.
    exists map, text,
      ([XkbContextNew true; IntsetInit true;
        XkbKeymapNewFromNames layout pc105 variant true; LookupTableMalloc true;
        XkbKeymapGetAsString true;
        ShmAllocFd (u64 (Z.of_nat (length text) + 1)) d] ++
       snd (write_loop (writes env) d (u64 (Z.of_nat (length text) + 1)) 0)).
    split; [done|]. split; [done|].
    split; [by rewrite <- app_assoc|].
    split; [repeat constructor; apply write_loop_no_request|].
    split; [exact Hmap|]. split; [exact Hstate|].
    intros Hlen Hcontract.
    assert (u64 (Z.of_nat (length text) + 1) = Z.of_nat (length text) + 1) as Hu
      by (unfold u64; apply Z.mod_small; lia).
    rewrite Hu in *. simpl.
    apply (write_loop_exact (writes env) d _ 0); [lia|done| |done].
    by repeat apply Forall_cons in Hcontract as [_ Hcontract].
  - try case_decide; try done.
    repeat constructor. apply Forall_app. split; [apply write_loop_no_request|].
    repeat constructor.
  - try case_decide; try done.
    repeat constructor. apply write_loop_no_request.
Qed.

(** By evaluation, with the answers of [env_ok]: the 12 bytes (the text
    and its terminator) go out in a call for 12 bytes that writes 8, an
    interrupted call and a call for the last 4; then the text is released,
    the keymap handed over and the descriptor closed. *)
Example keyboard_init_example :
  let r := @keyboard_init ref_libc env_ok example_keyboard [117; 115] [] in
  fst (fst r) = Some 0 /\
  snd (fst r) = example_ready /\
  snd r
  = [XkbContextNew true; IntsetInit true;
     XkbKeymapNewFromNames [117; 115] pc105 [] true; LookupTableMalloc true;
     XkbKeymapGetAsString true; ShmAllocFd 12 9;
     Write 9 0 12 (WriteOk 8); Write 9 8 4 WriteEintr; Write 9 8 4 (WriteOk 4);
     StringFree; VkKeymap 1 9 12; Close 9].
Proof. vm_compute. done. Qed.

(** X10.  The write loop ends only by completion or by an error.  A
    [write] that fails with something other than [EINTR] ends it with a
    failure and no further call; interrupted calls and calls that write
    nothing are repeated with the same offset and count, so that answers
    consisting of these alone, however many, never end the loop while bytes
    are left to write; and a loop whose every call writes between one byte
    and what it was asked for ends normally within as many calls as there
    are bytes left. *)
Theorem write_loop_progress (d size written : Z) (outcomes : list write_outcome) :
  (written < size ->
   Forall (fun o => o = WriteEintr \/ o = WriteOk 0) outcomes ->
   written < UINT64_MOD -> 0 <= written ->
   fst (write_loop outcomes d size written) = None /\
   Forall (fun a => a = Write d written (size - written) WriteEintr \/
                    a = Write d written (size - written) (WriteOk 0))
          (snd (write_loop outcomes d size written))) /\
  (written < size ->
   write_loop (WriteError :: outcomes) d size written
   = (Some false, [Write d written (size - written) WriteError])) /\
  (0 <= written -> size < UINT64_MOD ->
   Forall write_contract (snd (write_loop outcomes d size written)) ->
   Forall (fun o => exists n, o = WriteOk n /\ 1 <= n) outcomes ->
   size - written <= Z.of_nat (length outcomes) ->
   fst (write_loop outcomes d size written) = Some true).
Proof.
  split; [|split].
  - intros Hleft Hall Hmax Hpos.
    induction Hall as [|o outcomes Ho Hall IH]; simpl.
    + destruct (Z.ltb_spec written size); [done|lia].
    + destruct (Z.ltb_spec written size); [|lia].
      destruct IH as [IH1 IH2].
      destruct Ho as [->| ->]; simpl.
      * split; [done|]. constructor; [by left|done].
      * assert (u64 (written + 0) = written) as ->
          by (unfold u64; rewrite Z.add_0_r; apply Z.mod_small; lia).
        split; [done|]. constructor; [by right|done].
  - intros Hleft. simpl. destruct (Z.ltb_spec written size); [done|lia].
  - revert written. induction outcomes as [|o outcomes IH];
      intros written Hpos Hsize Hc Hall Hlen; simpl in *.
    + destruct (Z.ltb_spec written size); [lia|done].
    + destruct (Z.ltb_spec written size); [|done].
      apply Forall_cons in Hall as [(n & -> & Hn) Hall]. simpl in *.
      apply Forall_cons in Hc as [Hcn Hc]. simpl in Hcn.
      assert (u64 (written + n) = written + n) as Hu
        by (unfold u64; apply Z.mod_small; lia).
      rewrite Hu in *. apply IH; [lia|done|done|done|lia].
Qed.

(** A table that must grow.  The 193 entries of [wide_keymap] all land in
    the table when the [realloc]s succeed; when they fail the table keeps
    the 128 entries of its first allocation, still sorted, and the symbol
    of key 200 does not resolve. *)
Example create_lookup_table_wide_example :
  let kbd := set_keymap example_keyboard wide_keymap in
  let grown := snd (@create_lookup_table ref_libc true (fun _ => true) kbd) in
  let stuck := snd (@create_lookup_table ref_libc true (fun _ => false) kbd) in
  (length (lookup_table grown) = 193%nat /\ lookup_table_size grown = 256 /\
   @keyboard_find_symbol ref_libc grown 200 = Some 192%nat) /\
  (length (lookup_table stuck) = 128%nat /\ lookup_table_size stuck = 128 /\
   @keyboard_find_symbol ref_libc stuck 135 = Some 127%nat /\
   @keyboard_find_symbol ref_libc stuck 200 = None).
Proof. vm_compute. done. Qed.

End KeyboardInitProofs.

(** * Further properties of the screencopy back end *)

Module ScreencopyMore.
Import FrameCapture Screencopy ScreencopyRun CmdProofs.

Lemma added_app (w : world) (s : screencopy) (new : list action) :
  added w {| self := s; trace := trace w ++ new |} = new.
Proof. unfold added. simpl. apply drop_app_length. Qed.

Lemma aml_stop_started t : started (snd (aml_stop t)) = false.
Proof. unfold aml_stop. by destruct (started t) eqn:Hs. Qed.

(** [screencopy_stop], step by step. *)
Lemma screencopy_stop_spec w :
  exec screencopy_stop w
  = {| self :=
         {| frame_capture := frame_capture (self w); buffer := buffer (self w);
            pixels := pixels (self w); bufsize := bufsize (self w);
            frame := None; last_time := last_time (self w);
            start_time := start_time (self w);
            timer := snd (aml_stop (timer (self w)));
            delay := delay (self w) |};
       trace := trace w ++
                match frame (self w) with
                | Some f => [FrameDestroy f]
                | None => []
                end |}.
Proof.
  unfold screencopy_stop, exec. cmd_unfold.
  destruct w as [[fc b px sz [f|] lt st t dl] tr]; simpl; [done|].
  by rewrite app_nil_r.
Qed.

Ltac init_done :=
  cbn -[added]; rewrite <- ?app_assoc; cbn -[added]; rewrite added_app;
  cbn -[Z.leb Z.ltb Z.eqb].

Ltac init_cases :=
  split;
    [split; [intros ?; try done; auto
            |intros (? & ? & ? & ?); try done; try lia; congruence]|];
  split; [intros ?; done|];
  split; [done|];
  split; [intros d Hin; simpl in Hin; intuition congruence|];
  split; [intros ?; try done; lia|];
  done.

Ltac init_address :=
  split; [intros ?; done|];
  split; [intros a n Hin; simpl in Hin; intuition congruence|];
  split; [intros Hmf ? ? ?; first [done | lia | congruence]|];
  intros Hmf ? Hor; first [lia | congruence | rewrite <- Hmf; cbn; tauto
                          | destruct Hor; congruence].

(** X11.  [screencopy_buffer_init] never leaves the descriptor open, and
    what it takes for a mapping.  When no buffer is pooled yet, the
    descriptor [shm_alloc_fd] returns is closed exactly once on every path
    on which it was obtained, as the last thing the function does, and
    nothing is closed when the allocation failed.  The function returns 0
    exactly when the descriptor is not negative, the pointer [mmap] returns
    is not [NULL], and the pool and the buffer are created; otherwise it
    returns -1 and leaves the structure untouched.  [munmap] is called, on
    the pointer [mmap] returned, exactly when that pointer is not [NULL]
    and the pool or the buffer could not be created.  [mmap] reports a
    failure with [MAP_FAILED], not with [NULL]: a failed mapping passes the
    test, and [MAP_FAILED] is stored as [pixels] with result 0 when the pool
    and the buffer are created, and handed to [munmap] when they are
    not. *)
Theorem screencopy_buffer_init_descriptor
    (env : shm_env) (fmt width height stride : Z) (w : world)
    (Hnone : buffer (self w) = None) :
  let r := screencopy_buffer_init env fmt width height stride w in
  let new := added w (snd r) in
  (fst r = 0 <->
   0 <= shm_alloc_fd env /\ mmap env <> 0 /\
   wl_shm_create_pool env = true /\ wl_shm_pool_create_buffer env = true) /\
  (fst r <> 0 -> fst r = -1 /\ self (snd r) = self w) /\
  count is_close new = (if shm_alloc_fd env <? 0 then 0%nat else 1%nat) /\
  (forall d, In (Close d) new -> d = shm_alloc_fd env) /\
  (0 <= shm_alloc_fd env -> last new = Some (Close (shm_alloc_fd env))) /\
  count is_munmap new
  = (if (0 <=? shm_alloc_fd env) && negb (mmap env =? 0) &&
        negb (wl_shm_create_pool env && wl_shm_pool_create_buffer env)
     then 1%nat else 0%nat) /\
  (fst r = 0 -> pixels (self (snd r)) = mmap env) /\
  (forall a n, In (Munmap a n) new ->
     a = mmap env /\ n = u32 (stride * height)) /\
  (mmap env = MAP_FAILED -> 0 <= shm_alloc_fd env ->
   wl_shm_create_pool env = true -> wl_shm_pool_create_buffer env = true ->
   fst r = 0 /\ pixels (self (snd r)) = MAP_FAILED) /\
  (mmap env = MAP_FAILED -> 0 <= shm_alloc_fd env ->
   wl_shm_create_pool env = false \/ wl_shm_pool_create_buffer env = false ->
   In (Munmap MAP_FAILED (u32 (stride * height))) new).
Proof.
  intros r new.
  assert ((fst r = 0 <->
           0 <= shm_alloc_fd env /\ mmap env <> 0 /\
           wl_shm_create_pool env = true /\
           wl_shm_pool_create_buffer env = true) /\
          (fst r <> 0 -> fst r = -1 /\ self (snd r) = self w) /\
          count is_close new
          = (if shm_alloc_fd env <? 0 then 0%nat else 1%nat) /\
          (forall d, In (Close d) new -> d = shm_alloc_fd env) /\
          (0 <= shm_alloc_fd env ->
           last new = Some (Close (shm_alloc_fd env))) /\
          count is_munmap new
          = (if (0 <=? shm_alloc_fd env) && negb (mmap env =? 0) &&
                negb (wl_shm_create_pool env && wl_shm_pool_create_buffer env)
             then 1%nat else 0%nat))
    as (Hrc & Hfail & Hclose & Hfd & Hlast & Hunmap).
  { unfold new, r, screencopy_buffer_init. cmd_unfold. rewrite Hnone.
    destruct (Z.ltb_spec (shm_alloc_fd env) 0) as [Hneg|Hneg].
    { init_done. destruct (Z.leb_spec 0 (shm_alloc_fd env)); [lia|].
      init_cases. }
    destruct (Z.leb_spec 0 (shm_alloc_fd env)); [|lia].
    destruct (Z.eqb_spec (mmap env) 0) as [Haddr|Haddr];
      [init_done; init_cases|].
    destruct (wl_shm_create_pool env) eqn:Hpool; [|init_done; init_cases].
    destruct (wl_shm_pool_create_buffer env) eqn:Hbuf; init_done; init_cases. }
  repeat (split; [assumption|]).
  unfold new, r, screencopy_buffer_init, MAP_FAILED. cmd_unfold. rewrite Hnone.
  destruct (Z.ltb_spec (shm_alloc_fd env) 0) as [Hneg|Hneg];
    [init_done; init_address|].
  destruct (Z.eqb_spec (mmap env) 0) as [Haddr|Haddr];
    [init_done; init_address|].
  destruct (wl_shm_create_pool env) eqn:Hpool; [|init_done; init_address].
  destruct (wl_shm_pool_create_buffer env) eqn:Hbuf; init_done; init_address.
Qed.

Lemma screencopy_buffer_init_descriptor_witness :
  let env := {| shm_alloc_fd := 7; mmap := MAP_FAILED;
                wl_shm_create_pool := true;
                wl_shm_pool_create_buffer := true |} in
  buffer (self capturing) = None /\
  let r := screencopy_buffer_init env 1 2 2 8 capturing in
  let new := added capturing (snd r) in
  (fst r = 0 <->
   0 <= shm_alloc_fd env /\ mmap env <> 0 /\
   wl_shm_create_pool env = true /\ wl_shm_pool_create_buffer env = true) /\
  (fst r <> 0 -> fst r = -1 /\ self (snd r) = self capturing) /\
  count is_close new = (if shm_alloc_fd env <? 0 then 0%nat else 1%nat) /\
  (forall d, In (Close d) new -> d = shm_alloc_fd env) /\
  (0 <= shm_alloc_fd env -> last new = Some (Close (shm_alloc_fd env))) /\
  count is_munmap new
  = (if (0 <=? shm_alloc_fd env) && negb (mmap env =? 0) &&
        negb (wl_shm_create_pool env && wl_shm_pool_create_buffer env)
     then 1%nat else 0%nat) /\
  (fst r = 0 -> pixels (self (snd r)) = mmap env) /\
  (forall a n, In (Munmap a n) new -> a = mmap env /\ n = u32 (8 * 2)) /\
  (mmap env = MAP_FAILED -> 0 <= shm_alloc_fd env ->
   wl_shm_create_pool env = true -> wl_shm_pool_create_buffer env = true ->
   fst r = 0 /\ pixels (self (snd r)) = MAP_FAILED) /\
  (mmap env = MAP_FAILED -> 0 <= shm_alloc_fd env ->
   wl_shm_create_pool env = false \/ wl_shm_pool_create_buffer env = false ->
   In (Munmap MAP_FAILED (u32 (8 * 2))) new).
Proof.
  intros env. split; [reflexivity|].
  exact (screencopy_buffer_init_descriptor env 1 2 2 8 capturing eq_refl).
Defined.

(** A mapping that fails, by evaluation: the function goes on, creates the
    pool and the buffer over the descriptor, and returns 0 with
    [MAP_FAILED] as the address of the pixels. *)
Example screencopy_buffer_init_map_failed :
  let r := screencopy_buffer_init
             {| shm_alloc_fd := 7; mmap := MAP_FAILED;
                wl_shm_create_pool := true;
                wl_shm_pool_create_buffer := true |} 1 2 2 8 capturing in
  fst r = 0 /\
  pixels (self (snd r)) = -1 /\
  buffer (self (snd r)) = Some (WlBuffer 2 2 8 1) /\
  trace (snd r)
  = [ShmAllocFd 16; Mmap 16 7; ShmCreatePool 7 16;
     PoolCreateBuffer 0 2 2 8 1; PoolDestroy; Close 7].
Proof. vm_compute. done. Qed.

(** The failing pool creation, by evaluation: allocate, map, ask for the
    pool, unmap, close. *)
Example screencopy_buffer_init_example :
  screencopy_buffer_init env_no_pool 1 2 2 8 capturing
  = (-1, {| self := self capturing;
            trace := [ShmAllocFd 16; Mmap 16 7; ShmCreatePool 7 16;
                      Munmap 4096 16; Close 7] |}).
Proof. vm_compute. reflexivity. Qed.

Lemma count_app p l k : count p (l ++ k) = (count p l + count p k)%nat.
Proof. unfold count. by rewrite List.filter_app, length_app. Qed.

(** [screencopy_buffer_init] touches the pool only: the capture state stays
    and no capture request or completion appears. *)
Lemma screencopy_buffer_init_keeps env fmt width height stride w :
  let r := screencopy_buffer_init env fmt width height stride w in
  frame_capture (self (snd r)) = frame_capture (self w) /\
  frame (self (snd r)) = frame (self w) /\
  timer (self (snd r)) = timer (self w) /\
  last_time (self (snd r)) = last_time (self w) /\
  delay (self (snd r)) = delay (self w) /\
  exists new,
    trace (snd r) = trace w ++ new /\
    Forall (fun a => is_capture_output a = false /\ is_on_done a = false) new.
Proof.
  intros r. unfold r, screencopy_buffer_init. cmd_unfold.
  destruct (buffer (self w)).
  { repeat (split; [done|]). exists []. by rewrite app_nil_r. }
  destruct (shm_alloc_fd env <? 0);
    [|destruct (mmap env =? 0);
      [|destruct (wl_shm_create_pool env);
        [destruct (wl_shm_pool_create_buffer env)|]]];
    cbn; rewrite <- ?app_assoc; repeat (split; [done|]);
    eexists; (split; [reflexivity|]); repeat constructor.
Qed.

(** What one handler does to the capture state: the invariant is kept, and
    a capture request is sent at most once, and only with no frame object
    live. *)
Lemma handle_single_flight on_done ev w :
  keeps_capture on_done -> single_flight w ->
  let w' := exec (handle on_done ev) w in
  single_flight w' /\
  exists new,
    trace w' = trace w ++ new /\
    (count is_capture_output new <= 1)%nat /\
    (count is_capture_output new = 1%nat -> frame (self w) = None).
Proof.
  intros Hkeep [Htimer Hframe] w'. unfold w'. clear w'.
  destruct ev as [now now_capture nf| |bev|x y width height|now sm| |now nf];
    unfold handle.
  - (* start *)
    rewrite exec_bind. unfold screencopy_start. cmd_unfold.
    destruct (decide (status (frame_capture (self w)) = CAPTURE_IN_PROGRESS))
      as [Hst|Hst].
    { unfold exec. cmd_unfold. split; [done|].
      exists []. rewrite app_nil_r. split; [done|]. split; [cbn; lia|done]. }
    assert (frame (self w) = None) as Hnone.
    { destruct (frame (self w)) eqn:Hf; [|done]. by destruct Hst, Hframe. }
    assert (started (timer (self w)) = false) as Hidle.
    { destruct (started (timer (self w))) eqn:Hs; [|done].
      by destruct Hst, Htimer. }
    destruct (Double.ltb Double.zero (time_left now (self w))).
    + unfold exec, single_flight, aml_start, aml_set_duration. cmd_unfold.
      rewrite Hidle. cmd_unfold. rewrite Hnone. split; [done|].
      exists []. rewrite app_nil_r. split; [done|]. split; [cbn; lia|done].
    + unfold screencopy__start_capture, exec, single_flight. cmd_unfold.
      destruct nf; cmd_unfold; rewrite Hidle;
        (split; [done|]); eexists; (split; [reflexivity|]);
        (split; [cbn; lia|done]).
  - (* stop *)
    rewrite screencopy_stop_spec. unfold single_flight. cmd_unfold.
    rewrite aml_stop_started. split; [done|].
    eexists. split; [reflexivity|]. destruct (frame (self w)); cbn; split; lia.
  - (* buffer *)
    unfold handle_buffer, screencopy_buffer, exec. rewrite run_bind.
    destruct (screencopy_buffer_init_keeps (ev_env bev) (ev_format bev)
                (ev_width bev) (ev_height bev) (ev_stride bev) w)
      as (Hfc & Hfr & Htm & _ & _ & new & Htr & Hnew).
    destruct (screencopy_buffer_init (ev_env bev) (ev_format bev) (ev_width bev)
                (ev_height bev) (ev_stride bev) w) as [rc w1].
    cbn [fst snd] in *.
    assert (count is_capture_output new = 0%nat) as Hcount.
    { clear Htr. induction new as [|a new IH]; [done|].
      apply Forall_cons in Hnew as [[Ha _] Hnew]. unfold count in *. cbn.
      rewrite Ha. by apply IH. }
    destruct (rc <? 0).
    + unfold screencopy_stop. cmd_unfold. unfold single_flight.
      destruct (frame (self w1)); cmd_unfold;
        destruct (Hkeep
          {| frame_capture := with_status CAPTURE_FATAL (frame_capture (self w1));
             buffer := buffer (self w1); pixels := pixels (self w1);
             bufsize := bufsize (self w1); frame := None;
             last_time := last_time (self w1);
             start_time := start_time (self w1);
             timer := snd (aml_stop (timer (self w1)));
             delay := delay (self w1) |}) as [Hkt Hkf];
        cbn [timer frame] in Hkt, Hkf; rewrite Hkt, Hkf, aml_stop_started;
        (split; [done|]); rewrite Htr, <- !app_assoc;
        eexists; (split; [reflexivity|]);
        rewrite count_app, Hcount; cbn; split; lia.
    + cmd_unfold. unfold single_flight. cmd_unfold.
      rewrite Hfc, Hfr, Htm. split; [done|].
      rewrite Htr, <- !app_assoc. eexists. split; [reflexivity|].
      rewrite count_app, Hcount; cbn; split; lia.
  - (* damage *)
    unfold screencopy_damage, exec, single_flight. cmd_unfold. split; [done|].
    exists []. rewrite app_nil_r. split; [done|]. split; [cbn; lia|done].
  - (* ready *)
    unfold screencopy_ready, screencopy_stop, exec, single_flight. cmd_unfold.
    destruct (frame (self w)); cmd_unfold;
      match goal with
      | |- context [on_done ?s] => destruct (Hkeep s) as [Hkt Hkf]
      end;
      cbn [timer frame] in Hkt, Hkf; rewrite Hkt, Hkf, aml_stop_started;
      (split; [done|]); rewrite <- ?app_assoc;
      eexists; (split; [reflexivity|]); cbn; split; lia.
  - (* failed *)
    unfold screencopy_failed, screencopy_stop, exec, single_flight. cmd_unfold.
    destruct (frame (self w)); cmd_unfold;
      match goal with
      | |- context [on_done ?s] => destruct (Hkeep s) as [Hkt Hkf]
      end;
      cbn [timer frame] in Hkt, Hkf; rewrite Hkt, Hkf, aml_stop_started;
      (split; [done|]); rewrite <- ?app_assoc;
      eexists; (split; [reflexivity|]); cbn; split; lia.
  - (* timer *)
    unfold timer_expires, exec. cmd_unfold.
    destruct (started (timer (self w))) eqn:Hs.
    + destruct (Htimer eq_refl) as [Hst Hnone].
      unfold screencopy__poll, screencopy__start_capture, single_flight.
      cmd_unfold. destruct nf; cmd_unfold;
        (split; [done|]); eexists; (split; [reflexivity|]);
        (split; [cbn; lia|done]).
    + cbn [snd]. split; [split; [by rewrite Hs|done]|].
      exists []. rewrite app_nil_r. split; [done|]. split; [cbn; lia|].
      cbn. lia.
Qed.

Lemma run_single_flight on_done evs w :
  keeps_capture on_done -> single_flight w -> single_flight (run on_done evs w).
Proof.
  intros Hkeep. revert w. induction evs as [|ev evs IH]; intros w Hw; [done|].
  simpl. apply IH. by apply handle_single_flight.
Qed.

(** X12.  One capture at a time.  Whatever calls, protocol events and timer
    expiries reach a back end that starts from [screencopy_init], as long
    as the continuation leaves the timer and the frame object alone: a
    pending timer and a live frame object exclude each other and occur only
    with status IN_PROGRESS; and every handler sends at most one capture
    request, and sends it only when no frame object is live, so that
    [screencopy__start_capture] never overwrites a frame it still owns. *)
Theorem screencopy_single_flight
    (on_done : callback) (evs : list event)
    (Hkeep : keeps_capture on_done) :
  let w := run on_done evs initial in
  single_flight w /\
  forall ev,
    let new := added w (exec (handle on_done ev) w) in
    (count is_capture_output new <= 1)%nat /\
    (count is_capture_output new = 1%nat -> frame (self w) = None).
Proof.
  intros w.
  assert (single_flight w) as Hw.
  { apply run_single_flight; [done|]. split; cbn; [done|]. by intros []. }
  split; [done|]. intros ev new.
  destruct (handle_single_flight on_done ev w Hkeep Hw) as (_ & l & Htr & Hl).
  unfold new, added. rewrite Htr, drop_app_length. exact Hl.
Qed.

Lemma screencopy_single_flight_witness :
  keeps_capture (fun s => s) /\
  let w := run (fun s => s)
               [Start 60000 60000 (Some 1);
                BufferEv (BufferEvent env_ok 1 2 2 8);
                ReadyEv 70000 (Double.div (Double.of_Z 1) (Double.of_Z 100));
                Start 80000 80000 (Some 2)] initial in
  single_flight w /\
  forall ev,
    let new := added w (exec (handle (fun s => s) ev) w) in
    (count is_capture_output new <= 1)%nat /\
    (count is_capture_output new = 1%nat -> frame (self w) = None).
Proof.
  assert (keeps_capture (fun s => s)) as Hkeep by (intros s; split; reflexivity).
  split; [exact Hkeep|].
  exact (screencopy_single_flight (fun s => s) _ Hkeep).
Defined.

Lemma screencopy_buffer_init_failure env fmt width height stride w :
  buffer (self w) = None ->
  shm_alloc_fd env < 0 \/ mmap env = 0 \/
  wl_shm_create_pool env = false \/ wl_shm_pool_create_buffer env = false ->
  let r := screencopy_buffer_init env fmt width height stride w in
  fst r = -1 /\ self (snd r) = self w /\
  exists new, trace (snd r) = trace w ++ new.
Proof.
  intros Hnone Hfail r. unfold r, screencopy_buffer_init. cmd_unfold.
  rewrite Hnone.
  destruct (Z.ltb_spec (shm_alloc_fd env) 0) as [Hfd|Hfd];
    [|destruct (Z.eqb_spec (mmap env) 0) as [Haddr|Haddr];
      [|destruct (wl_shm_create_pool env) eqn:Hpool;
        [destruct (wl_shm_pool_create_buffer env) eqn:Hbuf|]]];
    cbn; rewrite <- ?app_assoc;
    try (split; [done|]; split; [done|]; eexists; reflexivity).
  exfalso. destruct Hfail as [?|[?|[?|?]]]; try done; lia.
Qed.

(** X13.  The fatal path of [screencopy_buffer], and when it is taken.
    With no buffer pooled, the handler gives the set-up up exactly when the
    descriptor is negative, [mmap] returns [NULL], or the pool or the buffer
    is not created.  It then sets the status to FATAL, stops the capture
    (frame object destroyed, timer disarmed) and runs the continuation once,
    with that status.  It does not return there: it goes on to record the
    frame information and to send [copy_with_damage], on the frame pointer
    that [screencopy_stop] has just cleared.  In every other case, a
    mapping that failed with [MAP_FAILED] included, the status, the frame
    and the timer stay, the continuation does not run, the pointer [mmap]
    returned is kept as [pixels], and the copy is requested on the live
    frame and the new buffer. *)
Theorem screencopy_buffer_fatal
    (on_done : callback) (env : shm_env) (fmt width height stride : Z)
    (w : world)
    (Hkeep : keeps_capture on_done)
    (Hnone : buffer (self w) = None) :
  let w1 := snd (screencopy_buffer_init env fmt width height stride w) in
  let w' := exec (screencopy_buffer on_done env fmt width height stride) w in
  if (shm_alloc_fd env <? 0) || (mmap env =? 0) ||
     negb (wl_shm_create_pool env) || negb (wl_shm_pool_create_buffer env)
  then
    exists handed,
      status (frame_capture handed) = CAPTURE_FATAL /\
      frame handed = None /\
      started (timer handed) = false /\
      buffer handed = None /\
      frame_capture (self w')
      = with_frame_info (Info (fourcc_from_wl_shm fmt) width height stride)
                        (frame_capture (on_done handed)) /\
      frame (self w') = None /\
      added w w'
      = added w w1 ++
        match frame (self w) with
        | Some f => [FrameDestroy f]
        | None => []
        end ++
        [OnDone CAPTURE_FATAL; CopyWithDamage None (buffer (on_done handed))]
  else
    frame_capture (self w')
    = with_frame_info (Info (fourcc_from_wl_shm fmt) width height stride)
                      (frame_capture (self w)) /\
    frame (self w') = frame (self w) /\
    timer (self w') = timer (self w) /\
    buffer (self w') = Some (WlBuffer width height stride fmt) /\
    pixels (self w') = mmap env /\
    added w w'
    = added w w1 ++
      [CopyWithDamage (frame (self w)) (Some (WlBuffer width height stride fmt))].
Proof.
  intros w1 w'.
  destruct (_ || _) eqn:Hgiven_up.
  - assert (shm_alloc_fd env < 0 \/ mmap env = 0 \/
            wl_shm_create_pool env = false \/
            wl_shm_pool_create_buffer env = false) as Hfail.
    { rewrite !orb_true_iff, !negb_true_iff, Z.ltb_lt, Z.eqb_eq in Hgiven_up.
      tauto. }
    unfold w', w1, screencopy_buffer, exec. rewrite run_bind.
    destruct (screencopy_buffer_init_failure env fmt width height stride w
                Hnone Hfail) as (Hrc & Hself & new & Htr).
    destruct (screencopy_buffer_init env fmt width height stride w) as [rc w2].
    cbn [fst snd] in *. subst rc. change (-1 <? 0) with true. cbv beta iota.
    unfold screencopy_stop, added. cmd_unfold. rewrite Hself, Htr, Hnone.
    eexists {| frame_capture := with_status CAPTURE_FATAL (frame_capture (self w));
               buffer := None; pixels := pixels (self w);
               bufsize := bufsize (self w); frame := None;
               last_time := last_time (self w);
               start_time := start_time (self w);
               timer := snd (aml_stop (timer (self w)));
               delay := delay (self w) |}.
    cbn [frame_capture status with_status frame timer buffer].
    rewrite aml_stop_started.
    destruct (frame (self w)) as [f|]; cmd_unfold;
      match goal with
      | |- context [on_done ?s] => destruct (Hkeep s) as [_ Hkf]
      end;
      cbn [frame] in Hkf; rewrite Hkf;
      repeat (split; [done|]);
      rewrite <- !app_assoc, !drop_app_length; done.
  - rewrite !orb_false_iff, !negb_false_iff, Z.ltb_ge, Z.eqb_neq in Hgiven_up.
    destruct Hgiven_up as [[[Hfd Haddr] Hpool] Hbuf].
    unfold w', w1, screencopy_buffer, exec. rewrite run_bind.
    destruct (ScreencopyProofs.screencopy_buffer_init_created env fmt width
                height stride w Hnone Hfd Haddr Hpool Hbuf)
      as (Hrc & Hb & Hpx & _ & Htr).
    destruct (screencopy_buffer_init_keeps env fmt width height stride w)
      as (Hfc & Hfr & Htm & _).
    destruct (screencopy_buffer_init env fmt width height stride w) as [rc w2].
    cbn [fst snd] in *. subst rc. change (0 <? 0) with false. cbv beta iota.
    unfold added. cmd_unfold. rewrite Hfc, Hfr, Htm, Hb, Hpx, Htr.
    repeat (split; [done|]).
    rewrite <- !app_assoc, !drop_app_length. done.
Qed.

Lemma screencopy_buffer_fatal_witness :
  keeps_capture (fun s => s) /\
  buffer (self capturing) = None /\
  let w1 := snd (screencopy_buffer_init env_no_pool 1 2 2 8 capturing) in
  let w' := exec (screencopy_buffer (fun s => s) env_no_pool 1 2 2 8) capturing in
  exists handed,
    status (frame_capture handed) = CAPTURE_FATAL /\
    frame handed = None /\
    started (timer handed) = false /\
    buffer handed = None /\
    frame_capture (self w')
    = with_frame_info (Info (fourcc_from_wl_shm 1) 2 2 8)
                      (frame_capture handed) /\
    frame (self w') = None /\
    added capturing w'
    = added capturing w1 ++
      match frame (self capturing) with
      | Some f => [FrameDestroy f]
      | None => []
      end ++
      [OnDone CAPTURE_FATAL; CopyWithDamage None (buffer handed)].
Proof.
  assert (keeps_capture (fun s => s)) as Hkeep by (intros s; split; reflexivity).
  split; [exact Hkeep|]. split; [reflexivity|].
  exact (screencopy_buffer_fatal (fun s => s) env_no_pool 1 2 2 8 capturing
           Hkeep eq_refl).
Defined.

(** The fatal path, by evaluation: the pool cannot be created during a
    capture on frame 1. *)
Example screencopy_buffer_fatal_example :
  trace (exec (screencopy_buffer (fun s => s) env_no_pool 1 2 2 8) capturing)
  = [ShmAllocFd 16; Mmap 16 7; ShmCreatePool 7 16; Munmap 4096 16; Close 7;
     FrameDestroy 1; OnDone CAPTURE_FATAL; CopyWithDamage None None].
Proof. vm_compute. reflexivity. Qed.

(** A mapping that fails during a capture on frame 1, by evaluation: the
    handler does not take the fatal path; the capture goes on over a buffer
    whose pixels are at [MAP_FAILED]. *)
Example screencopy_buffer_map_failed :
  let w' := exec (screencopy_buffer (fun s => s)
                    {| shm_alloc_fd := 7; mmap := MAP_FAILED;
                       wl_shm_create_pool := true;
                       wl_shm_pool_create_buffer := true |} 1 2 2 8)
              capturing in
  status (frame_capture (self w')) = CAPTURE_IN_PROGRESS /\
  pixels (self w') = -1 /\
  trace w'
  = [ShmAllocFd 16; Mmap 16 7; ShmCreatePool 7 16;
     PoolCreateBuffer 0 2 2 8 1; PoolDestroy; Close 7;
     CopyWithDamage (Some 1) (Some (WlBuffer 2 2 8 1))].
Proof. vm_compute. done. Qed.

Lemma handle_call_stopped on_done ev w :
  is_call ev = true ->
  status (frame_capture (self w)) = CAPTURE_IN_PROGRESS ->
  started (timer (self w)) = false -> frame (self w) = None ->
  exec (handle on_done ev) w = w.
Proof.
  intros Hcall Hst Hidle Hnone.
  destruct ev as [now now_capture nf| |bev|x y width height|now sm| |now nf];
    try discriminate Hcall; unfold handle.
  - rewrite exec_bind.
    by rewrite (ScreencopyProofs.screencopy_start_in_progress now now_capture nf w Hst).
  - rewrite screencopy_stop_spec. unfold aml_stop. rewrite Hidle, Hnone.
    destruct w as [[] tr]. cbn in *. rewrite app_nil_r. by subst.
  - unfold timer_expires, exec. cmd_unfold. by rewrite Hidle.
Qed.

(** X14.  [screencopy_stop] leaves the status as it is.  Called during a
    capture it destroys the frame object and disarms the timer, but the
    status stays IN_PROGRESS; from then on every [screencopy_start] is
    refused with -1, and no sequence of starts, stops and timer expiries
    changes the structure or sends anything. *)
Theorem screencopy_stop_keeps_in_progress
    (on_done : callback) (w : world) (evs : list event)
    (Hst : status (frame_capture (self w)) = CAPTURE_IN_PROGRESS)
    (Hcalls : forallb is_call evs = true) :
  let w1 := exec screencopy_stop w in
  status (frame_capture (self w1)) = CAPTURE_IN_PROGRESS /\
  frame (self w1) = None /\
  started (timer (self w1)) = false /\
  (forall now now_capture new_frame,
     screencopy_start now now_capture new_frame w1 = (-1, w1)) /\
  run on_done evs w1 = w1.
Proof.
  intros w1.
  assert (status (frame_capture (self w1)) = CAPTURE_IN_PROGRESS /\
          frame (self w1) = None /\ started (timer (self w1)) = false)
    as (Hst1 & Hnone & Hidle).
  { unfold w1. rewrite screencopy_stop_spec. cbn. by rewrite aml_stop_started. }
  repeat (split; [done|]). split.
  { intros. by apply ScreencopyProofs.screencopy_start_in_progress. }
  clearbody w1. induction evs as [|ev evs IH]; [done|].
  cbn in Hcalls. apply andb_true_iff in Hcalls as [Hev Hevs]. cbn.
  rewrite handle_call_stopped by done. by apply IH.
Qed.

Lemma screencopy_stop_keeps_in_progress_witness :
  status (frame_capture (self capturing)) = CAPTURE_IN_PROGRESS /\
  forallb is_call [Start 100000 100000 (Some 2); TimerEv 200000 (Some 3); Stop]
  = true /\
  let w1 := exec screencopy_stop capturing in
  status (frame_capture (self w1)) = CAPTURE_IN_PROGRESS /\
  frame (self w1) = None /\
  started (timer (self w1)) = false /\
  (forall now now_capture new_frame,
     screencopy_start now now_capture new_frame w1 = (-1, w1)) /\
  run (fun s => s)
      [Start 100000 100000 (Some 2); TimerEv 200000 (Some 3); Stop] w1 = w1.
Proof.
  split; [reflexivity|]. split; [reflexivity|].
  exact (screencopy_stop_keeps_in_progress (fun s => s) capturing
           [Start 100000 100000 (Some 2); TimerEv 200000 (Some 3); Stop]
           eq_refl eq_refl).
Defined.

(** X15.  From a ready frame to the next capture.  [screencopy_ready] stops
    the capture, stores the clock reading and the smoothed delay, sets the
    status to DONE and runs the continuation once.  When the continuation
    leaves those alone, the [screencopy_start] that follows is accepted and
    computes, in double precision with each operation rounded,
    [(1.0 / 20.0 - (now' - now) * 1.0e-6 - smoothed) * 1.0e3] from the
    stored values.  When that double is greater than 0 the function arms the
    timer with it and sends nothing; otherwise it sends the capture request
    at once. *)
Theorem screencopy_ready_then_start
    (on_done : callback) (now : Z) (smoothed : Double.double)
    (now' now_capture : Z) (new_frame : option Z) (w : world)
    (Hkeep : keeps_capture on_done) (Hclock : keeps_clock on_done) :
  let w1 := exec (screencopy_ready on_done now smoothed) w in
  let r := screencopy_start now' now_capture new_frame w1 in
  let remaining :=
    Double.mul
      (Double.sub
         (Double.sub (Double.div (Double.of_Z 1) (Double.of_Z 20))
                     (Double.mul (Double.of_Z (u64 (now' - now)))
                                 (S754_finite false 4722366482869645 (-72))))
         smoothed)
      (Double.of_Z 1000) in
  added w w1
  = match frame (self w) with
    | Some f => [FrameDestroy f]
    | None => []
    end ++ [OnDone CAPTURE_DONE] /\
  status (frame_capture (self w1)) = CAPTURE_DONE /\
  status (frame_capture (self (snd r))) = CAPTURE_IN_PROGRESS /\
  if SFltb (S754_zero false) remaining then
    fst r = 0 /\
    added w1 (snd r) = [] /\
    frame (self (snd r)) = None /\
    timer (self (snd r)) = {| duration := remaining; started := true |}
  else
    added w1 (snd r)
    = [CaptureOutput (overlay_cursor (frame_capture (self w1)))] /\
    frame (self (snd r)) = new_frame /\
    started (timer (self (snd r))) = false.
Proof.
  intros w1 r remaining.
  set (handed :=
    {| frame_capture := with_status CAPTURE_DONE (frame_capture (self w));
       buffer := buffer (self w); pixels := pixels (self w);
       bufsize := bufsize (self w); frame := None; last_time := now;
       start_time := start_time (self w);
       timer := snd (aml_stop (timer (self w))); delay := smoothed |}).
  assert (w1 = {| self := on_done handed;
                  trace := trace w ++
                           match frame (self w) with
                           | Some f => [FrameDestroy f]
                           | None => []
                           end ++ [OnDone CAPTURE_DONE] |}) as Hw1.
  { unfold w1, screencopy_ready, screencopy_stop, exec. cmd_unfold.
    destruct (frame (self w)); cmd_unfold; rewrite <- ?app_assoc; done. }
  destruct (Hkeep handed) as [Hkt Hkf]. destruct (Hclock handed) as (Hks & Hkl & Hkd).
  cbn in Hkt, Hkf, Hks, Hkl, Hkd.
  split; [by rewrite Hw1, added_app|].
  split; [by rewrite Hw1|].
  unfold r, screencopy_start. cmd_unfold.
  assert (time_left now' (self w1) = remaining) as Hleft.
  { unfold time_left, remaining. rewrite Hw1. cbn [self]. by rewrite Hkl, Hkd. }
  assert (status (frame_capture (self w1)) = CAPTURE_DONE) as Hdone
    by (by rewrite Hw1).
  rewrite Hdone.
  destruct (decide (CAPTURE_DONE = CAPTURE_IN_PROGRESS)); [done|].
  cbv beta. rewrite Hleft.
  assert (started (timer (self w1)) = false) as Hidle.
  { rewrite Hw1. cbn [self]. by rewrite Hkt, aml_stop_started. }
  assert (frame (self w1) = None) as Hnone by (by rewrite Hw1).
  change (Double.ltb Double.zero remaining)
    with (SFltb (S754_zero false) remaining).
  destruct (SFltb (S754_zero false) remaining).
  - unfold aml_start, aml_set_duration, added. cmd_unfold.
    rewrite Hidle. cmd_unfold. rewrite Hnone, drop_all. done.
  - unfold screencopy__start_capture, added. cmd_unfold.
    destruct new_frame; cmd_unfold; rewrite drop_app_length, Hidle; done.
Qed.

Lemma screencopy_ready_then_start_witness :
  keeps_capture (fun s => s) /\ keeps_clock (fun s => s) /\
  let w1 := exec (screencopy_ready (fun s => s) 1000000 Double.zero) capturing in
  let r := screencopy_start 1050000 1050000 (Some 2) w1 in
  added capturing w1 = [FrameDestroy 1; OnDone CAPTURE_DONE] /\
  status (frame_capture (self w1)) = CAPTURE_DONE /\
  status (frame_capture (self (snd r))) = CAPTURE_IN_PROGRESS /\
  fst r = 0 /\
  added w1 (snd r) = [] /\
  frame (self (snd r)) = None /\
  timer (self (snd r))
  = {| duration := S754_finite false 8796093022208000 (-100); started := true |}.
Proof.
  assert (keeps_capture (fun s => s)) as Hkeep by (intros s; split; reflexivity).
  assert (keeps_clock (fun s => s)) as Hclock by (intros s; repeat split).
  split; [exact Hkeep|]. split; [exact Hclock|].
  exact (screencopy_ready_then_start (fun s => s) 1000000 Double.zero
           1050000 1050000 (Some 2) capturing Hkeep Hclock).
Defined.

End ScreencopyMore.

(** * Further properties of the DMA-BUF back end *)

Module DmabufMore.
Import FrameCapture Dmabuf DmabufRun CmdProofs.

Lemma close_planes_exact f i count w :
  (i + count <= length (plane f))%nat ->
  exec (close_planes f i count) w
  = {| self := self w;
       open_fds := open_fds w ∖ list_to_set (List.map fd (take count (drop i (plane f))));
       trace := trace w ++
                closes_of (open_fds w) (List.map fd (take count (drop i (plane f)))) |}.
Proof.
  revert i w. induction count as [|count IH]; intros i w Hlen.
  - cbn. unfold exec, ret. cbn. rewrite app_nil_r.
    destruct w as [s o t]. cbn. f_equal.
    apply leibniz_equiv. intros x.
    rewrite take_0. cbn. rewrite elem_of_difference, elem_of_empty. tauto.
  - cbn [close_planes]. rewrite exec_bind. rewrite IH by lia.
    unfold close. cbn [fst snd self open_fds trace].
    destruct (lookup_lt_is_Some_2 (plane f) i ltac:(lia)) as [p Hp].
    rewrite (drop_S _ _ _ Hp). cbn [take List.map closes_of list_to_set].
    unfold plane_at. rewrite (nth_lookup_Some _ _ _ _ Hp).
    rewrite <- app_assoc. cbn [app]. f_equal.
    apply leibniz_equiv. intros x.
    rewrite !elem_of_difference, elem_of_union, elem_of_singleton. tauto.
Qed.

Lemma closes_of_open (open : gset Z) (ds : list Z) :
  NoDup ds -> Forall (fun d => d ∈ open) ds ->
  closes_of open ds = List.map (fun d => Close d true) ds.
Proof.
  revert open. induction ds as [|d ds IH]; intros open Hnd Hopen; [done|].
  apply NoDup_cons in Hnd as [Hd Hnd]. apply Forall_cons in Hopen as [Ho Hopen].
  cbn. rewrite bool_decide_eq_true_2 by done. f_equal. apply IH; [done|].
  rewrite Forall_forall in *. intros x Hx.
  rewrite elem_of_difference, elem_of_singleton. split; [by apply Hopen|].
  intros ->. done.
Qed.

Lemma closes_of_closed (open : gset Z) (ds : list Z) :
  Forall (fun d => d ∉ open) ds ->
  closes_of open ds = List.map (fun d => Close d false) ds.
Proof.
  revert open. induction ds as [|d ds IH]; intros open Hclosed; [done|].
  apply Forall_cons in Hclosed as [Ho Hclosed].
  cbn. rewrite bool_decide_eq_false_2 by done. f_equal. apply IH.
  rewrite Forall_forall in *. intros x Hx.
  rewrite elem_of_difference. intros [? _]. by apply (Hclosed x).
Qed.

Lemma dmabuf_close_fds_eq w :
  0 <= n_planes (frame (self w)) <= Z.of_nat (length (plane (frame (self w)))) ->
  exec dmabuf_close_fds w
  = {| self := {| fc := fc (self w); zwlr_frame := zwlr_frame (self w);
                  frame := {| width := width (frame (self w));
                              height := height (frame (self w));
                              format := format (frame (self w));
                              n_planes := 0;
                              plane := plane (frame (self w)) |};
                  last_time := last_time (self w);
                  timer := timer (self w) |};
       open_fds := open_fds w ∖ list_to_set (held (frame (self w)));
       trace := trace w ++ closes_of (open_fds w) (held (frame (self w))) |}.
Proof.
  intros Hn. unfold dmabuf_close_fds. rewrite !exec_bind.
  unfold gets. cbn [fst snd].
  change (snd (close_planes ?f ?i ?c ?w0)) with (exec (close_planes f i c) w0).
  rewrite close_planes_exact by (cbn; lia).
  unfold exec, set_frame, update, modify, held. cbn. by rewrite drop_0.
Qed.

(** X16.  [dmabuf_close_fds] closes what the frame holds and nothing else.
    With [n_planes] within the plane array, it closes the descriptors of
    planes 0 to [n_planes - 1], in that order and once each, and resets
    [n_planes] to 0.  The plane array itself is left as it is, so the
    closed descriptors stay recorded in it.  A second call closes nothing.
    When the held descriptors are distinct and open, every close succeeds
    on an open descriptor. *)
Theorem dmabuf_close_fds_held (w : world)
    (Hn : 0 <= n_planes (frame (self w))
          <= Z.of_nat (length (plane (frame (self w))))) :
  let w' := exec dmabuf_close_fds w in
  added w w' = closes_of (open_fds w) (held (frame (self w))) /\
  open_fds w' = open_fds w ∖ list_to_set (held (frame (self w))) /\
  n_planes (frame (self w')) = 0 /\
  plane (frame (self w')) = plane (frame (self w)) /\
  exec dmabuf_close_fds w' = w' /\
  (NoDup (held (frame (self w))) ->
   Forall (fun d => d ∈ open_fds w) (held (frame (self w))) ->
   added w w' = List.map (fun d => Close d true) (held (frame (self w)))).
Proof.
  intros w'. unfold w'. rewrite dmabuf_close_fds_eq by done.
  unfold added. cbn [trace self open_fds frame n_planes plane].
  rewrite drop_app_length.
  split; [done|]. split; [done|]. split; [done|]. split; [done|].
  split; [|by apply closes_of_open].
  rewrite dmabuf_close_fds_eq by (cbn; lia).
  cbn [self open_fds trace fc zwlr_frame frame last_time timer width height
       format plane].
  repeat match goal with
  | |- context [held (Frame ?a ?b ?c 0 ?d)] =>
      change (held (Frame a b c 0 d)) with (@nil Z)
  end.
  cbn. rewrite app_nil_r. f_equal. apply leibniz_equiv. intros x.
  rewrite elem_of_difference at 1. rewrite elem_of_empty. tauto.
Qed.

Lemma dmabuf_close_fds_held_witness :
  let w := {| self := {| fc := fc (self initial); zwlr_frame := None;
                         frame := {| width := 2; height := 2; format := 0;
                                     n_planes := 2;
                                     plane := [Plane 5 0 16 8 0; Plane 6 0 16 8 0;
                                               zero_plane; zero_plane] |};
                         last_time := 0; timer := timer (self initial) |};
              open_fds := {[ 5; 6 ]};
              trace := [] |} in
  0 <= n_planes (frame (self w)) <= Z.of_nat (length (plane (frame (self w)))) /\
  let w' := exec dmabuf_close_fds w in
  added w w' = closes_of (open_fds w) (held (frame (self w))) /\
  open_fds w' = open_fds w ∖ list_to_set (held (frame (self w))) /\
  n_planes (frame (self w')) = 0 /\
  plane (frame (self w')) = plane (frame (self w)) /\
  exec dmabuf_close_fds w' = w' /\
  (NoDup (held (frame (self w))) ->
   Forall (fun d => d ∈ open_fds w) (held (frame (self w))) ->
   added w w' = List.map (fun d => Close d true) (held (frame (self w)))).
Proof.
  intros w. split; [cbn; lia|].
  apply (dmabuf_close_fds_held w). cbn. lia.
Defined.

Lemma dmabuf_frame_start_eq width' height' ox oy bf fl format' mh ml n w :
  0 <= n_planes (frame (self w)) <= Z.of_nat (length (plane (frame (self w)))) ->
  exec (dmabuf_frame_start width' height' ox oy bf fl format' mh ml n) w
  = {| self := {| fc := with_damage_hint (Rect 0 0 width' height') (fc (self w));
                  zwlr_frame := zwlr_frame (self w);
                  frame := {| width := width'; height := height';
                              format := format'; n_planes := n;
                              plane := List.map
                                         (with_modifier
                                            (Z.lor (Z.shiftl mh 32) ml))
                                         (plane (frame (self w))) |};
                  last_time := last_time (self w);
                  timer := snd (aml_stop (timer (self w))) |};
       open_fds := open_fds w ∖ list_to_set (held (frame (self w)));
       trace := trace w ++ closes_of (open_fds w) (held (frame (self w))) |}.
Proof.
  intros Hn. unfold dmabuf_frame_start. rewrite !exec_bind.
  change (snd (dmabuf_close_fds ?w0)) with (exec dmabuf_close_fds w0).
  rewrite dmabuf_close_fds_eq; unfold exec; cmd_unfold; done.
Qed.

Lemma aml_stop_disarms t : started (snd (aml_stop t)) = false.
Proof. unfold aml_stop. by destruct (started t) eqn:Hs. Qed.

Lemma added_app_fds (w : world) (s : dmabuf_capture) (o : gset Z)
    (new : list action) :
  added w {| self := s; open_fds := o; trace := trace w ++ new |} = new.
Proof. unfold added. cbn. apply drop_app_length. Qed.

(** [dmabuf_capture_stop] with no timer pending: nothing is closed. *)
Lemma dmabuf_capture_stop_idle_eq w :
  started (timer (self w)) = false ->
  exec dmabuf_capture_stop w
  = {| self := {| fc := with_status CAPTURE_STOPPED (fc (self w));
                  zwlr_frame := None; frame := frame (self w);
                  last_time := last_time (self w);
                  timer := timer (self w) |};
       open_fds := open_fds w;
       trace := trace w ++
                match zwlr_frame (self w) with
                | Some f => [FrameDestroy f]
                | None => []
                end |}.
Proof.
  intros Hidle. unfold dmabuf_capture_stop, exec. cmd_unfold.
  unfold aml_stop. rewrite Hidle. cmd_unfold.
  change (0 <=? -1) with false. cbv beta iota. cmd_unfold.
  destruct (zwlr_frame (self w)); cmd_unfold; [done|].
  by rewrite app_nil_r.
Qed.

(** [dmabuf_capture_stop] with the timer pending: the held descriptors are
    closed first. *)
Lemma dmabuf_capture_stop_pending_eq w :
  started (timer (self w)) = true ->
  0 <= n_planes (frame (self w)) <= Z.of_nat (length (plane (frame (self w)))) ->
  exec dmabuf_capture_stop w
  = {| self := {| fc := with_status CAPTURE_STOPPED (fc (self w));
                  zwlr_frame := None;
                  frame := {| width := width (frame (self w));
                              height := height (frame (self w));
                              format := format (frame (self w));
                              n_planes := 0;
                              plane := plane (frame (self w)) |};
                  last_time := last_time (self w);
                  timer := {| duration := duration (timer (self w));
                              started := false |} |};
       open_fds := open_fds w ∖ list_to_set (held (frame (self w)));
       trace := trace w ++ closes_of (open_fds w) (held (frame (self w))) ++
                match zwlr_frame (self w) with
                | Some f => [FrameDestroy f]
                | None => []
                end |}.
Proof.
  intros Hpending Hn. unfold dmabuf_capture_stop.
  rewrite exec_bind. unfold timer_stop at 1 2, aml_stop.
  cbv [bind gets set_timer update modify ret]. cbn [fst snd]. rewrite Hpending.
  cbn [fst snd]. change (0 <=? 0) with true. cbv beta iota.
  unfold exec at 1. cbv beta.
  match goal with
  | |- context [dmabuf_close_fds ?w0] =>
      pose proof (dmabuf_close_fds_eq w0 ltac:(cbn; lia)) as Heq;
      unfold exec in Heq; destruct (dmabuf_close_fds w0) as [[] w1];
      cbn [snd] in Heq; subst w1
  end.
  cmd_unfold.
  destruct (zwlr_frame (self w)); cmd_unfold; rewrite <- ?app_assoc; [done|].
  by rewrite app_nil_r.
Qed.

(** X17.  The rate limit of [dmabuf_frame_ready].  A ready event that
    finds the timer idle destroys the frame object and compares the time
    since the last delivered frame with [1/RATE_LIMIT], in double
    precision.  When no more than that has passed, by the computed
    [time_left], the frame is held back: the timer is armed with what is
    left, a new capture is requested at once, and neither the continuation
    runs nor is a descriptor closed.  Otherwise the frame is delivered at
    once: [last_time] becomes the clock reading, the continuation runs once
    with status DONE while the descriptors are still open, and the held
    descriptors are closed after it. *)
Theorem dmabuf_frame_ready_threshold
    (on_done : callback) (now : Z) (new_frame : option Z) (w : world)
    (Hkeep : keeps_frame on_done)
    (Hidle : started (timer (self w)) = false)
    (Hn : 0 <= n_planes (frame (self w))
          <= Z.of_nat (length (plane (frame (self w))))) :
  let w' := exec (dmabuf_frame_ready on_done now new_frame) w in
  let destroy := match zwlr_frame (self w) with
                 | Some f => [FrameDestroy f]
                 | None => []
                 end in
  if Double.leb Double.zero (time_left now (self w)) then
    added w w' = destroy ++ [CaptureOutput (overlay_cursor (fc (self w)))] /\
    timer (self w') = {| duration := time_left now (self w); started := true |} /\
    zwlr_frame (self w') = new_frame /\
    status (fc (self w'))
    = match new_frame with
      | Some _ => CAPTURE_IN_PROGRESS
      | None => CAPTURE_STOPPED
      end /\
    last_time (self w') = last_time (self w) /\
    frame (self w') = frame (self w) /\
    open_fds w' = open_fds w
  else
    exists handed,
      status (fc handed) = CAPTURE_DONE /\
      last_time handed = now /\
      frame handed = frame (self w) /\
      zwlr_frame handed = None /\
      fc (self w') = fc (on_done handed) /\
      added w w'
      = destroy ++
        OnDone CAPTURE_DONE :: closes_of (open_fds w) (held (frame (self w))) /\
      open_fds w' = open_fds w ∖ list_to_set (held (frame (self w))) /\
      n_planes (frame (self w')) = 0.
Proof.
  intros w' destroy. unfold w', dmabuf_frame_ready. rewrite exec_bind.
  change (snd (dmabuf_capture_stop w)) with (exec dmabuf_capture_stop w).
  rewrite dmabuf_capture_stop_idle_eq by done. fold destroy.
  unfold time_left, exec. cmd_unfold.
  change (Double.mul
            (Double.sub (Double.div Double.one RATE_LIMIT)
                        (elapsed_seconds now (last_time (self w))))
            Double.lit_1e3) with (time_left now (self w)).
  destruct (Double.leb Double.zero (time_left now (self w))).
  - unfold frame_capture_start, dmabuf_capture_start, aml_start,
      aml_set_duration. cmd_unfold. rewrite Hidle. cmd_unfold.
    destruct new_frame; cmd_unfold; rewrite <- !app_assoc, added_app_fds; done.
  - match goal with
    | |- context [dmabuf_close_fds ?w0] =>
        pose proof (dmabuf_close_fds_eq w0
                      ltac:(cbn; rewrite Hkeep; cbn; lia)) as Heq;
        unfold exec in Heq; destruct (dmabuf_close_fds w0) as [[] w1];
        cbn [snd] in Heq; subst w1
    end.
    cbn [self open_fds trace fc zwlr_frame frame last_time timer snd].
    rewrite Hkeep. cbn [frame].
    eexists {| fc := with_status CAPTURE_DONE
                       (with_status CAPTURE_STOPPED (fc (self w)));
               zwlr_frame := None; frame := frame (self w); last_time := now;
               timer := timer (self w) |}.
    repeat (split; [done|]).
    rewrite <- !app_assoc, added_app_fds. done.
Qed.

Lemma dmabuf_frame_ready_threshold_witness :
  let w := exec (handle (fun s => s) (ObjectEv 0 5 100 0 2560 0))
             (exec (handle (fun s => s) (FrameEv 640 480 875713112 0 0 1))
                (exec (handle (fun s => s) (Start (Some 1))) initial)) in
  keeps_frame (fun s => s) /\
  started (timer (self w)) = false /\
  0 <= n_planes (frame (self w)) <= Z.of_nat (length (plane (frame (self w)))) /\
  let w' := exec (dmabuf_frame_ready (fun s => s) 60000 (Some 2)) w in
  let destroy := match zwlr_frame (self w) with
                 | Some f => [FrameDestroy f]
                 | None => []
                 end in
  if Double.leb Double.zero (time_left 60000 (self w)) then
    added w w' = destroy ++ [CaptureOutput (overlay_cursor (fc (self w)))] /\
    timer (self w') = {| duration := time_left 60000 (self w); started := true |} /\
    zwlr_frame (self w') = Some 2 /\
    status (fc (self w')) = CAPTURE_IN_PROGRESS /\
    last_time (self w') = last_time (self w) /\
    frame (self w') = frame (self w) /\
    open_fds w' = open_fds w
  else
    exists handed,
      status (fc handed) = CAPTURE_DONE /\
      last_time handed = 60000 /\
      frame handed = frame (self w) /\
      zwlr_frame handed = None /\
      fc (self w') = fc handed /\
      added w w'
      = destroy ++
        OnDone CAPTURE_DONE :: closes_of (open_fds w) (held (frame (self w))) /\
      open_fds w' = open_fds w ∖ list_to_set (held (frame (self w))) /\
      n_planes (frame (self w')) = 0.
Proof.
  intros w.
  assert (keeps_frame (fun s => s)) as Hkeep by (intros s; reflexivity).
  split; [exact Hkeep|]. split; [reflexivity|].
  assert (0 <= n_planes (frame (self w))
          <= Z.of_nat (length (plane (frame (self w))))) as Hn
    by (vm_compute; split; discriminate).
  split; [exact Hn|].
  exact (dmabuf_frame_ready_threshold (fun s => s) 60000 (Some 2) w
           Hkeep eq_refl Hn).
Defined.






Lemma object_events_run on_done ds size' offset' stride' : forall i w,
  (i + length ds <= length (plane (frame (self w))))%nat ->
  let w' := run on_done (object_events i ds size' offset' stride') w in
  fc (self w') = fc (self w) /\
  zwlr_frame (self w') = zwlr_frame (self w) /\
  last_time (self w') = last_time (self w) /\
  timer (self w') = timer (self w) /\
  n_planes (frame (self w')) = n_planes (frame (self w)) /\
  length (plane (frame (self w'))) = length (plane (frame (self w))) /\
  List.map fd (plane (frame (self w')))
  = take i (List.map fd (plane (frame (self w)))) ++ ds ++
    drop (i + length ds) (List.map fd (plane (frame (self w)))) /\
  open_fds w' = list_to_set ds ∪ open_fds w /\
  trace w' = trace w.
Proof.
  induction ds as [|d ds IH]; intros i w Hlen w'.
  - unfold w'. cbn. rewrite Nat.add_0_r, take_drop.
    repeat (split; [done|]). split; [|done].
    apply leibniz_equiv. intros x. rewrite elem_of_union, elem_of_empty. tauto.
  - cbn [length] in Hlen. unfold w'. cbn [object_events run fold_left].
    set (w1 := exec (handle on_done (ObjectEv (Z.of_nat i) d size' offset'
                                       stride' (Z.of_nat i))) w).
    assert (fc (self w1) = fc (self w) /\
            zwlr_frame (self w1) = zwlr_frame (self w) /\
            last_time (self w1) = last_time (self w) /\
            timer (self w1) = timer (self w) /\
            n_planes (frame (self w1)) = n_planes (frame (self w)) /\
            plane (frame (self w1))
            = <[i := {| fd := d; offset := offset'; size := size';
                        pitch := stride';
                        modifier := modifier (plane_at (frame (self w)) i) |}]>
              (plane (frame (self w))) /\
            open_fds w1 = {[ d ]} ∪ open_fds w /\
            trace w1 = trace w)
      as (Hfc & Hz & Hl & Ht & Hn & Hp & Ho & Htr).
    { unfold w1, handle, dmabuf_frame_object, exec. cmd_unfold.
      rewrite Nat2Z.id. done. }
    destruct (IH (S i) w1) as (Hfc' & Hz' & Hl' & Ht' & Hn' & Hlen' & Hp' & Ho' & Htr').
    { rewrite Hp, length_insert. lia. }
    change (fold_left _ (object_events (S i) ds size' offset' stride') w1)
      with (run on_done (object_events (S i) ds size' offset' stride') w1).
    rewrite Hfc', Hz', Hl', Ht', Hn', Hlen', Hp', Ho', Htr'.
    rewrite Hfc, Hz, Hl, Ht, Hn, Ho, Htr, Hp, length_insert.
    repeat (split; [done|]). split.
    + rewrite list_fmap_insert. cbn [fd].
      assert (i < length (List.map fd (plane (frame (self w)))))%nat as Hi
        by (rewrite length_map; lia).
      destruct (lookup_lt_is_Some_2 _ _ Hi) as [x Hx].
      rewrite (take_S_r _ _ d) by (by apply list_lookup_insert_eq).
      rewrite take_insert_ge by lia. rewrite drop_insert_lt by lia.
      rewrite <- app_assoc. cbn [app length].
      replace (i + S (length ds))%nat with (S i + length ds)%nat by lia. done.
    + split; [|done]. apply leibniz_equiv. intros x. cbn.
      rewrite !elem_of_union, elem_of_singleton. tauto.
Qed.

(** A ready event that delivers at once. *)
Lemma dmabuf_frame_ready_deliver on_done now new_frame w :
  keeps_frame on_done ->
  started (timer (self w)) = false ->
  0 <= n_planes (frame (self w)) <= Z.of_nat (length (plane (frame (self w)))) ->
  Double.leb Double.zero (time_left now (self w)) = false ->
  let w' := exec (dmabuf_frame_ready on_done now new_frame) w in
  trace w' = trace w ++
             match zwlr_frame (self w) with
             | Some f => [FrameDestroy f]
             | None => []
             end ++
             OnDone CAPTURE_DONE :: closes_of (open_fds w) (held (frame (self w))) /\
  open_fds w' = open_fds w ∖ list_to_set (held (frame (self w))) /\
  n_planes (frame (self w')) = 0.
Proof.
  intros Hkeep Hidle Hn Hlate w'. unfold w', dmabuf_frame_ready.
  rewrite exec_bind.
  change (snd (dmabuf_capture_stop w)) with (exec dmabuf_capture_stop w).
  rewrite dmabuf_capture_stop_idle_eq by done.
  unfold time_left in Hlate. unfold exec. cmd_unfold. rewrite Hlate.
  match goal with
  | |- context [dmabuf_close_fds ?w0] =>
      pose proof (dmabuf_close_fds_eq w0
                    ltac:(cbn; rewrite Hkeep; cbn; lia)) as Heq;
      unfold exec in Heq; destruct (dmabuf_close_fds w0) as [[] w1];
      cbn [snd] in Heq; subst w1
  end.
  cbn [self open_fds trace fc zwlr_frame frame last_time timer snd n_planes].
  rewrite Hkeep. cbn [frame]. by rewrite <- !app_assoc.
Qed.

(** X19.  One capture, from the request to the delivery.  The back end
    holds no descriptor; a capture is requested, the frame event announces
    as many objects as there are distinct new descriptors in [ds], the
    object events hand them over for planes 0, 1, ..., and the ready event
    comes later than [1/RATE_LIMIT] after the last delivery.  Then the
    continuation runs once, with status DONE, and after it every descriptor
    of [ds] is closed exactly once, while open, in plane order; no
    descriptor is left open and none is closed twice. *)
Theorem dmabuf_capture_cycle
    (on_done : callback) (f : Z) (width' height' format' mod_high mod_low : Z)
    (ds : list Z) (size' offset' stride' : Z) (now : Z)
    (new_frame : option Z) (w : world)
    (Hkeep : keeps_frame on_done)
    (Hheld : n_planes (frame (self w)) = 0)
    (Hcount : (length ds <= length (plane (frame (self w))))%nat)
    (Hdistinct : NoDup ds)
    (Hfresh : Forall (fun d => d ∉ open_fds w) ds)
    (Hlate : Double.leb Double.zero (time_left now (self w)) = false) :
  let evs :=
    Start (Some f)
    :: FrameEv width' height' format' mod_high mod_low (Z.of_nat (length ds))
    :: object_events 0 ds size' offset' stride' ++ [ReadyEv now new_frame] in
  let w' := run on_done evs w in
  added w w'
  = [CaptureOutput (overlay_cursor (fc (self w))); FrameDestroy f;
     OnDone CAPTURE_DONE] ++ List.map (fun d => Close d true) ds /\
  open_fds w' = open_fds w /\
  n_planes (frame (self w')) = 0.
Proof.
  intros evs w'. unfold w', evs, run. cbn [fold_left]. rewrite fold_left_app.
  cbn [fold_left handle].
  set (w1 := exec (let* _ := dmabuf_capture_start (Some f) in ret tt)%cmd w).
  assert (w1 = {| self := {| fc := with_status CAPTURE_IN_PROGRESS (fc (self w));
                             zwlr_frame := Some f; frame := frame (self w);
                             last_time := last_time (self w);
                             timer := timer (self w) |};
                  open_fds := open_fds w;
                  trace := trace w ++
                           [CaptureOutput (overlay_cursor (fc (self w)))] |})
    as Hw1.
  { unfold w1, dmabuf_capture_start, exec. cmd_unfold. done. }
  set (w2 := exec (dmabuf_frame_start _ _ _ _ _ _ _ _ _ _) w1).
  assert (w2 = {| self := {| fc := with_damage_hint (Rect 0 0 width' height')
                                     (with_status CAPTURE_IN_PROGRESS (fc (self w)));
                             zwlr_frame := Some f;
                             frame := {| width := width'; height := height';
                                         format := format';
                                         n_planes := Z.of_nat (length ds);
                                         plane := List.map
                                                    (with_modifier
                                                       (Z.lor (Z.shiftl mod_high 32)
                                                          mod_low))
                                                    (plane (frame (self w))) |};
                             last_time := last_time (self w);
                             timer := snd (aml_stop (timer (self w))) |};
                  open_fds := open_fds w;
                  trace := trace w ++
                           [CaptureOutput (overlay_cursor (fc (self w)))] |})
    as Hw2.
  { unfold w2. rewrite dmabuf_frame_start_eq by (rewrite Hw1; cbn; lia).
    rewrite Hw1. cbn [self open_fds trace fc zwlr_frame frame last_time timer].
    unfold held. rewrite Hheld. change (Z.to_nat 0) with 0%nat.
    rewrite take_0. cbn. rewrite app_nil_r. f_equal.
    apply leibniz_equiv. intros x. rewrite elem_of_difference, elem_of_empty.
    tauto. }
  change (fold_left _ (object_events 0 ds size' offset' stride') w2)
    with (run on_done (object_events 0 ds size' offset' stride') w2).
  destruct (object_events_run on_done ds size' offset' stride' 0 w2)
    as (Hfc & Hz & Hl & Ht & Hn & Hlen & Hp & Ho & Htr).
  { rewrite Hw2. cbn. rewrite length_map. lia. }
  set (w3 := run on_done (object_events 0 ds size' offset' stride') w2) in *.
  assert (held (frame (self w3)) = ds) as Hheld3.
  { unfold held. rewrite Hn, Hw2. cbn [self frame n_planes]. rewrite Nat2Z.id.
    rewrite <- firstn_map. rewrite Hp, take_0. cbn [app].
    by rewrite take_app_length. }
  destruct (dmabuf_frame_ready_deliver on_done now new_frame w3 Hkeep)
    as (Htr4 & Ho4 & Hn4).
  { rewrite Ht, Hw2. cbn. apply aml_stop_disarms. }
  { rewrite Hn, Hlen, Hw2. cbn. rewrite length_map. lia. }
  { unfold time_left. rewrite Hl, Hw2. exact Hlate. }
  unfold added. rewrite Htr4, Ho4, Hheld3, Htr, Hz, Ho, Hw2.
  cbn [self open_fds trace zwlr_frame]. rewrite <- !app_assoc.
  rewrite drop_app_length. split; [|split; [|done]].
  - cbn [app]. do 3 f_equal. apply closes_of_open; [done|].
    rewrite Forall_forall. intros x Hx.
    rewrite elem_of_union, elem_of_list_to_set. by left.
  - apply leibniz_equiv. intros x.
    rewrite elem_of_difference, elem_of_union, elem_of_list_to_set.
    rewrite Forall_forall in Hfresh. split; [tauto|].
    intros Hx. split; [by right|]. intros Hin. by apply (Hfresh x).
Qed.

Lemma dmabuf_capture_cycle_witness :
  keeps_frame (fun s => s) /\
  n_planes (frame (self initial)) = 0 /\
  (length [5; 6] <= length (plane (frame (self initial))))%nat /\
  NoDup [5; 6] /\
  Forall (fun d => d ∉ open_fds initial) [5; 6] /\
  Double.leb Double.zero (time_left 60000 (self initial)) = false /\
  let evs :=
    Start (Some 1)
    :: FrameEv 640 480 875713112 0 0 (Z.of_nat (length [5; 6]))
    :: object_events 0 [5; 6] 100 0 2560 ++ [ReadyEv 60000 (Some 2)] in
  let w' := run (fun s => s) evs initial in
  added initial w'
  = [CaptureOutput (overlay_cursor (fc (self initial))); FrameDestroy 1;
     OnDone CAPTURE_DONE] ++ List.map (fun d => Close d true) [5; 6] /\
  open_fds w' = open_fds initial /\
  n_planes (frame (self w')) = 0.
Proof.
  assert (keeps_frame (fun s => s)) as Hkeep by (intros s; reflexivity).
  assert (NoDup [5; 6]) as Hnd.
  { repeat constructor; rewrite ?elem_of_cons, ?elem_of_nil; intuition lia. }
  assert (Forall (fun d => d ∉ open_fds initial) [5; 6]) as Hfresh.
  { repeat constructor; cbn; apply not_elem_of_empty. }
  assert (length [5; 6] <= length (plane (frame (self initial))))%nat as Hlen
    by (cbn; lia).
  split; [exact Hkeep|]. split; [reflexivity|]. split; [exact Hlen|].
  split; [exact Hnd|]. split; [exact Hfresh|]. split; [reflexivity|].
  exact (dmabuf_capture_cycle (fun s => s) 1 640 480 875713112 0 0 [5; 6]
           100 0 2560 60000 (Some 2) initial Hkeep eq_refl Hlen Hnd Hfresh
           eq_refl).
Defined.

End DmabufMore.

(** * Properties of the renderer *)

Module RenderProofs.
Import Render.

Lemma store_spec dst i v :
  (i < length dst)%nat ->
  store dst i v = Some (<[ i := v ]> dst).
Proof. intros Hi. unfold store. by rewrite decide_True. Qed.

Lemma store_filled attr0 written st v :
  filled attr0 written st -> (snd st < length attr0)%nat ->
  store (fst st) (snd st) v = Some (<[ snd st := v ]> (fst st)) /\
  filled attr0 (written ++ [v]) (<[ snd st := v ]> (fst st), S (snd st)).
Proof.
  intros (Hlen & Hi & Htake & Hdrop) Hlt. destruct st as [dst i]. cbn in *.
  split; [apply store_spec; lia|].
  unfold filled. cbn. rewrite length_insert, length_app. cbn.
  split; [done|]. split; [lia|]. split.
  - rewrite (take_S_r _ _ v) by (apply list_lookup_insert_eq; lia).
    rewrite take_insert_ge by lia. by rewrite Htake.
  - rewrite drop_insert_lt by lia.
    change (S i) with (1 + i)%nat. rewrite (Nat.add_comm 1 i).
    by rewrite <- !drop_drop, Hdrop.
Qed.

Lemma append_attr_filled attr0 written st name value :
  filled attr0 written st -> (snd st + 2 <= length attr0)%nat ->
  exists st',
    append_attr st name value = Some st' /\
    filled attr0 (written ++ [Name name; Value (EGLint value)]) st'.
Proof.
  intros Hst Hlt. unfold append_attr.
  destruct (store_filled attr0 written st (Name name) Hst ltac:(lia))
    as [Hs1 Hst1].
  rewrite Hs1. cbn [mbind option_bind].
  destruct (store_filled attr0 _ _ (Value (EGLint value)) Hst1
              ltac:(cbn; lia)) as [Hs2 Hst2].
  cbn [fst snd] in Hs2, Hst2.
  replace (snd st + 1)%nat with (S (snd st)) by lia.
  rewrite Hs2. cbn [mbind option_bind]. eexists. split; [reflexivity|].
  replace (snd st + 2)%nat with (S (S (snd st))) by lia.
  by rewrite <- app_assoc in Hst2.
Qed.

Lemma plane_filled attr0 written st n frame rest :
  filled attr0 written st -> (snd st + 10 <= length attr0)%nat ->
  Z.of_nat n < Dmabuf.n_planes frame ->
  exists st',
    filled attr0 (written ++ plane_attr n (Dmabuf.plane_at frame n)) st' /\
    APPEND_PLANE_ATTR n frame rest st = rest st'.
Proof.
  intros Hst Hlt Hn. unfold APPEND_PLANE_ATTR.
  destruct (Z.leb_spec (Dmabuf.n_planes frame) (Z.of_nat n)); [lia|].
  pose proof Hst as (_ & Hi & _).
  destruct (append_attr_filled attr0 _ st (EGL_DMA_BUF_PLANE_FD_EXT n)
              (Dmabuf.fd (Dmabuf.plane_at frame n)) Hst ltac:(lia))
    as (st1 & -> & Hst1).
  pose proof Hst1 as (_ & Hi1 & _). rewrite length_app in Hi1. cbn in Hi1.
  destruct (append_attr_filled attr0 _ st1 (EGL_DMA_BUF_PLANE_OFFSET_EXT n)
              (Dmabuf.offset (Dmabuf.plane_at frame n)) Hst1 ltac:(lia))
    as (st2 & Hs2 & Hst2).
  pose proof Hst2 as (_ & Hi2 & _). rewrite !length_app in Hi2. cbn in Hi2.
  destruct (append_attr_filled attr0 _ st2 (EGL_DMA_BUF_PLANE_PITCH_EXT n)
              (Dmabuf.pitch (Dmabuf.plane_at frame n)) Hst2 ltac:(lia))
    as (st3 & Hs3 & Hst3).
  pose proof Hst3 as (_ & Hi3 & _). rewrite !length_app in Hi3. cbn in Hi3.
  destruct (append_attr_filled attr0 _ st3 (EGL_DMA_BUF_PLANE_MODIFIER_LO_EXT n)
              (Dmabuf.modifier (Dmabuf.plane_at frame n)) Hst3 ltac:(lia))
    as (st4 & Hs4 & Hst4).
  pose proof Hst4 as (_ & Hi4 & _). rewrite !length_app in Hi4. cbn in Hi4.
  destruct (append_attr_filled attr0 _ st4 (EGL_DMA_BUF_PLANE_MODIFIER_HI_EXT n)
              (Z.shiftr (Dmabuf.modifier (Dmabuf.plane_at frame n)) 32) Hst4
              ltac:(lia))
    as (st5 & Hs5 & Hst5).
  cbn [mbind option_bind]. rewrite Hs2. cbn [mbind option_bind].
  rewrite Hs3. cbn [mbind option_bind]. rewrite Hs4. cbn [mbind option_bind].
  rewrite Hs5. cbn [mbind option_bind].
  exists st5. split; [|done].
  rewrite <- !app_assoc in Hst5. exact Hst5.
Qed.

Ltac planes_done H :=
  cbn; cbn in H; rewrite <- ?app_assoc in H; cbn in H; rewrite ?app_nil_r;
  exact H.

Lemma append_planes_filled attr0 written st frame :
  filled attr0 written st -> (snd st + 40 <= length attr0)%nat ->
  length (Dmabuf.plane frame) = 4%nat -> 0 <= Dmabuf.n_planes frame ->
  exists st',
    dmabuf_attr_append_planes frame st = Some st' /\
    filled attr0
      (written ++
       planes_attr 0 (take (Z.to_nat (Dmabuf.n_planes frame)) (Dmabuf.plane frame)))
      st'.
Proof.
  intros Hst Hlt Hplanes Hn. unfold dmabuf_attr_append_planes.
  destruct frame as [fw fh ff n planes]. cbn [Dmabuf.plane Dmabuf.n_planes] in *.
  destruct planes as [|p0 [|p1 [|p2 [|p3 [|]]]]]; try discriminate Hplanes.
  pose proof Hst as (_ & Hi & _).
  destruct (decide (n = 0)) as [->|H0].
  { exists st. split; [done|]. cbn. by rewrite app_nil_r. }
  match goal with
  | |- context [APPEND_PLANE_ATTR 0 ?fr ?rest st] =>
      destruct (plane_filled attr0 _ st 0 fr rest Hst ltac:(lia)
                  ltac:(cbn; lia)) as (st1 & Hst1 & ->)
  end.
  pose proof Hst1 as (_ & Hi1 & _). rewrite length_app in Hi1. cbn in Hi1.
  destruct (decide (n = 1)) as [->|H1].
  { exists st1. split; [done|]. planes_done Hst1. }
  match goal with
  | |- context [APPEND_PLANE_ATTR 1 ?fr ?rest st1] =>
      destruct (plane_filled attr0 _ st1 1 fr rest Hst1 ltac:(lia)
                  ltac:(cbn; lia)) as (st2 & Hst2 & ->)
  end.
  pose proof Hst2 as (_ & Hi2 & _). rewrite !length_app in Hi2. cbn in Hi2.
  destruct (decide (n = 2)) as [->|H2].
  { exists st2. split; [done|]. planes_done Hst2. }
  match goal with
  | |- context [APPEND_PLANE_ATTR 2 ?fr ?rest st2] =>
      destruct (plane_filled attr0 _ st2 2 fr rest Hst2 ltac:(lia)
                  ltac:(cbn; lia)) as (st3 & Hst3 & ->)
  end.
  pose proof Hst3 as (_ & Hi3 & _). rewrite !length_app in Hi3. cbn in Hi3.
  destruct (decide (n = 3)) as [->|H3].
  { exists st3. split; [done|]. planes_done Hst3. }
  match goal with
  | |- context [APPEND_PLANE_ATTR 3 ?fr ?rest st3] =>
      destruct (plane_filled attr0 _ st3 3 fr rest Hst3 ltac:(lia)
                  ltac:(cbn; lia)) as (st4 & Hst4 & ->)
  end.
  exists st4. split; [done|].
  rewrite take_ge by (cbn; lia). planes_done Hst4.
Qed.

Lemma planes_attr_length (frame : Dmabuf.dmabuf_frame) :
  length (Dmabuf.plane frame) = 4%nat ->
  length (planes_attr 0 (take (Z.to_nat (Dmabuf.n_planes frame))
                           (Dmabuf.plane frame)))
  = (10 * Nat.min (Z.to_nat (Dmabuf.n_planes frame)) 4)%nat.
Proof.
  intros Hplanes.
  destruct (Dmabuf.plane frame) as [|p0 [|p1 [|p2 [|p3 [|]]]]];
    try discriminate Hplanes.
  destruct (Z.to_nat (Dmabuf.n_planes frame)) as [|[|[|[|k]]]];
    cbn; rewrite ?take_nil; cbn; lia.
Qed.

Lemma dmabuf_frame_attr_filled attr0 frame :
  length attr0 = ATTR_LENGTH ->
  length (Dmabuf.plane frame) = 4%nat ->
  0 <= Dmabuf.n_planes frame ->
  exists st,
    dmabuf_frame_attr attr0 frame = Some st /\
    filled attr0 (frame_attr frame) st.
Proof.
  intros Hlen Hplanes Hn.
  change ATTR_LENGTH with 47%nat in *. unfold dmabuf_frame_attr.
  assert (filled attr0 [] (attr0, 0%nat)) as Hst0.
  { unfold filled. cbn. by rewrite take_0. }
  destruct (append_attr_filled attr0 _ _ EGL_WIDTH (Dmabuf.width frame) Hst0
              ltac:(cbn; lia)) as (st1 & -> & Hst1).
  pose proof Hst1 as (_ & Hi1 & _). cbn in Hi1.
  destruct (append_attr_filled attr0 _ _ EGL_HEIGHT (Dmabuf.height frame) Hst1
              ltac:(lia)) as (st2 & Hs2 & Hst2).
  pose proof Hst2 as (_ & Hi2 & _). cbn in Hi2.
  destruct (append_attr_filled attr0 _ _ EGL_LINUX_DRM_FOURCC_EXT
              (Dmabuf.format frame) Hst2 ltac:(lia)) as (st3 & Hs3 & Hst3).
  pose proof Hst3 as (_ & Hi3 & _). cbn in Hi3.
  destruct (append_planes_filled attr0 _ st3 frame Hst3 ltac:(lia) Hplanes Hn)
    as (st4 & Hs4 & Hst4).
  pose proof (planes_attr_length frame Hplanes) as Hpl.
  pose proof Hst4 as (_ & Hi4 & _). rewrite length_app, Hpl in Hi4. cbn in Hi4.
  destruct (store_filled attr0 _ st4 (Name EGL_NONE) Hst4 ltac:(lia))
    as (Hs5 & Hst5).
  cbn [mbind option_bind]. rewrite Hs2. cbn [mbind option_bind]. rewrite Hs3.
  cbn [mbind option_bind]. rewrite Hs4. cbn [mbind option_bind]. rewrite Hs5.
  cbn [mbind option_bind].
  eexists. split; [reflexivity|].
  unfold frame_attr. by rewrite <- !app_assoc in Hst5.
Qed.

(** X20.  The attribute array of [render_dmabuf_frame] is large enough.
    For a frame with its four planes and any [n_planes], no write goes
    outside the 47 elements of [attr]: the array is filled up to index
    [7 + 10 * min n_planes 4], which is at most 47, with the width, the
    height and the format, then for each of the first [min n_planes 4]
    planes its descriptor, offset, pitch and the two halves of its modifier,
    then [EGL_NONE]; what lies behind the index is not touched. *)
Theorem dmabuf_frame_attr_layout
    (attr0 : list egl_int) (frame : Dmabuf.dmabuf_frame)
    (Hlen : length attr0 = ATTR_LENGTH)
    (Hplanes : length (Dmabuf.plane frame) = 4%nat)
    (Hn : 0 <= Dmabuf.n_planes frame) :
  exists attr index,
    dmabuf_frame_attr attr0 frame = Some (attr, index) /\
    index = (7 + 10 * Nat.min (Z.to_nat (Dmabuf.n_planes frame)) 4)%nat /\
    (index <= ATTR_LENGTH)%nat /\
    length attr = ATTR_LENGTH /\
    take index attr = frame_attr frame /\
    drop index attr = drop index attr0.
Proof.
  destruct (dmabuf_frame_attr_filled attr0 frame Hlen Hplanes Hn)
    as ([attr index] & Hattr & Hl & Hi & Htake & Hdrop).
  cbn [fst snd] in *.
  assert (index = (7 + 10 * Nat.min (Z.to_nat (Dmabuf.n_planes frame)) 4)%nat)
    as Hindex.
  { rewrite Hi. unfold frame_attr. rewrite !length_app.
    rewrite (planes_attr_length frame Hplanes). cbn. lia. }
  exists attr, index. change ATTR_LENGTH with 47%nat in *.
  split; [done|]. split; [done|]. split; [lia|]. split; [lia|]. done.
Qed.

Lemma dmabuf_frame_attr_layout_witness :
  let frame := {| Dmabuf.width := 640; Dmabuf.height := 480;
                  Dmabuf.format := 875713112; Dmabuf.n_planes := 2;
                  Dmabuf.plane := [Dmabuf.Plane 5 0 100 2560 72057594037927937;
                                   Dmabuf.Plane 6 1024 100 2560 72057594037927937;
                                   Dmabuf.zero_plane; Dmabuf.zero_plane] |} in
  let attr0 := replicate ATTR_LENGTH (Value 0) in
  length attr0 = ATTR_LENGTH /\
  length (Dmabuf.plane frame) = 4%nat /\
  0 <= Dmabuf.n_planes frame /\
  exists attr index,
    dmabuf_frame_attr attr0 frame = Some (attr, index) /\
    index = (7 + 10 * Nat.min (Z.to_nat (Dmabuf.n_planes frame)) 4)%nat /\
    (index <= ATTR_LENGTH)%nat /\
    length attr = ATTR_LENGTH /\
    take index attr = frame_attr frame /\
    drop index attr = drop index attr0.
Proof.
  intros frame attr0.
  assert (0 <= Dmabuf.n_planes frame) as Hn by (cbn; lia).
  split; [reflexivity|]. split; [reflexivity|]. split; [exact Hn|].
  exact (dmabuf_frame_attr_layout attr0 frame eq_refl eq_refl Hn).
Defined.

(** ** The modifier, from the frame event to the image *)

Lemma lor_shiftl_add (hi lo : Z) :
  0 <= hi -> 0 <= lo < 2 ^ 32 ->
  Z.lor (Z.shiftl hi 32) lo = hi * 2 ^ 32 + lo.
Proof.
  intros Hhi Hlo.
  assert (Z.land (Z.shiftl hi 32) lo = 0) as Hdisjoint.
  { apply Z.bits_inj'. intros n Hn. rewrite Z.land_spec, Z.bits_0.
    destruct (Z.lt_ge_cases n 32) as [Hlt|Hge].
    - by rewrite Z.shiftl_spec_low.
    - rewrite <- (Z.mod_small lo (2 ^ 32)) by done.
      rewrite Z.mod_pow2_bits_high by lia. apply andb_false_r. }
  rewrite <- Z.lxor_lor by done.
  rewrite <- Z.add_nocarry_lxor by done.
  by rewrite Z.shiftl_mul_pow2.
Qed.

Lemma EGLint_high (hi lo : Z) : EGLint (hi * 2 ^ 32 + lo) = EGLint lo.
Proof.
  unfold EGLint. f_equal.
  replace (hi * 2 ^ 32 + lo + 2 ^ 31) with (lo + 2 ^ 31 + hi * 2 ^ 32) by lia.
  apply Z_mod_plus_full.
Qed.

Lemma u32_EGLint (v : Z) : 0 <= v < 2 ^ 32 -> u32 (EGLint v) = v.
Proof.
  intros Hv. unfold u32, EGLint, UINT32_MOD.
  rewrite Zminus_mod_idemp_l.
  replace (v + 2 ^ 31 - 2 ^ 31) with v by lia. by apply Z.mod_small.
Qed.

Lemma shiftr_high (hi lo : Z) :
  0 <= lo < 2 ^ 32 -> Z.shiftr (hi * 2 ^ 32 + lo) 32 = hi.
Proof.
  intros Hlo. rewrite Z.shiftr_div_pow2 by lia.
  rewrite Z.div_add_l by lia. rewrite Z.div_small by done. lia.
Qed.

Lemma object_events_modifier on_done m ds size' offset' stride' : forall i w,
  Forall (fun p => Dmabuf.modifier p = m)
         (Dmabuf.plane (Dmabuf.frame (Dmabuf.self w))) ->
  Forall (fun p => Dmabuf.modifier p = m)
         (Dmabuf.plane (Dmabuf.frame (Dmabuf.self
            (Dmabuf.run on_done
               (DmabufRun.object_events i ds size' offset' stride') w)))).
Proof.
  induction ds as [|d ds IH]; intros i w Hw; [done|].
  cbn [DmabufRun.object_events Dmabuf.run fold_left].
  apply (IH (S i)).
  unfold Dmabuf.handle, Dmabuf.dmabuf_frame_object, FrameCapture.exec.
  Dmabuf.cmd_unfold.
  rewrite Nat2Z.id.
  destruct (decide (i < length (Dmabuf.plane (Dmabuf.frame (Dmabuf.self w)))))%nat
    as [Hi|Hi].
  - apply Forall_insert; [done|]. cbn.
    destruct (lookup_lt_is_Some_2 _ _ Hi) as [p Hp].
    unfold Dmabuf.plane_at. rewrite (nth_lookup_Some _ _ _ _ Hp).
    rewrite Forall_forall in Hw. apply Hw. by eapply list_elem_of_lookup_2.
  - rewrite list_insert_ge by lia. done.
Qed.

(** X21.  The modifier survives the way from the compositor to EGL.  The
    frame event carries the modifier as two 32-bit words;
    [dmabuf_frame_start] joins them into the 64-bit modifier of all four
    planes, the object events that follow leave it alone, and the attributes
    [dmabuf_attr_append_planes] writes for a plane carry, as
    [MODIFIER_LO] and [MODIFIER_HI], the bit patterns of exactly these two
    words. *)
Theorem dmabuf_modifier_round_trip
    (on_done : Dmabuf.callback)
    (width' height' format' mod_high mod_low num_objects : Z)
    (ds : list Z) (size' offset' stride' : Z) (w : Dmabuf.world)
    (Hhi : 0 <= mod_high < 2 ^ 32) (Hlo : 0 <= mod_low < 2 ^ 32)
    (Hn : 0 <= Dmabuf.n_planes (Dmabuf.frame (Dmabuf.self w))
          <= Z.of_nat (length (Dmabuf.plane (Dmabuf.frame (Dmabuf.self w))))) :
  let w' :=
    Dmabuf.run on_done
      (Dmabuf.FrameEv width' height' format' mod_high mod_low num_objects
       :: DmabufRun.object_events 0 ds size' offset' stride') w in
  Forall (fun p =>
            Dmabuf.modifier p = mod_high * 2 ^ 32 + mod_low /\
            forall k,
              plane_attr k p
              = [Name (EGL_DMA_BUF_PLANE_FD_EXT k); Value (EGLint (Dmabuf.fd p));
                 Name (EGL_DMA_BUF_PLANE_OFFSET_EXT k);
                 Value (EGLint (Dmabuf.offset p));
                 Name (EGL_DMA_BUF_PLANE_PITCH_EXT k);
                 Value (EGLint (Dmabuf.pitch p));
                 Name (EGL_DMA_BUF_PLANE_MODIFIER_LO_EXT k);
                 Value (EGLint mod_low);
                 Name (EGL_DMA_BUF_PLANE_MODIFIER_HI_EXT k);
                 Value (EGLint mod_high)])
         (Dmabuf.plane (Dmabuf.frame (Dmabuf.self w'))) /\
  u32 (EGLint mod_low) = mod_low /\
  u32 (EGLint mod_high) = mod_high.
Proof.
  intros w'. split; [|split; by apply u32_EGLint].
  assert (Forall (fun p => Dmabuf.modifier p = mod_high * 2 ^ 32 + mod_low)
            (Dmabuf.plane (Dmabuf.frame (Dmabuf.self w')))) as Hall.
  { unfold w'. cbn [Dmabuf.run fold_left].
    apply (object_events_modifier on_done _ ds size' offset' stride' 0).
    unfold Dmabuf.handle. rewrite DmabufMore.dmabuf_frame_start_eq by done.
    cbn. rewrite lor_shiftl_add by lia.
    apply Forall_forall. intros p Hp.
    apply list_elem_of_fmap in Hp as (q & -> & _). done. }
  eapply Forall_impl; [exact Hall|]. intros p Hp. split; [done|].
  intros k. unfold plane_attr. rewrite Hp.
  by rewrite EGLint_high, shiftr_high.
Qed.

Lemma dmabuf_modifier_round_trip_witness :
  0 <= 16777216 < 2 ^ 32 /\ 0 <= 1 < 2 ^ 32 /\
  0 <= Dmabuf.n_planes (Dmabuf.frame (Dmabuf.self Dmabuf.initial))
    <= Z.of_nat (length (Dmabuf.plane
                           (Dmabuf.frame (Dmabuf.self Dmabuf.initial)))) /\
  let w' :=
    Dmabuf.run (fun s => s)
      (Dmabuf.FrameEv 640 480 875713112 16777216 1 2
       :: DmabufRun.object_events 0 [5; 6] 100 0 2560) Dmabuf.initial in
  Forall (fun p =>
            Dmabuf.modifier p = 16777216 * 2 ^ 32 + 1 /\
            forall k,
              plane_attr k p
              = [Name (EGL_DMA_BUF_PLANE_FD_EXT k); Value (EGLint (Dmabuf.fd p));
                 Name (EGL_DMA_BUF_PLANE_OFFSET_EXT k);
                 Value (EGLint (Dmabuf.offset p));
                 Name (EGL_DMA_BUF_PLANE_PITCH_EXT k);
                 Value (EGLint (Dmabuf.pitch p));
                 Name (EGL_DMA_BUF_PLANE_MODIFIER_LO_EXT k);
                 Value (EGLint 1);
                 Name (EGL_DMA_BUF_PLANE_MODIFIER_HI_EXT k);
                 Value (EGLint 16777216)])
         (Dmabuf.plane (Dmabuf.frame (Dmabuf.self w'))) /\
  u32 (EGLint 1) = 1 /\
  u32 (EGLint 16777216) = 16777216.
Proof.
  assert (0 <= 16777216 < 2 ^ 32) as Hhi by lia.
  assert (0 <= 1 < 2 ^ 32) as Hlo by lia.
  assert (0 <= Dmabuf.n_planes (Dmabuf.frame (Dmabuf.self Dmabuf.initial))
          <= Z.of_nat (length (Dmabuf.plane
                                 (Dmabuf.frame (Dmabuf.self Dmabuf.initial)))))
    as Hn by (cbn; lia).
  split; [exact Hhi|]. split; [exact Hlo|]. split; [exact Hn|].
  exact (dmabuf_modifier_round_trip (fun s => s) 640 480 875713112 16777216 1 2
           [5; 6] 100 0 2560 Dmabuf.initial Hhi Hlo Hn).
Defined.

(** ** Textures *)

Lemma keep_texture_one tex w :
  tex <> 0 ->
  textures w = {[ tex ]} ∪ (if last_texture (self w) =? 0 then ∅
                            else {[ last_texture (self w) ]}) ->
  tex <> last_texture (self w) ->
  one_texture (keep_texture tex w).
Proof.
  intros Htex Hw Hnew. unfold keep_texture, one_texture.
  destruct (Z.eqb_spec (last_texture (self w)) 0) as [Hz|Hz]; cbn;
    (destruct (Z.eqb_spec tex 0); [done|]); rewrite Hw;
    apply leibniz_equiv; intros x.
  - rewrite elem_of_union, elem_of_empty. tauto.
  - rewrite elem_of_difference, elem_of_union, !elem_of_singleton.
    split; [tauto|]. intros ->. split; [by left|done].
Qed.

Lemma fresh_texture tex w :
  one_texture w -> tex <> 0 -> tex ∉ textures w -> tex <> last_texture (self w).
Proof.
  unfold one_texture. intros Hw Htex Hfresh ->. apply Hfresh. rewrite Hw.
  destruct (Z.eqb_spec (last_texture (self w)) 0); [done|].
  by apply elem_of_singleton.
Qed.

Lemma handle_one_texture ev w :
  one_texture w -> well_answered ev w ->
  exists w', handle ev w = Some w' /\ one_texture w'.
Proof.
  intros Hw Hev.
  destruct ev as [attr0 image tex frame
                 |tex malloc_ok pixels addr fmt width' height' stride];
    cbn [handle well_answered] in *.
  - destruct Hev as (Hlen & Hplanes & Hn & Htex & Hfresh).
    unfold render_dmabuf_frame.
    destruct (Dmabuf.n_planes frame =? 0); [by exists w|].
    destruct (dmabuf_frame_attr_filled attr0 frame Hlen Hplanes Hn)
      as (st & -> & _).
    cbn [mbind option_bind].
    destruct (image =? 0); cbn [fmap option_fmap option_map snd];
      eexists; (split; [reflexivity|]).
    + exact Hw.
    + apply keep_texture_one; [done| |cbn; by apply fresh_texture].
      cbn. by rewrite Hw.
  - destruct Hev as (Htex & Hfresh). eexists. split; [reflexivity|].
    unfold render_framebuffer.
    change (fst (gl_format_from_wl_shm fmt) <? 0) with false. cbv iota.
    cbn [snd]. apply keep_texture_one; [done| |].
    + unfold render_check_damage. destruct malloc_ok; cbn; by rewrite Hw.
    + unfold render_check_damage. destruct malloc_ok; cbn;
        by apply fresh_texture.
Qed.

(** X22.  The renderer keeps one texture.  Starting with no texture but
    the one it remembers, and drawing any sequence of DMA-BUF frames and
    framebuffers for which the driver answers new texture names: every draw
    returns, with no write outside the attribute array; after each of them
    the only texture that exists is [last_texture], the one of the frame
    drawn last, also when an image could not be created; and
    [renderer_destroy] leaves no texture behind. *)
Theorem render_one_texture (evs : list event) (w : world)
    (Hw : one_texture w) (Hevs : all_well_answered evs w) :
  exists w',
    run evs w = Some w' /\
    one_texture w' /\
    textures (renderer_destroy w') = ∅.
Proof.
  revert w Hw Hevs. induction evs as [|ev evs IH]; intros w Hw Hevs.
  - exists w. split; [done|]. split; [done|].
    unfold renderer_destroy, one_texture in *.
    destruct (Z.eqb_spec (last_texture (self w)) 0); cbn; rewrite Hw; [done|].
    apply leibniz_equiv. intros x.
    rewrite elem_of_difference, elem_of_empty. tauto.
  - destruct Hevs as [Hev Hevs].
    destruct (handle_one_texture ev w Hw Hev) as (w1 & Hh & Hw1).
    rewrite Hh in Hevs. cbn [run]. rewrite Hh. cbn [mbind option_bind].
    by apply IH.
Qed.

Lemma render_one_texture_witness :
  let evs := [Framebuffer 1 true [0; 7; 0; 0] 4096 0 64 64 256;
              DmabufFrame (replicate ATTR_LENGTH (Value 0)) 9 2 example_frame] in
  one_texture example_renderer /\
  all_well_answered evs example_renderer /\
  exists w',
    run evs example_renderer = Some w' /\
    one_texture w' /\
    textures (renderer_destroy w') = ∅.
Proof.
  intros evs.
  assert (one_texture example_renderer) as Hw by reflexivity.
  assert (all_well_answered evs example_renderer) as Hevs.
  { split; [split; [lia|apply not_elem_of_empty]|].
    cbn [handle all_well_answered well_answered].
    split; [|by destruct (snd <$> render_dmabuf_frame _ _ _ _ _)].
    split; [reflexivity|]. split; [reflexivity|]. split; [cbn; lia|].
    split; [lia|].
    unfold render_framebuffer, render_check_damage, keep_texture.
    cbn [snd fst gl_format_from_wl_shm Z.ltb Z.compare negb emit self textures
         gl_render gl_clear set_current_damage set_last_texture glGenTextures
         last_texture example_renderer Z.eqb].
    rewrite elem_of_union, elem_of_singleton, elem_of_empty. lia. }
  split; [exact Hw|]. split; [exact Hevs|].
  exact (render_one_texture evs example_renderer Hw Hevs).
Defined.

(** ** Damage *)

Lemma contains_union_rect region x y width' height' px py :
  pixman_region_contains_point
    (pixman_region_union_rect region x y width' height') px py
  = pixman_region_contains_point region px py ||
    box_contains_point (Box x y (x + width') (y + height')) px py.
Proof.
  unfold pixman_region_contains_point, pixman_region_union_rect.
  rewrite existsb_app. cbn [existsb]. by rewrite orb_false_r.
Qed.

(** The tile [(x, y)] is marked in the buffer and holds the point. *)
Lemma damage_cell_contains buffer width' y x damage px py :
  pixman_region_contains_point (damage_cell buffer width' y x damage) px py = true
  <-> pixman_region_contains_point damage px py = true \/
      (nth (y * width' + x) buffer 0 <> 0 /\
       Z.of_nat x * 32 <= px < Z.of_nat x * 32 + 32 /\
       Z.of_nat y * 32 <= py < Z.of_nat y * 32 + 32).
Proof.
  unfold damage_cell.
  destruct (Z.eqb_spec (nth (y * width' + x) buffer 0) 0) as [Hz|Hz].
  - split; [by left|]. intros [?|[? _]]; done.
  - rewrite contains_union_rect, orb_true_iff. cbn [box_contains_point].
    rewrite !andb_true_iff, !Z.leb_le, !Z.ltb_lt. split.
    + intros [?|?]; [by left|right]. split; [done|lia].
    + intros [?|(_ & ? & ?)]; [by left|right]. lia.
Qed.

Lemma damage_row_contains buffer width' y px py : forall xs damage,
  pixman_region_contains_point
    (fold_left (fun d x => damage_cell buffer width' y x d) xs damage) px py = true
  <-> pixman_region_contains_point damage px py = true \/
      exists x, In x xs /\
        nth (y * width' + x) buffer 0 <> 0 /\
        Z.of_nat x * 32 <= px < Z.of_nat x * 32 + 32 /\
        Z.of_nat y * 32 <= py < Z.of_nat y * 32 + 32.
Proof.
  induction xs as [|x xs IH]; intros damage; cbn [fold_left].
  - split; [by left|]. intros [?|(? & [] & _)]. done.
  - rewrite IH, damage_cell_contains. split.
    + intros [[?|?]|(x' & ? & ?)]; [by left|right; exists x|right; exists x'];
        (split; [cbn; tauto|done]).
    + intros [?|(x' & [<-|?] & ?)]; [by left; left|by left; right|right].
      by exists x'.
Qed.

Lemma damage_rows_contains buffer width' px py : forall ys damage,
  pixman_region_contains_point
    (fold_left (fun d y => damage_row buffer width' y d) ys damage) px py = true
  <-> pixman_region_contains_point damage px py = true \/
      exists x y, In y ys /\ (x < width')%nat /\
        nth (y * width' + x) buffer 0 <> 0 /\
        Z.of_nat x * 32 <= px < Z.of_nat x * 32 + 32 /\
        Z.of_nat y * 32 <= py < Z.of_nat y * 32 + 32.
Proof.
  induction ys as [|y ys IH]; intros damage; cbn [fold_left].
  - split; [by left|]. intros [?|(? & ? & [] & _)]. done.
  - rewrite IH. unfold damage_row. rewrite damage_row_contains. split.
    + intros [[?|(x & Hx & ?)]|(x & y' & ? & ?)]; [by left|right|right].
      * exists x, y. apply in_seq in Hx. split; [by left|]. split; [lia|done].
      * exists x, y'. split; [by right|done].
    + intros [?|(x & y' & [<-|?] & Hx & ?)]; [by left; left|left; right|right].
      * exists x. split; [apply in_seq; lia|done].
      * by exists x, y'.
Qed.

(** X23.  What [render_check_damage] reports.  When the buffer cannot be
    allocated the function returns before it touches [current_damage], which
    stays as the previous frame left it.  Otherwise the previous damage is
    discarded and a point is in the new region exactly when it lies in a
    32 by 32 tile that the read-back marks: the tile of column [px / 32] and
    row [py / 32], of the [width / 32] by [height / 32] tiles.  The strips
    right of [32 * (width / 32)] and below [32 * (height / 32)] are never
    reported.  The textures are not touched. *)
Theorem render_check_damage_tiles
    (malloc_ok : bool) (pixels : list Z) (target : texture_target) (tex : Z)
    (w : world) (px py : Z) :
  let w' := render_check_damage malloc_ok pixels target tex w in
  let tiles_x := width (self w) / 32 in
  let tiles_y := height (self w) / 32 in
  (if malloc_ok then
     pixman_region_contains_point (current_damage (self w')) px py = true
     <-> 0 <= px < 32 * tiles_x /\ 0 <= py < 32 * tiles_y /\
         nth (Z.to_nat (py / 32 * tiles_x + px / 32)) pixels 0 <> 0
   else current_damage (self w') = current_damage (self w)) /\
  last_texture (self w') = last_texture (self w) /\
  textures w' = textures w.
Proof.
  intros w' tiles_x tiles_y. unfold w', render_check_damage.
  destruct malloc_ok;
    cbn [negb set_current_damage emit gl_render gl_clear self current_damage
         last_texture textures width height]; [|done].
  split; [|done]. fold tiles_x tiles_y. unfold damage_rows.
  rewrite damage_rows_contains. cbn [pixman_region_contains_point existsb].
  split.
  - intros [?|(x & y & Hy & Hx & Hnz & Hpx & Hpy)]; [done|].
    apply in_seq in Hy.
    assert (px / 32 = Z.of_nat x) as Hqx
      by (symmetry; apply (Z.div_unique px 32 _ (px - Z.of_nat x * 32)); lia).
    assert (py / 32 = Z.of_nat y) as Hqy
      by (symmetry; apply (Z.div_unique py 32 _ (py - Z.of_nat y * 32)); lia).
    split; [lia|]. split; [lia|].
    rewrite Hqx, Hqy.
    replace (Z.to_nat (Z.of_nat y * tiles_x + Z.of_nat x))
      with (y * Z.to_nat tiles_x + x)%nat by nia.
    done.
  - intros (Hpx & Hpy & Hnz). right.
    assert (0 <= px / 32 < tiles_x)
      by (split; [apply Z.div_pos; lia|apply Z.div_lt_upper_bound; lia]).
    assert (0 <= py / 32 < tiles_y)
      by (split; [apply Z.div_pos; lia|apply Z.div_lt_upper_bound; lia]).
    exists (Z.to_nat (px / 32)), (Z.to_nat (py / 32)).
    split; [apply in_seq; lia|]. split; [lia|].
    replace (Z.to_nat (py / 32) * Z.to_nat tiles_x + Z.to_nat (px / 32))%nat
      with (Z.to_nat (py / 32 * tiles_x + px / 32)) by nia.
    split; [done|]. rewrite !Z2Nat.id by lia.
    pose proof (Z.div_mod px 32 ltac:(lia)).
    pose proof (Z.mod_pos_bound px 32 ltac:(lia)).
    pose proof (Z.div_mod py 32 ltac:(lia)).
    pose proof (Z.mod_pos_bound py 32 ltac:(lia)).
    lia.
Qed.

(** The damage of a 64 by 64 surface with one marked tile, by evaluation:
    the second tile of the first row. *)
Example render_check_damage_example :
  current_damage
    (self (render_check_damage true [0; 7; 0; 0] GL_TEXTURE_2D 1
             example_renderer))
  = [Box 32 0 64 32].
Proof. reflexivity. Qed.

(** ** Shaders *)

(** X24.  [gl_compile_shader_program] and the shaders it creates.  The
    function returns 0, and stores the program, exactly when neither
    compilation nor the link reports an error.  Every shader it has created
    is deleted on every path; on the paths that reach the link, with or
    without an error, each of the two shaders is deleted twice, once after
    the link and once more at the labels the function falls through.  The
    program is deleted exactly when the link fails. *)
Theorem gl_compile_shader_program_deletes
    (vertex fragment program : Z)
    (vertex_error fragment_error link_error : bool)
    (vertex_src fragment_src : shader_source)
    (Hdistinct : vertex <> fragment) :
  let r := gl_compile_shader_program vertex fragment program vertex_error
             fragment_error link_error vertex_src fragment_src in
  let calls := snd r in
  (fst (fst r) = 0 <->
   vertex_error = false /\ fragment_error = false /\ link_error = false) /\
  (fst (fst r) <> 0 -> fst (fst r) = -1) /\
  snd (fst r) = (if fst (fst r) =? 0 then Some program else None) /\
  count_calls (deletes_shader vertex) calls
  = (if vertex_error || fragment_error then 1%nat else 2%nat) /\
  count_calls (deletes_shader fragment) calls
  = (if vertex_error then 0%nat else if fragment_error then 1%nat else 2%nat) /\
  count_calls (deletes_program program) calls
  = (if negb vertex_error && negb fragment_error && link_error
     then 1%nat else 0%nat).
Proof.
  intros r calls. unfold calls, r, gl_compile_shader_program, gl_load_shader,
    count_calls.
  assert ((vertex =? fragment) = false) as Hvf by (by apply Z.eqb_neq).
  assert ((fragment =? vertex) = false) as Hfv
    by (apply Z.eqb_neq; congruence).
  destruct vertex_error, fragment_error, link_error;
    cbn; rewrite ?Z.eqb_refl, ?Hvf, ?Hfv; cbn;
    (split; [split; [try done; by intros [=]|by intros (? & ? & ?)]|]);
    (split; [try done; by intros []|]); done.
Qed.

Lemma gl_compile_shader_program_deletes_witness :
  3 <> 4 /\
  let r := gl_compile_shader_program 3 4 5 false false false
             dmabuf_vertex_src dmabuf_fragment_src in
  let calls := snd r in
  (fst (fst r) = 0 <-> false = false /\ false = false /\ false = false) /\
  (fst (fst r) <> 0 -> fst (fst r) = -1) /\
  snd (fst r) = (if fst (fst r) =? 0 then Some 5 else None) /\
  count_calls (deletes_shader 3) calls = 2%nat /\
  count_calls (deletes_shader 4) calls = 2%nat /\
  count_calls (deletes_program 5) calls = 0%nat.
Proof.
  assert (3 <> 4) as Hd by lia.
  split; [exact Hd|].
  exact (gl_compile_shader_program_deletes 3 4 5 false false false
           dmabuf_vertex_src dmabuf_fragment_src Hd).
Defined.

(** ** Reading back *)

Lemma i32_small (z : Z) : 0 <= z < 2 ^ 31 -> i32 z = z.
Proof. intros Hz. unfold i32. rewrite Z.mod_small by lia. lia. Qed.

Lemma i32_large (z : Z) : 2 ^ 31 <= z < 2 ^ 32 -> i32 z = z - 2 ^ 32.
Proof.
  intros Hz. unfold i32.
  rewrite <- (Z.mod_unique (z + 2 ^ 31) (2 ^ 32) 1 (z - 2 ^ 31)); lia.
Qed.

(** X25.  The assertion of [render_copy_pixels] adds [y] and [height] as
    32-bit unsigned integers, and [glReadPixels] takes them as signed
    32-bit integers.  With the assertion compiled in and a sum that does not
    wrap, the function reads exactly when the rows lie inside the surface.
    When the sum wraps, the assertion holds whenever the wrapped sum is
    within the height, although the rows asked for end beyond the surface,
    and [glReadPixels] is then handed a negative [y] or a negative height.
    Compiled with [NDEBUG] the function always reads.  What is read is the
    whole width, from row [y], [height] rows, each as the signed value of
    the argument, which is the argument itself below [2^31]. *)
Theorem render_copy_pixels_assertion (y height' : Z) (w : world)
    (Hy : 0 <= y < 2 ^ 32) (Hheight : 0 <= height' < 2 ^ 32)
    (Hsurface : 0 <= height (self w) < 2 ^ 32) :
  (y + height' < 2 ^ 32 ->
   (is_Some (render_copy_pixels false y height' w)
    <-> y + height' <= height (self w))) /\
  (2 ^ 32 <= y + height' ->
   (is_Some (render_copy_pixels false y height' w)
    <-> y + height' - 2 ^ 32 <= height (self w)) /\
   height (self w) < y + height' /\
   (i32 y < 0 \/ i32 height' < 0)) /\
  is_Some (render_copy_pixels true y height' w) /\
  (forall ndebug w', render_copy_pixels ndebug y height' w = Some w' ->
     w' = emit (GlReadPixels 0 (i32 y) (i32 (width (self w))) (i32 height')) w) /\
  (y < 2 ^ 31 -> i32 y = y) /\
  (height' < 2 ^ 31 -> i32 height' = height').
Proof.
  unfold render_copy_pixels, u32, UINT32_MOD.
  split; [|split; [|split; [|split; [|split]]]].
  - intros Hsum. rewrite Z.mod_small by lia. cbn [orb].
    destruct (Z.leb_spec (y + height') (height (self w))).
    + split; [done|]. by eexists.
    + split; [intros [? [=]]|lia].
  - intros Hsum.
    assert ((y + height') mod 2 ^ 32 = y + height' - 2 ^ 32) as ->.
    { symmetry. apply (Z.mod_unique _ _ 1); lia. }
    cbn [orb]. split; [|split; [lia|]].
    + destruct (Z.leb_spec (y + height' - 2 ^ 32) (height (self w))).
      * split; [done|]. by eexists.
      * split; [intros [? [=]]|lia].
    + destruct (Z.lt_ge_cases y (2 ^ 31)).
      * right. rewrite i32_large; lia.
      * left. rewrite i32_large; lia.
  - cbn [orb]. by eexists.
  - intros ndebug w'. destruct (_ || _); by intros [=].
  - intros. apply i32_small. lia.
  - intros. apply i32_small. lia.
Qed.

Lemma render_copy_pixels_assertion_witness :
  0 <= 4294967295 < 2 ^ 32 /\ 0 <= 2 < 2 ^ 32 /\
  0 <= height (self example_renderer) < 2 ^ 32 /\
  (4294967295 + 2 < 2 ^ 32 ->
   (is_Some (render_copy_pixels false 4294967295 2 example_renderer)
    <-> 4294967295 + 2 <= height (self example_renderer))) /\
  (2 ^ 32 <= 4294967295 + 2 ->
   (is_Some (render_copy_pixels false 4294967295 2 example_renderer)
    <-> 4294967295 + 2 - 2 ^ 32 <= height (self example_renderer)) /\
   height (self example_renderer) < 4294967295 + 2 /\
   (i32 4294967295 < 0 \/ i32 2 < 0)) /\
  is_Some (render_copy_pixels true 4294967295 2 example_renderer) /\
  (forall ndebug w',
     render_copy_pixels ndebug 4294967295 2 example_renderer = Some w' ->
     w' = emit (GlReadPixels 0 (i32 4294967295)
                  (i32 (width (self example_renderer))) (i32 2))
            example_renderer) /\
  (4294967295 < 2 ^ 31 -> i32 4294967295 = 4294967295) /\
  (2 < 2 ^ 31 -> i32 2 = 2).
Proof.
  assert (0 <= 4294967295 < 2 ^ 32) as Hy by lia.
  assert (0 <= 2 < 2 ^ 32) as Hh by lia.
  assert (0 <= height (self example_renderer) < 2 ^ 32) as Hs by (cbn; lia).
  split; [exact Hy|]. split; [exact Hh|]. split; [exact Hs|].
  exact (render_copy_pixels_assertion 4294967295 2 example_renderer Hy Hh Hs).
Defined.

(** The wrapping call, by evaluation: the assertion holds for row
    4294967295 and two rows on a surface of 64 rows, and [glReadPixels] is
    asked for two rows from row -1. *)
Example render_copy_pixels_example :
  trace <$> render_copy_pixels false 4294967295 2 example_renderer
  = Some [GlReadPixels 0 (-1) 64 2] /\
  render_copy_pixels false 63 2 example_renderer = None /\
  trace <$> render_copy_pixels true 63 2 example_renderer
  = Some [GlReadPixels 0 63 64 2].
Proof. vm_compute. done. Qed.

End RenderProofs.
